(** * Resource teardown sweeper and create-or-get helpers

    A shallow embedding of [cleanup/cleanup_tagged_resources.py]
    ([parse_arn], the nine deletion handlers, [delete_resources]) and of the
    create-or-get helpers of [bedrock_agents/agent.py] ([create_lambda],
    [create_lambda_role]), with the properties the specification states
    about them.

    The programs run in a monad that threads the state of the cloud
    provider and a log of events, and that raises Python's exceptions. The
    provider is a parameter: [serve] answers each client call (with a
    response or a fault) and moves its state, so every statement holds for
    every behaviour of the services. The log records what is printed and
    every client call with its answer; the order of calls is read off it.

    Python strings are modelled as [string] (sequences of bytes, UTF-8 for
    text outside ASCII: the delimiters the code looks for, [":"], ["/"] and
    the newline, are ASCII, so splitting and prefix tests agree with the
    code-point view). Response dictionaries are modelled by the top-level
    key the code subscripts ([KeyError] when it is missing) and by records
    for the fields read below it. *)

From Stdlib Require Import String Ascii List Bool Arith Lia.
Import ListNotations.
Open Scope string_scope.

Set Implicit Arguments.

(** ** Exceptions and results *)

(** The exceptions that reach the code: [ClientError] is botocore's
    [ClientError], carrying the error code of the service response;
    [OtherError] is any other exception an SDK or library call raises
    (parameter validation, connection errors, a missing file);
    [IndexError] and [KeyError] are raised by Python's own subscripts. *)
Inductive exn : Type :=
| ClientError (code : string)
| OtherError (name : string)
| IndexError
| KeyError (key : string).

Inductive result (A : Type) : Type :=
| Ok (a : A)
| Raised (e : exn).

Arguments Ok {A} a.
Arguments Raised {A} e.

(** ** String operations of the Python code *)

Module Py.

(** [s.split(sep)] for a one-character separator: always at least one
    segment, and [n] separators give [n + 1] segments. *)
Fixpoint split (sep : ascii) (s : string) : list string :=
  match s with
  | EmptyString => [EmptyString]
  | String c rest =>
      if Ascii.eqb c sep then EmptyString :: split sep rest
      else match split sep rest with
           | [] => [String c EmptyString]
           | seg :: segs => String c seg :: segs
           end
  end.

(** [sep.join(l)]. *)
Definition join (sep : string) (l : list string) : string := String.concat sep l.

(** [s\[len(p):\]] when [s.startswith(p)]. *)
Fixpoint strip_prefix (p s : string) : option string :=
  match p with
  | EmptyString => Some s
  | String a p' =>
      match s with
      | EmptyString => None
      | String b s' => if Ascii.eqb a b then strip_prefix p' s' else None
      end
  end.

Definition startswith (s p : string) : bool :=
  match strip_prefix p s with Some _ => true | None => false end.

Definition newline : ascii := Ascii.ascii_of_nat 10.

(** The longest prefix of [s] without a newline: what [.+] (or [.*]) can
    consume, since [.] matches every character but the newline. *)
Fixpoint line_of (s : string) : string :=
  match s with
  | EmptyString => EmptyString
  | String c rest => if Ascii.eqb c newline then EmptyString else String c (line_of rest)
  end.

(** [re.match(r"^<literal>(.+)", s)], for a [literal] without regular
    expression metacharacters: [None] when there is no match, otherwise
    [match.group(1)]. The group is greedy and is not anchored at the end. *)
Definition re_match_group (literal s : string) : option string :=
  match strip_prefix literal s with
  | Some rest =>
      match line_of rest with
      | EmptyString => None
      | group => Some group
      end
  | None => None
  end.

(** [s.replace(old, "")] for a non-empty [old]: every non-overlapping
    occurrence, from the left, is removed. [skip] counts the characters of
    an occurrence still to be dropped. *)
Fixpoint remove_from (old : string) (skip : nat) (s : string) : string :=
  match s with
  | EmptyString => EmptyString
  | String c rest =>
      match skip with
      | S k => remove_from old k rest
      | O =>
          if startswith s old then remove_from old (String.length old - 1) rest
          else String c (remove_from old 0 rest)
      end
  end.

Definition remove_all (old s : string) : string := remove_from old 0 s.

End Py.

(** ** Identifier classification *)

(** [parse_arn]: the service is segment 3, the resource everything after
    the fifth colon. [parts\[2\]] raises [IndexError] when there are fewer
    than three segments; the slice [parts\[5:\]] never raises. *)
Definition parse_arn (arn : string) : result (string * string) :=
  let parts := Py.split ":" arn in
  match nth_error parts 2 with
  | None => Raised IndexError
  | Some service =>
      let resource := Py.join ":" (skipn 5 parts) in
      Ok (service, resource)
  end.

(** ** Service requests and responses *)

(** The parts of the service responses the code reads. Field names are the
    keys of the boto3 response dictionaries, prefixed by the record. *)
Record collection_detail := { cd_name : string }.
Record policy_summary := { ps_name : string }.
Record knowledge_base := { kb_name : string }.
Record data_source_summary := { dss_dataSourceId : string; dss_name : string }.
Record data_source := {
  ds_name : string;
  ds_dataSourceConfiguration : string;
  ds_vectorIngestionConfiguration : option string }.
Record s3_object := { obj_Key : string }.
Record attached_policy := { ap_PolicyName : string; ap_PolicyArn : string }.
Record instance_profile := { ip_InstanceProfileName : string }.
Record policy_version := { pv_VersionId : string; pv_IsDefaultVersion : bool }.
Record function_configuration := { fc_FunctionName : string; fc_FunctionArn : string }.
Record iam_role := { role_RoleName : string; role_Arn : string }.
Record iam_policy := { pol_PolicyName : string; pol_Arn : string }.

(** One constructor per client operation the code calls, with the keyword
    arguments it passes. *)
Inductive api_call : Type :=
(* opensearchserverless *)
| BatchGetCollection (ids : list string)
| ListSecurityPolicies (type : string) (resource : list string)
| DeleteSecurityPolicy (name type : string)
| ListAccessPolicies (type : string) (resource : list string)
| DeleteAccessPolicy (name type : string)
| DeleteCollection (id : string)
(* bedrock *)
| DeleteGuardrail (guardrailIdentifier : string)
(* bedrock-agent *)
| GetKnowledgeBase (knowledgeBaseId : string)
| ListDataSources (knowledgeBaseId : string)
| GetDataSource (knowledgeBaseId dataSourceId : string)
| UpdateDataSource (knowledgeBaseId dataSourceId name dataSourceConfiguration
                    vectorIngestionConfiguration dataDeletionPolicy : string)
| DeleteDataSource (knowledgeBaseId dataSourceId : string)
| DeleteKnowledgeBase (knowledgeBaseId : string)
| DeleteAgent (agentId : string)
(* s3 *)
| ListObjectsV2 (Bucket : string)
| DeleteObjects (Bucket : string) (Keys : list string)
| DeleteBucket (Bucket : string)
(* iam *)
| ListAttachedRolePolicies (RoleName : string)
| DetachRolePolicy (RoleName PolicyArn : string)
| ListRolePolicies (RoleName : string)
| DeleteRolePolicy (RoleName PolicyName : string)
| ListInstanceProfilesForRole (RoleName : string)
| RemoveRoleFromInstanceProfile (InstanceProfileName RoleName : string)
| DeleteRole (RoleName : string)
| ListPolicyVersions (PolicyArn : string)
| DeletePolicyVersion (PolicyArn VersionId : string)
| DeletePolicy (PolicyArn : string)
| CreateRole (RoleName AssumeRolePolicyDocument : string) (Tags : list (string * string))
| GetRole (RoleName : string)
| AttachRolePolicy (RoleName PolicyArn : string)
| CreatePolicy (PolicyName PolicyDocument : string)
| GetPolicy (PolicyArn : string)
(* lambda *)
| DeleteFunction (FunctionName : string)
| CreateFunction (FunctionName Runtime : string) (Timeout : nat)
                 (Role ZipFile Handler : string) (Tags : list (string * string))
| GetFunction (FunctionName : string)
(* dynamodb *)
| DeleteTable (TableName : string).

(** The response dictionaries, by the top-level key the code subscripts.
    [NoContent] is a response none of whose keys is read. The response of
    [create_function] is the function configuration itself, that of
    [get_function] nests it under ["Configuration"]; [create_role] and
    [get_role] both answer [{"Role": ...}], [create_policy] and
    [get_policy] both [{"Policy": ...}]. *)
Inductive response : Type :=
| NoContent
| CollectionDetails (l : list collection_detail)
| SecurityPolicySummaries (l : list policy_summary)
| AccessPolicySummaries (l : list policy_summary)
| KnowledgeBase (kb : knowledge_base)
| DataSourceSummaries (l : list data_source_summary)
| DataSource (ds : data_source)
| ObjectsPage (Contents : option (list s3_object))
| AttachedPolicies (l : list attached_policy)
| PolicyNames (l : list string)
| InstanceProfiles (l : list instance_profile)
| Versions (l : list policy_version)
| FunctionConfiguration (cfg : function_configuration)
| GetFunctionResponse (Configuration : function_configuration)
| RoleResponse (Role : iam_role)
| PolicyResponse (Policy : iam_policy).

Inductive outcome : Type :=
| Returned (r : response)
| Fault (e : exn).

(** The nine deletion handlers, by name. *)
Inductive action_name : Type :=
| Guardrail | Collection | KnowledgeBaseAction | Bucket | Function
| Roles | Policy | Table | Agent.

(** What a run leaves behind, in order: the lines printed, the pauses, the
    client calls with what they answered. [Entered] is a ghost event: it
    marks the point where the sweep calls a handler on an identifier, and
    has no counterpart in the program's output. *)
Inductive event : Type :=
| Printed (line : string)
| Slept (seconds : nat)
| Entered (action : action_name) (arn : string)
| Called (c : api_call) (o : outcome).

(** ** The program monad: provider state, event log, exceptions *)

Section Program.

(** The state of the cloud provider (and of the local files). *)
Variable W : Type.

(** A paginator's pages, fetched one at a time: the next page is asked of
    the provider in the state it has then. The type is inductive, so
    every pagination ends. *)
Inductive pager : Type :=
| NoMorePages
| PageFault (e : exn)
| Page (r : response) (next : W -> pager).

(** The clients: [serve] answers one call and moves the provider's state,
    [paginate] is what [get_paginator(...).paginate(...)] iterates.
    [zip_file path] is the content of a zip archive made of the local file
    [path] ([ZipFile.write] on a [BytesIO], then [getvalue]). *)
Record provider : Type := {
  serve : W -> api_call -> outcome * W;
  paginate : W -> api_call -> pager;
  zip_file : W -> string -> result string }.

Variable P : provider.

Record state : Type := { world : W; log : list event }.

Definition M (A : Type) : Type := state -> result A * state.

Definition ret {A} (a : A) : M A := fun st => (Ok a, st).

Definition raise {A} (e : exn) : M A := fun st => (Raised e, st).

Definition bind {A B} (m : M A) (k : A -> M B) : M B :=
  fun st =>
    match m st with
    | (Ok a, st') => k a st'
    | (Raised e, st') => (Raised e, st')
    end.

Definition emit (ev : event) : M unit :=
  fun st => (Ok tt, {| world := world st; log := log st ++ [ev] |}).

Definition print (line : string) : M unit := emit (Printed line).

Definition sleep (seconds : nat) : M unit := emit (Slept seconds).

(** A client call: the provider answers, the call and its answer are
    logged, a fault is raised as an exception. *)
Definition invoke (c : api_call) : M response :=
  fun st =>
    let (o, w') := serve P (world st) c in
    let st' := {| world := w'; log := log st ++ [Called c o] |} in
    match o with
    | Returned r => (Ok r, st')
    | Fault e => (Raised e, st')
    end.

(** A call whose response is not read. *)
Definition call (c : api_call) : M unit := bind (invoke c) (fun _ => ret tt).

Definition package (path : string) : M string :=
  fun st => (zip_file P (world st) path, st).

(** [d\[key\]]: [KeyError] when the dictionary has no such key. *)
Definition subscript {T} (key : string) (value : option T) : M T :=
  match value with
  | Some v => ret v
  | None => raise (KeyError key)
  end.

Definition item {T} (key : string) (field : response -> option T) (r : response) : M T :=
  subscript key (field r).

(** [try: m except <catches>: handler]. *)
Definition try_except {A} (m : M A) (catches : exn -> bool) (handler : M A) : M A :=
  fun st =>
    match m st with
    | (Ok a, st') => (Ok a, st')
    | (Raised e, st') => if catches e then handler st' else (Raised e, st')
    end.

Fixpoint for_each {A} (l : list A) (body : A -> M unit) : M unit :=
  match l with
  | [] => ret tt
  | x :: rest => bind (body x) (fun _ => for_each rest body)
  end.

(** [for page in pages: body(page)] over a paginator: each page is one
    logged call. *)
Fixpoint for_pager (c : api_call) (pages : pager) (body : response -> M unit) : M unit :=
  match pages with
  | NoMorePages => ret tt
  | PageFault e => bind (emit (Called c (Fault e))) (fun _ => raise e)
  | Page r next =>
      bind (emit (Called c (Returned r))) (fun _ =>
      bind (body r) (fun _ =>
      fun st => for_pager c (next (world st)) body st))
  end.

Definition for_each_page (c : api_call) (body : response -> M unit) : M unit :=
  fun st => for_pager c (paginate P (world st) c) body st.

End Program.

Arguments NoMorePages {W}.
Arguments PageFault {W} e.
Arguments ret {W A} a st.
Arguments raise {W A} e st.
Arguments emit {W} ev st.
Arguments print {W} line st.
Arguments sleep {W} seconds st.
Arguments subscript {W T} key value st.
Arguments item {W T} key field r st.

Declare Scope prog_scope.
Delimit Scope prog_scope with prog.
Notation "x <- m ;; k" := (bind m (fun x => k))
  (at level 61, m at next level, right associativity) : prog_scope.
Notation "' pat <- m ;; k" := (bind m (fun x => match x with pat => k end))
  (at level 61, pat pattern, m at next level, right associativity) : prog_scope.
Notation "m ;; k" := (bind m (fun _ => k))
  (at level 61, right associativity) : prog_scope.
Open Scope prog_scope.

(** The top-level keys the code subscripts. *)
Module Key.
Definition collectionDetails r := match r with CollectionDetails l => Some l | _ => None end.
Definition securityPolicySummaries r := match r with SecurityPolicySummaries l => Some l | _ => None end.
Definition accessPolicySummaries r := match r with AccessPolicySummaries l => Some l | _ => None end.
Definition knowledgeBase r := match r with KnowledgeBase kb => Some kb | _ => None end.
Definition dataSourceSummaries r := match r with DataSourceSummaries l => Some l | _ => None end.
Definition dataSource r := match r with DataSource ds => Some ds | _ => None end.
Definition Contents r := match r with ObjectsPage (Some objs) => Some objs | _ => None end.
Definition AttachedPolicies r := match r with AttachedPolicies l => Some l | _ => None end.
Definition PolicyNames r := match r with PolicyNames l => Some l | _ => None end.
Definition InstanceProfiles r := match r with InstanceProfiles l => Some l | _ => None end.
Definition Versions r := match r with Versions l => Some l | _ => None end.
Definition Configuration r := match r with GetFunctionResponse cfg => Some (FunctionConfiguration cfg) | _ => None end.
Definition Role r := match r with RoleResponse role => Some role | _ => None end.
Definition Policy r := match r with PolicyResponse pol => Some pol | _ => None end.
End Key.

Definition is_ClientError (e : exn) : bool :=
  match e with ClientError _ => true | _ => false end.

(** [except client.exceptions.<Name>]: a [ClientError] with that code. *)
Definition is_code (code : string) (e : exn) : bool :=
  match e with ClientError c => String.eqb c code | _ => false end.

(** ** The deletion handlers ([cleanup_tagged_resources.py]) *)

Section Cleanup.

Variable W : Type.
Variable P : provider W.

Definition delete_collection (arn service resource : string) : M W unit :=
  match String.eqb service "aoss", Py.re_match_group "collection/" resource with
  | true, Some collection_id =>
      print ("Deleting: " ++ arn) ;;
      collections <- (r <- invoke P (BatchGetCollection [collection_id]) ;;
                      item "collectionDetails" Key.collectionDetails r) ;;
      match collections with
      | [collection] =>
          let resource_name := "collection/" ++ cd_name collection in
          for_each ["encryption"; "network"] (fun policy_type =>
            security_policies <- (r <- invoke P (ListSecurityPolicies policy_type [resource_name]) ;;
                                  item "securityPolicySummaries" Key.securityPolicySummaries r) ;;
            for_each security_policies (fun policy =>
              let policy_name := ps_name policy in
              print ("-> Deleting OpenSearchServerless " ++ policy_type ++ " policy: " ++ policy_name) ;;
              call P (DeleteSecurityPolicy policy_name policy_type))) ;;
          access_policies <- (r <- invoke P (ListAccessPolicies "data" [resource_name]) ;;
                              item "accessPolicySummaries" Key.accessPolicySummaries r) ;;
          for_each access_policies (fun policy =>
            let policy_name := ps_name policy in
            print ("-> Deleting OpenSearchServerless data policy: " ++ policy_name) ;;
            call P (DeleteAccessPolicy policy_name "data")) ;;
          print ("-> Deleting OpenSearch Serverless collection: " ++ resource_name) ;;
          call P (DeleteCollection collection_id)
      | _ => ret tt
      end
  | _, _ => ret tt
  end.

Definition delete_guardrail (arn service resource : string) : M W unit :=
  match String.eqb service "bedrock", Py.re_match_group "guardrail/" resource with
  | true, Some guardrail_id =>
      print ("Deleting: " ++ arn) ;;
      print ("-> Deleting guardrail: " ++ guardrail_id) ;;
      call P (DeleteGuardrail arn)
  | _, _ => ret tt
  end.

Definition delete_knowledgebase (arn service resource : string) : M W unit :=
  match String.eqb service "bedrock", Py.re_match_group "knowledge-base/" resource with
  | true, Some kb_id =>
      print ("Deleting: " ++ arn) ;;
      kb <- (r <- invoke P (GetKnowledgeBase kb_id) ;;
             item "knowledgeBase" Key.knowledgeBase r) ;;
      data_sources <- (r <- invoke P (ListDataSources kb_id) ;;
                       item "dataSourceSummaries" Key.dataSourceSummaries r) ;;
      for_each data_sources (fun ds =>
        ds_details <- (r <- invoke P (GetDataSource kb_id (dss_dataSourceId ds)) ;;
                       item "dataSource" Key.dataSource r) ;;
        vector_cfg <- subscript "vectorIngestionConfiguration"
                        (ds_vectorIngestionConfiguration ds_details) ;;
        call P (UpdateDataSource kb_id (dss_dataSourceId ds) (ds_name ds_details)
                (ds_dataSourceConfiguration ds_details) vector_cfg "RETAIN") ;;
        print ("-> Deleting data source: " ++ dss_name ds) ;;
        call P (DeleteDataSource kb_id (dss_dataSourceId ds))) ;;
      print ("-> Deleting knowledge base: " ++ kb_name kb) ;;
      call P (DeleteKnowledgeBase kb_id)
  | _, _ => ret tt
  end.

Definition delete_bucket (arn service resource : string) : M W unit :=
  if String.eqb service "s3" then
    print ("Deleting: " ++ arn) ;;
    let bucket_name := resource in
    print "-> Deleting all contained objects" ;;
    for_each_page P (ListObjectsV2 bucket_name) (fun page =>
      match Key.Contents page with
      | Some contents =>
          let objects := map obj_Key contents in
          call P (DeleteObjects bucket_name objects)
      | None => ret tt
      end) ;;
    print ("-> Deleting S3 bucket: " ++ bucket_name) ;;
    call P (DeleteBucket bucket_name)
  else ret tt.

Definition delete_roles (arn service resource : string) : M W unit :=
  match String.eqb service "iam", Py.re_match_group "role/" resource with
  | true, Some role_name0 =>
      let role_name :=
        if Py.startswith role_name0 "service-role/"
        then Py.remove_all "service-role/" role_name0
        else role_name0 in
      print ("Deleting: " ++ arn) ;;
      attached_policies <- (r <- invoke P (ListAttachedRolePolicies role_name) ;;
                            item "AttachedPolicies" Key.AttachedPolicies r) ;;
      for_each attached_policies (fun policy =>
        print ("-> Detaching managed policy: " ++ ap_PolicyName policy) ;;
        call P (DetachRolePolicy role_name (ap_PolicyArn policy))) ;;
      inline_policies <- (r <- invoke P (ListRolePolicies role_name) ;;
                          item "PolicyNames" Key.PolicyNames r) ;;
      for_each inline_policies (fun policy_name =>
        print ("-> Deleting inline policy: " ++ policy_name) ;;
        call P (DeleteRolePolicy role_name policy_name)) ;;
      try_except
        (instance_profiles <- (r <- invoke P (ListInstanceProfilesForRole role_name) ;;
                               item "InstanceProfiles" Key.InstanceProfiles r) ;;
         for_each instance_profiles (fun profile =>
           print ("-> Removing role from instance profile: " ++ ip_InstanceProfileName profile) ;;
           call P (RemoveRoleFromInstanceProfile (ip_InstanceProfileName profile) role_name)))
        is_ClientError
        (ret tt) ;;
      print ("-> Deleting role: " ++ role_name) ;;
      call P (DeleteRole role_name)
  | _, _ => ret tt
  end.

Definition delete_policy (arn service resource : string) : M W unit :=
  match String.eqb service "iam", Py.re_match_group "policy/" resource with
  | true, Some policy_name =>
      print ("Deleting: " ++ arn) ;;
      versions <- (r <- invoke P (ListPolicyVersions arn) ;;
                   item "Versions" Key.Versions r) ;;
      for_each versions (fun version =>
        if negb (pv_IsDefaultVersion version) then
          print ("-> Deleting IAM policy version: " ++ pv_VersionId version) ;;
          call P (DeletePolicyVersion arn (pv_VersionId version))
        else ret tt) ;;
      print ("-> Deleting IAM policy: " ++ policy_name) ;;
      call P (DeletePolicy arn)
  | _, _ => ret tt
  end.

Definition delete_function (arn service resource : string) : M W unit :=
  match String.eqb service "lambda", Py.re_match_group "function:" resource with
  | true, Some function_name =>
      print ("Deleting: " ++ arn) ;;
      print ("-> Deleting Lambda function: " ++ function_name) ;;
      call P (DeleteFunction function_name)
  | _, _ => ret tt
  end.

Definition delete_table (arn service resource : string) : M W unit :=
  match String.eqb service "dynamodb", Py.re_match_group "table/" resource with
  | true, Some table_name =>
      print ("Deleting: " ++ arn) ;;
      print ("-> Deleting DynamoDB table: " ++ table_name) ;;
      call P (DeleteTable table_name)
  | _, _ => ret tt
  end.

Definition delete_agent (arn service resource : string) : M W unit :=
  match String.eqb service "bedrock", Py.re_match_group "agent/" resource with
  | true, Some agent_id =>
      print ("Deleting: " ++ arn) ;;
      print ("-> Deleting Bedrock Agent: " ++ agent_id) ;;
      call P (DeleteAgent agent_id)
  | _, _ => ret tt
  end.

(** ** The sweep *)

Definition delete_actions : list (action_name * (string -> string -> string -> M W unit)) :=
  [ (Guardrail, delete_guardrail);
    (Collection, delete_collection);
    (KnowledgeBaseAction, delete_knowledgebase);
    (Bucket, delete_bucket);
    (Function, delete_function);
    (Roles, delete_roles);
    (Policy, delete_policy);
    (Table, delete_table);
    (Agent, delete_agent) ].

(** [service, resource = parse_arn(arn)] inside the program. *)
Definition lift {A} (r : result A) : M W A :=
  match r with Ok a => ret a | Raised e => raise e end.

(** The two nested loops over a list of handlers. *)
Definition sweep (actions : list (action_name * (string -> string -> string -> M W unit)))
    (arns : list string) : M W unit :=
  for_each actions (fun action =>
    for_each arns (fun arn =>
      '(service, resource) <- lift (parse_arn arn) ;;
      emit (Entered (fst action) arn) ;;
      snd action arn service resource)).

Definition delete_resources (arns : list string) : M W unit :=
  sweep delete_actions arns.

End Cleanup.

(** ** The create-or-get helpers ([bedrock_agents/agent.py]) *)

(** The documents handed to [json.dumps]. *)
#[local] Unset Elimination Schemes.
Inductive json : Type :=
| JString (s : string)
| JList (l : list json)
| JObject (fields : list (string * json)).
#[local] Set Elimination Schemes.

Section Provisioning.

Variable W : Type.
Variable P : provider W.

(** Module-level values: the region and account of the session, the tags
    of [util.tagging] (as a dictionary and as a Key/Value list), and the
    library function [json.dumps]. *)
Variable region_name account_id : string.
Variable standard_tags standard_tags_kv : list (string * string).
Variable json_dumps : json -> string.

Definition create_lambda (lambda_function_name : string) (lambda_iam_role : response)
    : M W response :=
  zip_content <- package P "lambda_function.py" ;;
  try_except
    (role <- item "Role" Key.Role lambda_iam_role ;;
     invoke P (CreateFunction lambda_function_name "python3.12" 60 (role_Arn role)
                 zip_content "lambda_function.lambda_handler" standard_tags))
    (is_code "ResourceConflictException")
    (print "Lambda function already exists, retrieving it" ;;
     lambda_function <- invoke P (GetFunction lambda_function_name) ;;
     item "Configuration" Key.Configuration lambda_function).

Definition create_lambda_role (agent_name dynamodb_table_name : string) : M W response :=
  let lambda_function_role := agent_name ++ "-lambda-role" in
  let dynamodb_access_policy_name := agent_name ++ "-dynamodb-policy" in
  lambda_iam_role <-
    try_except
      (let assume_role_policy_document :=
         JObject [("Version", JString "2012-10-17");
                  ("Statement", JList [JObject [
                     ("Effect", JString "Allow");
                     ("Principal", JObject [("Service", JString "lambda.amazonaws.com")]);
                     ("Action", JString "sts:AssumeRole")]])] in
       let assume_role_policy_document_json := json_dumps assume_role_policy_document in
       lambda_iam_role <- invoke P (CreateRole lambda_function_role
                                      assume_role_policy_document_json standard_tags_kv) ;;
       sleep 10 ;;
       ret lambda_iam_role)
      (is_code "EntityAlreadyExists")
      (invoke P (GetRole lambda_function_role)) ;;
  call P (AttachRolePolicy lambda_function_role
            "arn:aws:iam::aws:policy/service-role/AWSLambdaBasicExecutionRole") ;;
  let dynamodb_access_policy :=
    JObject [("Version", JString "2012-10-17");
             ("Statement", JList [JObject [
                ("Effect", JString "Allow");
                ("Action", JList [JString "dynamodb:GetItem";
                                  JString "dynamodb:PutItem";
                                  JString "dynamodb:DeleteItem"]);
                ("Resource", JString ("arn:aws:dynamodb:" ++ region_name ++ ":" ++ account_id
                                      ++ ":table/" ++ dynamodb_table_name))]])] in
  let dynamodb_access_policy_json := json_dumps dynamodb_access_policy in
  dynamodb_access_policy <-
    try_except
      (invoke P (CreatePolicy dynamodb_access_policy_name dynamodb_access_policy_json))
      (is_code "EntityAlreadyExists")
      (invoke P (GetPolicy ("arn:aws:iam::" ++ account_id ++ ":policy/"
                            ++ dynamodb_access_policy_name))) ;;
  policy <- item "Policy" Key.Policy dynamodb_access_policy ;;
  call P (AttachRolePolicy lambda_function_role (pol_Arn policy)) ;;
  ret lambda_iam_role.

End Provisioning.

(** ** Runs and what they leave behind *)

Section Runs.

Variable W : Type.

Definition start (w : W) : state W := {| world := w; log := [] |}.

Definition outcome_of {A} (m : M W A) (w : W) : result A := fst (m (start w)).
Definition trace_of {A} (m : M W A) (w : W) : list event := log (snd (m (start w))).
Definition world_after {A} (m : M W A) (w : W) : W := world (snd (m (start w))).

(** A handler fires when its run leaves any event at all: a handler whose
    pattern does not match returns at once. *)
Definition fired {A} (m : M W A) (w : W) : bool :=
  match trace_of m w with [] => false | _ :: _ => true end.

End Runs.

(** The client calls of a trace, in order. *)
Fixpoint calls_of (t : list event) : list api_call :=
  match t with
  | [] => []
  | Called c _ :: rest => c :: calls_of rest
  | _ :: rest => calls_of rest
  end.

(** The trace without what is printed: the client calls with their answers
    (and the pauses and ghost marks). *)
Definition is_printed (ev : event) : bool :=
  match ev with Printed _ => true | _ => false end.

Definition api_events (t : list event) : list event :=
  filter (fun ev => negb (is_printed ev)) t.

(** The handler invocations of a trace, in order. *)
Fixpoint entered (t : list event) : list (action_name * string) :=
  match t with
  | [] => []
  | Entered action arn :: rest => (action, arn) :: entered rest
  | _ :: rest => entered rest
  end.

Definition is_fault (ev : event) : bool :=
  match ev with Called _ (Fault _) => true | _ => false end.

(** No call of the trace was answered by a fault. *)
Definition no_fault (t : list event) : Prop := forallb (fun ev => negb (is_fault ev)) t = true.

(** The calls of the guarded block of [delete_roles], and the faults its
    [except ClientError: pass] swallows. *)
Definition instance_profile_call (c : api_call) : bool :=
  match c with
  | ListInstanceProfilesForRole _ | RemoveRoleFromInstanceProfile _ _ => true
  | _ => false
  end.

Definition swallowed (c : api_call) (e : exn) : bool :=
  instance_profile_call c && is_ClientError e.

(** The nine handler names in the order of [delete_actions]. *)
Definition action_order : list action_name :=
  [Guardrail; Collection; KnowledgeBaseAction; Bucket; Function; Roles; Policy; Table; Agent].

(** ** Two providers to run the programs on *)

(** A small cloud: the names of the resources that exist and of those
    whose deletion is refused. Its resources have nothing attached (no
    policies, no data sources, no objects). A call on a resource that does
    not exist is answered by a not-found fault, except
    [batch_get_collection], which reports the collections it finds. *)
Module Cloud.

Record t : Type := { live : list string; refused : list string }.

Definition mem (k : string) (l : list string) : bool := existsb (String.eqb k) l.

Definition remove (k : string) (l : list string) : list string :=
  filter (fun x => negb (String.eqb k x)) l.

(** The resource a call addresses, and whether the call deletes it. *)
Definition target (c : api_call) : option (string * bool) :=
  match c with
  | DeleteGuardrail k | DeleteCollection k | DeleteKnowledgeBase k | DeleteAgent k
  | DeleteBucket k | DeleteRole k | DeletePolicy k | DeleteFunction k | DeleteTable k =>
      Some (k, true)
  | GetKnowledgeBase k | ListDataSources k | DeleteObjects k _
  | ListAttachedRolePolicies k | ListRolePolicies k | ListInstanceProfilesForRole k
  | ListPolicyVersions k =>
      Some (k, false)
  | _ => None
  end.

Definition answer (c : api_call) : response :=
  match c with
  | GetKnowledgeBase k => KnowledgeBase {| kb_name := k |}
  | ListDataSources _ => DataSourceSummaries []
  | ListSecurityPolicies _ _ => SecurityPolicySummaries []
  | ListAccessPolicies _ _ => AccessPolicySummaries []
  | ListAttachedRolePolicies _ => AttachedPolicies []
  | ListRolePolicies _ => PolicyNames []
  | ListInstanceProfilesForRole _ => InstanceProfiles []
  | ListPolicyVersions _ => Versions [{| pv_VersionId := "v1"; pv_IsDefaultVersion := true |}]
  | _ => NoContent
  end.

Definition respond (w : t) (c : api_call) : outcome * t :=
  match c with
  | BatchGetCollection ids =>
      (Returned (CollectionDetails
                   (map (fun id => {| cd_name := id |})
                        (filter (fun id => mem id (live w)) ids))), w)
  | _ =>
      match target c with
      | Some (k, deletes) =>
          if mem k (live w) then
            if deletes then
              if mem k (refused w) then (Fault (ClientError "AccessDeniedException"), w)
              else (Returned NoContent, {| live := remove k (live w); refused := refused w |})
            else (Returned (answer c), w)
          else (Fault (ClientError "ResourceNotFoundException"), w)
      | None => (Returned (answer c), w)
      end
  end.

Definition paging (w : t) (c : api_call) : pager t :=
  match c with
  | ListObjectsV2 bucket =>
      if mem bucket (live w) then Page (ObjectsPage None) (fun _ => NoMorePages)
      else PageFault (ClientError "NoSuchBucket")
  | _ => NoMorePages
  end.

Definition provider : provider t :=
  {| serve := respond;
     paginate := paging;
     zip_file := fun _ _ => Raised (OtherError "FileNotFoundError") |}.

End Cloud.

(** A scripted provider: the answers to the calls, in the order the calls
    come, and the pages every paginator yields. *)
Module Script.

Record t : Type := { answers : list outcome; pages : list response; archive : string }.

Definition respond (w : t) (c : api_call) : outcome * t :=
  match answers w with
  | o :: rest => (o, {| answers := rest; pages := pages w; archive := archive w |})
  | [] => (Fault (OtherError "EndOfScript"), w)
  end.

Fixpoint pager_of (l : list response) : pager t :=
  match l with
  | [] => NoMorePages
  | r :: rest => Page r (fun _ => pager_of rest)
  end.

Definition provider : provider t :=
  {| serve := respond;
     paginate := fun w _ => pager_of (pages w);
     zip_file := fun w _ => Ok (archive w) |}.

End Script.

(** The example of the specification: a role, a bucket and an agent. *)
Module Scenario.

Definition role_arn := "arn:aws:iam::123456789012:role/my-role".
Definition bucket_arn := "arn:aws:s3:::my-bucket".
Definition agent_arn := "arn:aws:bedrock:us-east-1:123456789012:agent/abc123".
Definition guardrail_arn := "arn:aws:bedrock:us-east-1:123456789012:guardrail/g1".
Definition collection_arn := "arn:aws:aoss:us-east-1:123456789012:collection/c1".

Definition arns : list string := [role_arn; bucket_arn; agent_arn].

(** The three resources exist, and the deletion of the bucket is refused. *)
Definition bucket_refused : Cloud.t :=
  {| Cloud.live := ["my-role"; "my-bucket"; "abc123"]; Cloud.refused := ["my-bucket"] |}.

(** What the sweep leaves before the refused call. *)
Definition before_refusal : list event :=
  Eval vm_compute in
    removelast (log (snd (delete_resources Cloud.provider arns
                            {| world := bucket_refused; log := [] |}))).

(** The three resources exist and nothing is refused. *)
Definition all_three : Cloud.t :=
  {| Cloud.live := ["my-role"; "my-bucket"; "abc123"]; Cloud.refused := [] |}.

(** One guardrail exists. *)
Definition one_guardrail : Cloud.t :=
  {| Cloud.live := [guardrail_arn]; Cloud.refused := [] |}.

(** Nothing exists (any more). *)
Definition nothing_left : Cloud.t := {| Cloud.live := []; Cloud.refused := [] |}.

End Scenario.

(** ** A discipline every program of the sweep follows

    Three facts are carried through every combinator at once: the log only
    grows; the provider's state stays inside any set of states that
    [serve] cannot leave; and a fault is either swallowed by the guarded
    block of [delete_roles] or it is the last event of the run and the
    exception the run ends with. *)

Definition quiet (ev : event) : Prop :=
  match ev with
  | Called c (Fault e) => swallowed c e = true
  | _ => True
  end.

Inductive propagated {A} : result A -> list event -> Prop :=
| all_quiet r t : Forall quiet t -> propagated r t
| fault_last t c e :
    Forall quiet t -> propagated (Raised e) (t ++ [Called c (Fault e)])%list.

(** The handlers leave no ghost mark: those are the sweep's. *)
Definition unmarked (ev : event) : Prop :=
  match ev with Entered _ _ => False | _ => True end.

(** Inside the guarded block of [delete_roles]. *)
Definition instance_profile_only (ev : event) : Prop :=
  match ev with
  | Printed _ => True
  | Called c _ => instance_profile_call c = true
  | _ => False
  end.

Definition anything (ev : event) : Prop := True.

Definition head (s : string) : option ascii :=
  match s with String c _ => Some c | EmptyString => None end.

Section Vocabulary.

Variable W : Type.
Variable Inv : W -> Prop.

Definition disciplined (allowed : event -> Prop) {A} (m : M W A) : Prop :=
  forall st, Inv (world st) ->
    exists ext, log (snd (m st)) = (log st ++ ext)%list
                /\ Inv (world (snd (m st)))
                /\ Forall allowed ext
                /\ propagated (fst (m st)) ext.

Definition handlers_disciplined
    (actions : list (action_name * (string -> string -> string -> M W unit))) : Prop :=
  Forall (fun action => forall arn service resource,
            disciplined unmarked (snd action arn service resource)) actions.

(** [marks m expected]: the handler invocations of a run of [m] are a
    prefix of [expected], and all of it when the run ends normally. *)
Definition marks {A} (m : M W A) (expected : list (action_name * string)) : Prop :=
  forall st, Inv (world st) ->
    exists ext rest,
      log (snd (m st)) = (log st ++ ext)%list
      /\ Inv (world (snd (m st)))
      /\ (entered ext ++ rest)%list = expected
      /\ match fst (m st) with Ok _ => rest = [] | Raised _ => True end.

End Vocabulary.

(** ** Scripts for the handlers with sub-resources *)

(** A collection with one policy of each kind, every call answered. *)
Definition books_collection : Script.t :=
  {| Script.answers :=
       [Returned (CollectionDetails [{| cd_name := "books" |}]);
        Returned (SecurityPolicySummaries [{| ps_name := "books-encryption" |}]);
        Returned NoContent;
        Returned (SecurityPolicySummaries [{| ps_name := "books-network" |}]);
        Returned NoContent;
        Returned (AccessPolicySummaries [{| ps_name := "books-access" |}]);
        Returned NoContent;
        Returned NoContent];
     Script.pages := [];
     Script.archive := "" |}.

Definition before_books_deletion : list event :=
  Eval vm_compute in
    removelast (log (snd (delete_collection Script.provider
                            "arn:aws:aoss:us-east-1:123456789012:collection/c1"
                            "aoss" "collection/c1"
                            {| world := books_collection; log := [] |}))).

(** ** Monitors for the order of calls *)

(** The deletions of the policies of a collection. *)
Definition policy_deletion (c : api_call) : bool :=
  match c with
  | DeleteSecurityPolicy _ _ | DeleteAccessPolicy _ _ => true
  | _ => false
  end.

(** The calls made for one data source of a knowledge base. *)
Definition data_source_call (c : api_call) : bool :=
  match c with
  | GetDataSource _ _ | UpdateDataSource _ _ _ _ _ _ | DeleteDataSource _ _ => true
  | _ => false
  end.

(** [retains prev ev]: if [ev] is the deletion of a data source, the event
    before it, [prev], is the successful update of that data source to
    the deletion policy ["RETAIN"]. *)
Definition retains (prev ev : event) : bool :=
  match ev with
  | Called (DeleteDataSource kb ds) _ =>
      match prev with
      | Called (UpdateDataSource kb' ds' _ _ _ policy) (Returned _) =>
          String.eqb kb kb' && String.eqb ds ds' && String.eqb policy "RETAIN"
      | _ => false
      end
  | _ => true
  end.

Fixpoint retain_checked (prev : event) (t : list event) : bool :=
  match t with
  | [] => true
  | ev :: rest => retains prev ev && retain_checked ev rest
  end.

(** The calls made for the objects of a bucket. *)
Definition object_call (c : api_call) : bool :=
  match c with
  | ListObjectsV2 _ | DeleteObjects _ _ => true
  | _ => false
  end.

(** The calls one page of a bucket listing gives rise to. *)
Definition page_calls (bucket : string) (page : response) : list api_call :=
  ListObjectsV2 bucket
  :: match Key.Contents page with
     | Some contents => [DeleteObjects bucket (map obj_Key contents)]
     | None => []
     end.

(** The listing pages a trace was answered with. *)
Fixpoint pages_listed (t : list event) : list response :=
  match t with
  | [] => []
  | Called (ListObjectsV2 _) (Returned page) :: rest => page :: pages_listed rest
  | _ :: rest => pages_listed rest
  end.

(** [listed] are the pages the paginator delivers for the bucket from the
    provider state [w], all of them up to the end of the listing: each next
    page is asked of the provider in the state it is in once the objects of
    the page before are deleted. *)
Fixpoint exhausted {W} (P : provider W) (bucket : string) (pages : pager W) (w : W)
    (listed : list response) : Prop :=
  match pages, listed with
  | NoMorePages, [] => True
  | Page page next, first :: rest =>
      first = page
      /\ let w' := match Key.Contents page with
                   | Some contents =>
                       snd (serve P w (DeleteObjects bucket (map obj_Key contents)))
                   | None => w
                   end in
         exhausted P bucket (next w') w' rest
  | _, _ => False
  end.

(** A knowledge base with two data sources, every call answered. *)
Definition docs_knowledge_base : Script.t :=
  {| Script.answers :=
       [Returned (KnowledgeBase {| kb_name := "docs" |});
        Returned (DataSourceSummaries
                    [{| dss_dataSourceId := "ds1"; dss_name := "manuals" |};
                     {| dss_dataSourceId := "ds2"; dss_name := "faq" |}]);
        Returned (DataSource {| ds_name := "manuals";
                                ds_dataSourceConfiguration := "s3-manuals";
                                ds_vectorIngestionConfiguration := Some "fixed-size" |});
        Returned NoContent;
        Returned NoContent;
        Returned (DataSource {| ds_name := "faq";
                                ds_dataSourceConfiguration := "s3-faq";
                                ds_vectorIngestionConfiguration := Some "fixed-size" |});
        Returned NoContent;
        Returned NoContent;
        Returned NoContent];
     Script.pages := [];
     Script.archive := "" |}.

Definition docs_arn := "arn:aws:bedrock:us-east-1:123456789012:knowledge-base/kb1".

Definition docs_trace : list event :=
  Eval vm_compute in
    log (snd (delete_knowledgebase Script.provider docs_arn "bedrock" "knowledge-base/kb1"
                {| world := docs_knowledge_base; log := [] |})).

(** A bucket whose listing comes in two pages of objects. *)
Definition two_page_bucket : Script.t :=
  {| Script.answers := [Returned NoContent; Returned NoContent; Returned NoContent];
     Script.pages :=
       [ObjectsPage (Some [{| obj_Key := "a.txt" |}; {| obj_Key := "b.txt" |}]);
        ObjectsPage (Some [{| obj_Key := "c.txt" |}])];
     Script.archive := "" |}.

Definition before_bucket_deletion : list event :=
  Eval vm_compute in
    removelast (log (snd (delete_bucket Script.provider "arn:aws:s3:::my-bucket" "s3" "my-bucket"
                            {| world := two_page_bucket; log := [] |}))).

(** ** Create-or-get *)

(** The resource is obtained in state [w], leaving the provider in [w']:
    either [create] is answered by [created], or it is refused with the
    error [code] because the resource exists and [get] is then answered by
    [existing]. *)
Definition obtains {W} (P : provider W) (w : W) (create : api_call) (code : string)
    (get : api_call) (created existing : response) (w' : W) : Prop :=
  serve P w create = (Returned created, w')
  \/ exists w1, serve P w create = (Fault (ClientError code), w1)
                /\ serve P w1 get = (Returned existing, w').

(** The function, the role and the policy exist already: each creation is
    refused, each fetch answered. *)
Definition all_exist : Script.t :=
  {| Script.answers :=
       [Fault (ClientError "EntityAlreadyExists");
        Returned (RoleResponse {| role_RoleName := "booking-lambda-role";
                                  role_Arn := "arn:aws:iam::123456789012:role/booking-lambda-role" |});
        Returned NoContent;
        Fault (ClientError "EntityAlreadyExists");
        Returned (PolicyResponse {| pol_PolicyName := "booking-dynamodb-policy";
                                    pol_Arn := "arn:aws:iam::123456789012:policy/booking-dynamodb-policy" |});
        Returned NoContent;
        Fault (ClientError "ResourceConflictException");
        Returned (GetFunctionResponse
                    {| fc_FunctionName := "booking";
                       fc_FunctionArn := "arn:aws:lambda:us-east-1:123456789012:function:booking" |})];
     Script.pages := [];
     Script.archive := "zip" |}.

(** The script after its first [n] answers. *)
Definition later (n : nat) (w : Script.t) : Script.t :=
  {| Script.answers := skipn n (Script.answers w);
     Script.pages := Script.pages w;
     Script.archive := Script.archive w |}.

(** ** The match conditions of the handlers *)

(** The service a handler answers to and the literal its regular expression
    starts with (none for the bucket handler, which looks at the service
    only). *)
Definition pattern_of (action : action_name) : string * option string :=
  match action with
  | Guardrail => ("bedrock", Some "guardrail/")
  | Collection => ("aoss", Some "collection/")
  | KnowledgeBaseAction => ("bedrock", Some "knowledge-base/")
  | Bucket => ("s3", None)
  | Function => ("lambda", Some "function:")
  | Roles => ("iam", Some "role/")
  | Policy => ("iam", Some "policy/")
  | Table => ("dynamodb", Some "table/")
  | Agent => ("bedrock", Some "agent/")
  end.

Definition matches (action : action_name) (service resource : string) : bool :=
  String.eqb service (fst (pattern_of action))
  && match snd (pattern_of action) with
     | Some literal =>
         match Py.re_match_group literal resource with Some _ => true | None => false end
     | None => true
     end.

(** ** Counting separators *)

(** How many times the character [c] occurs in [s]. *)
Fixpoint occurrences (c : ascii) (s : string) : nat :=
  match s with
  | EmptyString => 0
  | String a rest => (if Ascii.eqb a c then 1 else 0) + occurrences c rest
  end.

(** ** Role deletion *)

(** The calls that take a policy off a role. *)
Definition policy_removal (c : api_call) : bool :=
  match c with
  | DetachRolePolicy _ _ | DeleteRolePolicy _ _ => true
  | _ => false
  end.

(** A [ClientError] answered to a call of the guarded block of
    [delete_roles]. *)
Definition instance_profile_refusal (ev : event) : bool :=
  match ev with
  | Called c (Fault (ClientError _)) => instance_profile_call c
  | _ => false
  end.

(** A role with one managed policy, one inline policy and one instance
    profile, every call answered. *)
Definition busy_role : Script.t :=
  {| Script.answers :=
       [Returned (AttachedPolicies
                    [{| ap_PolicyName := "ReadOnly";
                        ap_PolicyArn := "arn:aws:iam::aws:policy/ReadOnlyAccess" |}]);
        Returned NoContent;
        Returned (PolicyNames ["inline-logs"]);
        Returned NoContent;
        Returned (InstanceProfiles [{| ip_InstanceProfileName := "web" |}]);
        Returned NoContent;
        Returned NoContent];
     Script.pages := [];
     Script.archive := "" |}.

(** A role with nothing attached whose instance profiles may not be
    listed. *)
Definition profiles_denied : Script.t :=
  {| Script.answers :=
       [Returned (AttachedPolicies []);
        Returned (PolicyNames []);
        Fault (ClientError "AccessDenied");
        Returned NoContent];
     Script.pages := [];
     Script.archive := "" |}.

(** What [delete_roles] leaves on [busy_role] before it deletes the role. *)
Definition before_role_deletion : list event :=
  Eval vm_compute in
    removelast (log (snd (delete_roles Script.provider
                            "arn:aws:iam::123456789012:role/my-role" "iam" "role/my-role"
                            {| world := busy_role; log := [] |}))).

(** ** Policy deletion *)

(** The deletion of a policy version. *)
Definition version_deletion (c : api_call) : bool :=
  match c with DeletePolicyVersion _ _ => true | _ => false end.

(** A policy with three versions, the second one the default. *)
Definition versioned_policy : Script.t :=
  {| Script.answers :=
       [Returned (Versions [{| pv_VersionId := "v3"; pv_IsDefaultVersion := false |};
                            {| pv_VersionId := "v2"; pv_IsDefaultVersion := true |};
                            {| pv_VersionId := "v1"; pv_IsDefaultVersion := false |}]);
        Returned NoContent;
        Returned NoContent;
        Returned NoContent];
     Script.pages := [];
     Script.archive := "" |}.

(** What [delete_policy] leaves on [versioned_policy] before it deletes
    the policy. *)
Definition before_policy_deletion : list event :=
  Eval vm_compute in
    removelast (log (snd (delete_policy Script.provider
                            "arn:aws:iam::123456789012:policy/logs" "iam" "policy/logs"
                            {| world := versioned_policy; log := [] |}))).

(** ** Role and policy teardown of the agent notebook ([agent.py]) *)

(** [try: m except <catches> as e: handler(e)]. *)
Definition try_catch {W A} (m : M W A) (catches : exn -> bool) (handler : exn -> M W A)
    : M W A :=
  fun st =>
    match m st with
    | (Ok a, st') => (Ok a, st')
    | (Raised e, st') => if catches e then handler e st' else (Raised e, st')
    end.

(** [except Exception]: every exception of the model is one. *)
Definition is_Exception (e : exn) : bool := true.

Section AgentTeardown.

Variable W : Type.
Variable P : provider W.

(** The account of the session, and what [print(e)] writes for an
    exception [e]. *)
Variable account_id : string.
Variable exn_text : exn -> string.

Definition delete_role_with_all_policies (role_name : string) : M W unit :=
  try_except
    (attached_policies <- invoke P (ListAttachedRolePolicies role_name) ;;
     policies <- item "AttachedPolicies" Key.AttachedPolicies attached_policies ;;
     for_each policies (fun policy =>
       let policy_arn := ap_PolicyArn policy in
       call P (DetachRolePolicy role_name policy_arn) ;;
       versions <- invoke P (ListPolicyVersions policy_arn) ;;
       versions <- item "Versions" Key.Versions versions ;;
       for_each versions (fun version =>
         if negb (pv_IsDefaultVersion version) then
           call P (DeletePolicyVersion policy_arn (pv_VersionId version))
         else ret tt) ;;
       call P (DeletePolicy policy_arn) ;;
       let policy_name := ap_PolicyName policy in
       print ("Successfully deleted policy: " ++ policy_name)) ;;
     inline_policies <- invoke P (ListRolePolicies role_name) ;;
     names <- item "PolicyNames" Key.PolicyNames inline_policies ;;
     for_each names (fun policy_name =>
       call P (DeleteRolePolicy role_name policy_name) ;;
       print ("Successfully deleted policy: " ++ policy_name)) ;;
     call P (DeleteRole role_name) ;;
     print ("Successfully deleted role: " ++ role_name))
    (is_code "NoSuchEntity")
    (ret tt).

Definition delete_agent_roles_and_policies (agent_name kb_policy_name : string) : M W unit :=
  let agent_bedrock_allow_policy_name := agent_name ++ "-ba" in
  let agent_role_name := "AmazonBedrockExecutionRoleForAgents_" ++ agent_name in
  let dynamodb_access_policy_name := agent_name ++ "-dynamodb-policy" in
  let lambda_function_role := agent_name ++ "-lambda-role" in
  for_each [agent_bedrock_allow_policy_name; kb_policy_name] (fun policy =>
    try_catch
      (call P (DetachRolePolicy agent_role_name
                 ("arn:aws:iam::" ++ account_id ++ ":policy/" ++ policy)))
      is_Exception
      (fun e =>
         print ("Could not detach " ++ policy ++ " from " ++ agent_role_name) ;;
         print (exn_text e))) ;;
  for_each [dynamodb_access_policy_name] (fun policy =>
    try_catch
      (call P (DetachRolePolicy lambda_function_role
                 ("arn:aws:iam::" ++ account_id ++ ":policy/" ++ policy)))
      is_Exception
      (fun e =>
         print ("Could not detach " ++ policy ++ " from " ++ lambda_function_role) ;;
         print (exn_text e))) ;;
  try_catch
    (call P (DetachRolePolicy lambda_function_role
               "arn:aws:iam::aws:policy/service-role/AWSLambdaBasicExecutionRole"))
    is_Exception
    (fun e =>
       print ("Could not detach AWSLambdaBasicExecutionRole from " ++ lambda_function_role) ;;
       print (exn_text e)) ;;
  for_each [agent_role_name; lambda_function_role] (fun role_name =>
    try_catch
      (call P (DeleteRole role_name))
      is_Exception
      (fun e =>
         print ("Could not delete role " ++ role_name) ;;
         print (exn_text e))) ;;
  for_each [agent_bedrock_allow_policy_name; kb_policy_name; dynamodb_access_policy_name]
    (fun policy =>
       try_catch
         (call P (DeletePolicy ("arn:aws:iam::" ++ account_id ++ ":policy/" ++ policy)))
         is_Exception
         (fun e =>
            print ("Could not delete policy " ++ policy) ;;
            print (exn_text e))).

End AgentTeardown.

(** The calls [delete_role_with_all_policies] makes on the policies of a
    role, and all the calls it makes. *)
Definition policy_teardown_call (c : api_call) : bool :=
  match c with
  | DetachRolePolicy _ _ | ListPolicyVersions _ | DeletePolicyVersion _ _
  | DeletePolicy _ | DeleteRolePolicy _ _ => true
  | _ => false
  end.

Definition role_teardown_call (c : api_call) : bool :=
  match c with
  | ListAttachedRolePolicies _ | ListRolePolicies _ | DeleteRole _ => true
  | _ => policy_teardown_call c
  end.

(** A trace whose calls are all of one kind (and that holds no ghost
    mark). *)
Definition only (kind : api_call -> bool) (ev : event) : Prop :=
  match ev with
  | Called c _ => kind c = true
  | Entered _ _ => False
  | _ => True
  end.

(** A role with one managed policy of two versions and one inline policy,
    every call answered. *)
Definition managed_role : Script.t :=
  {| Script.answers :=
       [Returned (AttachedPolicies
                    [{| ap_PolicyName := "booking-ba";
                        ap_PolicyArn := "arn:aws:iam::123456789012:policy/booking-ba" |}]);
        Returned NoContent;
        Returned (Versions [{| pv_VersionId := "v2"; pv_IsDefaultVersion := true |};
                            {| pv_VersionId := "v1"; pv_IsDefaultVersion := false |}]);
        Returned NoContent;
        Returned NoContent;
        Returned (PolicyNames ["inline-logs"]);
        Returned NoContent;
        Returned NoContent];
     Script.pages := [];
     Script.archive := "" |}.

Definition before_managed_role_deletion : list event :=
  Eval vm_compute in
    firstn 9 (log (snd (delete_role_with_all_policies Script.provider
                          "booking-role" {| world := managed_role; log := [] |}))).

(** The same role, whose managed policy is gone when it is to be
    detached. *)
Definition policy_gone : Script.t :=
  {| Script.answers :=
       [Returned (AttachedPolicies
                    [{| ap_PolicyName := "booking-ba";
                        ap_PolicyArn := "arn:aws:iam::123456789012:policy/booking-ba" |}]);
        Fault (ClientError "NoSuchEntity")];
     Script.pages := [];
     Script.archive := "" |}.

(** A session in which every call is refused. *)
Definition all_refused : Script.t :=
  {| Script.answers := repeat (Fault (ClientError "AccessDenied")) 9;
     Script.pages := [];
     Script.archive := "" |}.

(** The deletion of a role. *)
Definition role_deletion (ev : event) : bool :=
  match ev with Called (DeleteRole _) _ => true | _ => false end.

(** What a guarded call of [delete_agent_roles_and_policies] leaves: the
    call and, when it is refused, the line that says so and the text of
    the exception. *)
Definition reported (exn_text : exn -> string) (c : api_call) (o : outcome) (line : string)
    : list event :=
  Called c o :: match o with
                | Returned _ => []
                | Fault e => [Printed line; Printed (exn_text e)]
                end.


(** Every refused call of the trace is followed at once by two printed
    lines, the second one the text of the exception. *)
Definition faults_reported (exn_text : exn -> string) (t : list event) : Prop :=
  forall before c e after,
    t = (before ++ Called c (Fault e) :: after)%list ->
    exists line rest, after = Printed line :: Printed (exn_text e) :: rest.

(** [m] ends normally whatever the provider answers, makes the calls
    [calls] in that order, and reports every refused call. *)
Definition always_reports {W} (exn_text : exn -> string) (m : M W unit)
    (calls : list api_call) : Prop :=
  forall st, exists ext,
    fst (m st) = Ok tt
    /\ log (snd (m st)) = (log st ++ ext)%list
    /\ calls_of ext = calls
    /\ faults_reported exn_text ext.

(** ** Discovery of the tagged resources ([get_tagged_resources]) *)

(** The parts of the responses the discovery reads. *)
Record tag := { tag_Key : string; tag_Value : string }.
Record tag_mapping := { rtm_ResourceARN : string }.

Section Discovery.

Variable W : Type.

(** What iterating over [paginator.paginate(...)] yields: the pages, one at
    a time, each asked of the provider in the state it has then; the
    iteration ends after the last page or with an exception. *)
Inductive listing (A : Type) : Type :=
| NoMore
| Broken (e : exn)
| Next (page : A) (rest : W -> listing A).

(** The three operations of the discovery. A page is the value under the
    key the code subscripts (["ResourceTagMappingList"], ["Roles"]),
    [None] when the page has no such key; likewise for the ["Tags"] of
    [list_role_tags], which is a call and may change the provider's
    state. *)
Record tagging : Type := {
  get_resources : W -> string -> string -> listing (option (list tag_mapping));
  list_roles : W -> listing (option (list iam_role));
  list_role_tags : W -> string -> result (option (list tag)) * W }.

Variable T : tagging.

(** What [print] writes for an exception in an f-string. *)
Variable exn_text : exn -> string.

(** [any(tag["Key"] == name and tag["Value"] == value for tag in tags)]. *)
Definition has_tag (name value : string) (tags : list tag) : bool :=
  existsb (fun tag => String.eqb (tag_Key tag) name && String.eqb (tag_Value tag) value) tags.

(** The first loop: [resources] is extended page by page; what was
    gathered stays when the iteration raises. *)
Fixpoint tagged_pages (pages : listing (option (list tag_mapping)))
    (resources : list string) (w : W) : result unit * list string :=
  match pages with
  | NoMore _ => (Ok tt, resources)
  | Broken _ e => (Raised e, resources)
  | Next None _ => (Raised (KeyError "ResourceTagMappingList"), resources)
  | Next (Some mapping_list) rest =>
      tagged_pages (rest w) (resources ++ map rtm_ResourceARN mapping_list)%list w
  end.

(** The loop over the roles of one page. *)
Fixpoint role_tags (name value : string) (roles : list iam_role)
    (resources : list string) (w : W) : result unit * list string * W :=
  match roles with
  | [] => (Ok tt, resources, w)
  | role :: more =>
      match list_role_tags T w (role_RoleName role) with
      | (Raised e, w') => (Raised e, resources, w')
      | (Ok None, w') => (Raised (KeyError "Tags"), resources, w')
      | (Ok (Some tags), w') =>
          role_tags name value more
            (if has_tag name value tags then (resources ++ [role_Arn role])%list
             else resources) w'
      end
  end.

(** The second loop, over the pages of roles. *)
Fixpoint role_pages (name value : string) (pages : listing (option (list iam_role)))
    (resources : list string) (w : W) : result unit * list string * W :=
  match pages with
  | NoMore _ => (Ok tt, resources, w)
  | Broken _ e => (Raised e, resources, w)
  | Next None _ => (Raised (KeyError "Roles"), resources, w)
  | Next (Some roles) rest =>
      match role_tags name value roles resources w with
      | (Ok _, resources', w') => role_pages name value (rest w') resources' w'
      | (Raised e, resources', w') => (Raised e, resources', w')
      end
  end.

(** [get_tagged_resources]: the two guarded loops over the one list
    [resources]. *)
Definition get_tagged_resources (name value : string) : M W (list string) :=
  fun st =>
    let roles (resources : list string) (st : state W) : result (list string) * state W :=
      match role_pages name value (list_roles T (world st)) resources (world st) with
      | (Ok _, resources, w') => (Ok resources, {| world := w'; log := log st |})
      | (Raised e, resources, w') =>
          if is_ClientError e
          then (Ok resources,
                {| world := w';
                   log := (log st ++ [Printed ("Error listing roles: " ++ exn_text e)])%list |})
          else (Raised e, {| world := w'; log := log st |})
      end in
    match tagged_pages (get_resources T (world st) name value) [] (world st) with
    | (Ok _, resources) => roles resources st
    | (Raised e, resources) =>
        if is_ClientError e
        then roles resources
               {| world := world st;
                  log := (log st
                          ++ [Printed ("Error finding tagged resources: " ++ exn_text e)])%list |}
        else (Raised e, st)
    end.

(** The identifiers of the pages that arrive before the listing ends or
    breaks. *)
Fixpoint listed_arns (pages : listing (option (list tag_mapping))) (w : W) : list string :=
  match pages with
  | Next (Some mapping_list) rest =>
      (map rtm_ResourceARN mapping_list ++ listed_arns (rest w) w)%list
  | _ => []
  end.

(** [arn] is the identifier of a role for which [list_role_tags] answers,
    in some state of the provider, tags that hold the pair. *)
Definition tagged_role (name value arn : string) : Prop :=
  exists role w tags,
    role_Arn role = arn
    /\ fst (list_role_tags T w (role_RoleName role)) = Ok (Some tags)
    /\ has_tag name value tags = true.

End Discovery.

Arguments NoMore {W A}.
Arguments Broken {W A} e.
Arguments Next {W A} page rest.

(** A discovery session: the tagging service lists a bucket and then
    refuses the next page; of the two roles only the first carries the
    tag. *)
Definition throttled_session : tagging unit :=
  {| get_resources := fun _ _ _ =>
       Next (Some [{| rtm_ResourceARN := "arn:aws:s3:::my-bucket" |}])
            (fun _ => Broken (ClientError "ThrottlingException"));
     list_roles := fun _ =>
       Next (Some [{| role_RoleName := "my-role";
                      role_Arn := "arn:aws:iam::123456789012:role/my-role" |};
                   {| role_RoleName := "other";
                      role_Arn := "arn:aws:iam::123456789012:role/other" |}])
            (fun _ => NoMore);
     list_role_tags := fun w role_name =>
       (Ok (Some (if String.eqb role_name "my-role"
                  then [{| tag_Key := "project"; tag_Value := "demo" |}]
                  else [{| tag_Key := "project"; tag_Value := "other" |}])), w) |}.

(** * Properties *)

Open Scope list_scope.

(** ** Identifier classification *)

Lemma split_length (sep : ascii) (s : string) : 1 <= length (Py.split sep s).
Proof.
  induction s as [|c s IH]; simpl; [lia|].
  destruct (Ascii.eqb c sep); simpl; [lia|].
  destruct (Py.split sep s); simpl in *; lia.
Qed.

Lemma skipn_short {A} (n : nat) (l : list A) : length l <= n -> skipn n l = [].
Proof.
  revert l; induction n as [|n IH]; intros [|x l] H; simpl in *; auto; try lia.
  apply IH; lia.
Qed.

Example parse_arn_function :
  parse_arn "arn:aws:lambda:us-east-1:123456789012:function:booking"
  = Ok ("lambda", "function:booking").
Proof. reflexivity. Qed.

Example parse_arn_bucket :
  parse_arn "arn:aws:s3:::my-bucket" = Ok ("s3", "my-bucket").
Proof. reflexivity. Qed.

Example re_match_group_stops_at_newline :
  Py.re_match_group "role/" ("role/a" ++ String Py.newline "b")%string = Some "a".
Proof. reflexivity. Qed.

Example re_match_group_needs_a_character :
  Py.re_match_group "role/" "role/" = None.
Proof. reflexivity. Qed.

Example remove_all_every_occurrence :
  Py.remove_all "service-role/" "service-role/x/service-role/y" = "x/y".
Proof. reflexivity. Qed.

(** C4 (as the code has it): an identifier with fewer than six segments is
    not rejected. With three to five segments [parse_arn] returns the third
    segment as the service and the empty string as the resource; with fewer
    than three segments it raises [IndexError]. *)
Theorem parse_arn_short_identifier (arn : string) :
  length (Py.split ":" arn) < 6 ->
  (length (Py.split ":" arn) < 3 -> parse_arn arn = Raised IndexError) /\
  (3 <= length (Py.split ":" arn) ->
   exists service, nth_error (Py.split ":" arn) 2 = Some service
                   /\ parse_arn arn = Ok (service, "")).
Proof.
  intros Hshort. unfold parse_arn. split; intros Hlen.
  - destruct (nth_error (Py.split ":" arn) 2) eqn:E; [|reflexivity].
    assert (2 < length (Py.split ":" arn)) by (apply nth_error_Some; congruence). lia.
  - destruct (nth_error (Py.split ":" arn) 2) as [service|] eqn:E.
    + exists service. split; [reflexivity|].
      rewrite skipn_short by lia. reflexivity.
    + apply nth_error_None in E. lia.
Qed.

Lemma parse_arn_short_identifier_witness :
  length (Py.split ":" "arn:aws:iam") < 6
  /\ (length (Py.split ":" "arn:aws:iam") < 3 -> parse_arn "arn:aws:iam" = Raised IndexError)
  /\ (3 <= length (Py.split ":" "arn:aws:iam") ->
      exists service, nth_error (Py.split ":" "arn:aws:iam") 2 = Some service
                      /\ parse_arn "arn:aws:iam" = Ok (service, "")).
Proof.
  split; [simpl; lia | apply (@parse_arn_short_identifier "arn:aws:iam"); simpl; lia].
Defined.

(** C4 fails as stated: a three-segment identifier is parsed without any
    flag, as service [s3] with an empty bucket name, and a two-segment one
    raises [IndexError]. *)
Lemma parse_arn_accepts_short_identifier :
  length (Py.split ":" "arn:aws:s3") < 6
  /\ parse_arn "arn:aws:s3" = Ok ("s3", "")
  /\ length (Py.split ":" "arn:aws") < 6
  /\ parse_arn "arn:aws" = Raised IndexError.
Proof. repeat split; simpl; lia. Qed.

(** ** The discipline through the combinators *)

Section Discipline.

Variable W : Type.
Variable P : provider W.
Variable Inv : W -> Prop.
Hypothesis Inv_serve : forall w c, Inv w -> Inv (snd (serve P w c)).

Lemma propagated_ok {A} (a : A) t : propagated (Ok a) t -> Forall quiet t.
Proof. inversion 1; assumption. Qed.

Lemma propagated_raised {A B} e t : propagated (@Raised A e) t -> propagated (@Raised B e) t.
Proof.
  inversion 1; subst.
  - now apply all_quiet.
  - now apply fault_last.
Qed.

Lemma propagated_app {A} (r : result A) t1 t2 :
  Forall quiet t1 -> propagated r t2 -> propagated r (t1 ++ t2).
Proof.
  intros H1 H2. destruct H2 as [r t2 H2 | t2 c e H2].
  - apply all_quiet. apply Forall_app; auto.
  - rewrite app_assoc. apply fault_last. apply Forall_app; auto.
Qed.

Variable allowed : event -> Prop.

Lemma disciplined_ret {A} (a : A) : disciplined Inv allowed (ret a).
Proof.
  intros st HI. exists []. simpl. rewrite app_nil_r.
  repeat split; auto. apply all_quiet; constructor.
Qed.

Lemma disciplined_raise {A} e : disciplined Inv allowed (@raise W A e).
Proof.
  intros st HI. exists []. simpl. rewrite app_nil_r.
  repeat split; auto. apply all_quiet; constructor.
Qed.

Lemma disciplined_lift {A} (r : result A) : disciplined Inv allowed (@lift W A r).
Proof. destruct r; [apply disciplined_ret | apply disciplined_raise]. Qed.

Lemma disciplined_subscript {T} key (v : option T) : disciplined Inv allowed (subscript key v).
Proof. destruct v; [apply disciplined_ret | apply disciplined_raise]. Qed.

Lemma disciplined_item {T} key (field : response -> option T) r :
  disciplined Inv allowed (item key field r).
Proof. apply disciplined_subscript. Qed.

Lemma disciplined_package path : disciplined Inv allowed (package P path).
Proof.
  intros st HI. exists []. unfold package. simpl. rewrite app_nil_r.
  repeat split; auto. apply all_quiet; constructor.
Qed.

Lemma disciplined_emit ev : allowed ev -> quiet ev -> disciplined Inv allowed (emit ev).
Proof.
  intros Ha Hq st HI. exists [ev]. simpl.
  repeat split; auto. apply all_quiet; auto.
Qed.

Lemma disciplined_print line : allowed (Printed line) -> disciplined Inv allowed (print line).
Proof. intros; apply disciplined_emit; simpl; auto. Qed.

Lemma disciplined_sleep n : allowed (Slept n) -> disciplined Inv allowed (sleep n).
Proof. intros; apply disciplined_emit; simpl; auto. Qed.

Lemma disciplined_invoke c : (forall o, allowed (Called c o)) -> disciplined Inv allowed (invoke P c).
Proof.
  intros Ha st HI. unfold invoke.
  pose proof (Inv_serve c HI) as HI'.
  destruct (serve P (world st) c) as [o w'] eqn:E. simpl in HI'.
  exists [Called c o]. destruct o as [r|e]; simpl; repeat split; auto.
  - apply all_quiet. repeat constructor.
  - apply (fault_last(A:=response) (t:=[])). constructor.
Qed.

Lemma disciplined_bind {A B} (m : M W A) (k : A -> M W B) :
  disciplined Inv allowed m -> (forall a, disciplined Inv allowed (k a)) ->
  disciplined Inv allowed (bind m k).
Proof.
  intros Hm Hk st HI. unfold bind.
  destruct (Hm st HI) as (ext1 & Hlog1 & HI1 & Ha1 & Hp1).
  destruct (m st) as [[a|e] st1]; simpl in *.
  - destruct (Hk a st1 HI1) as (ext2 & Hlog2 & HI2 & Ha2 & Hp2).
    exists (ext1 ++ ext2). rewrite Hlog2, Hlog1, app_assoc.
    repeat split; auto.
    + apply Forall_app; auto.
    + apply propagated_app; auto. eapply propagated_ok; eauto.
  - exists ext1. repeat split; auto. eapply propagated_raised; eauto.
Qed.

Lemma disciplined_call c : (forall o, allowed (Called c o)) -> disciplined Inv allowed (call P c).
Proof.
  intros. apply disciplined_bind; [now apply disciplined_invoke | intros; apply disciplined_ret].
Qed.

Lemma disciplined_for_each {A} (l : list A) (body : A -> M W unit) :
  (forall x, disciplined Inv allowed (body x)) -> disciplined Inv allowed (for_each l body).
Proof.
  intros Hb. induction l as [|x l IH]; simpl.
  - apply disciplined_ret.
  - apply disciplined_bind; auto.
Qed.

Lemma disciplined_for_pager c pages (body : response -> M W unit) :
  (forall o, allowed (Called c o)) ->
  (forall r, disciplined Inv allowed (body r)) ->
  disciplined Inv allowed (for_pager c pages body).
Proof.
  intros Ha Hb. induction pages as [|e|r next IH]; simpl.
  - apply disciplined_ret.
  - intros st HI. exists [Called c (Fault e)]. simpl. repeat split; auto.
    apply (fault_last(A:=unit) (t:=[])). constructor.
  - apply disciplined_bind; [apply disciplined_emit; simpl; auto|]. intros _.
    apply disciplined_bind; [apply Hb|]. intros _.
    intros st HI. apply IH; assumption.
Qed.

Lemma disciplined_for_each_page c (body : response -> M W unit) :
  (forall o, allowed (Called c o)) ->
  (forall r, disciplined Inv allowed (body r)) ->
  disciplined Inv allowed (for_each_page P c body).
Proof.
  intros Ha Hb st HI. unfold for_each_page. now apply disciplined_for_pager.
Qed.

(** [try ... except]: inside the block only [inner] events occur, and
    every fault the clause catches is one the discipline counts as
    swallowed. *)
Lemma disciplined_try {A} (inner : event -> Prop) (m handler : M W A) catches :
  (forall ev, inner ev -> allowed ev) ->
  (forall c e, inner (Called c (Fault e)) -> catches e = true -> swallowed c e = true) ->
  disciplined Inv inner m -> disciplined Inv allowed handler ->
  disciplined Inv allowed (try_except m catches handler).
Proof.
  intros Hsub Hcatch Hm Hh st HI. unfold try_except.
  destruct (Hm st HI) as (ext1 & Hlog1 & HI1 & Ha1 & Hp1).
  assert (Ha1' : Forall allowed ext1) by (eapply Forall_impl; [|exact Ha1]; auto).
  destruct (m st) as [[a|e] st1]; simpl in *.
  - exists ext1. repeat split; auto.
  - destruct (catches e) eqn:Ec.
    + assert (Hq : Forall quiet ext1).
      { inversion Hp1 as [r t Hq | t c e' Hq]; subst; auto.
        apply Forall_app; split; auto. constructor; [|constructor]. simpl.
        apply Hcatch; auto.
        apply Forall_app in Ha1. destruct Ha1 as [_ Ha1].
        now inversion Ha1. }
      destruct (Hh st1 HI1) as (ext2 & Hlog2 & HI2 & Ha2 & Hp2).
      exists (ext1 ++ ext2). rewrite Hlog2, Hlog1, app_assoc.
      repeat split; auto.
      * apply Forall_app; auto.
      * apply propagated_app; auto.
    + exists ext1. repeat split; auto.
Qed.

End Discipline.

Ltac side_condition := first [exact Logic.I | reflexivity].

Ltac discipline_step H :=
  first
    [ apply disciplined_ret
    | apply disciplined_raise
    | apply disciplined_lift
    | apply disciplined_item
    | apply disciplined_subscript
    | apply disciplined_print; side_condition
    | apply disciplined_emit; side_condition
    | apply disciplined_call; [exact H | intros; side_condition]
    | apply disciplined_invoke; [exact H | intros; side_condition]
    | apply disciplined_for_each_page; [intros; side_condition | intros]
    | apply disciplined_for_each; intros
    | apply disciplined_try with (inner := instance_profile_only);
      [ intros [] ?; simpl in *; tauto
      | let c := fresh "c" in
        let e := fresh "e" in
        let Hc := fresh "Hc" in
        intros c e Hc ?; unfold swallowed; simpl in Hc; rewrite Hc;
        destruct e; simpl in *; congruence
      | | ]
    | apply disciplined_bind; [| intros]
    | progress cbv zeta
    | match goal with
      | |- disciplined _ _ (match ?x with _ => _ end) => destruct x
      end ].

Ltac discipline H := repeat discipline_step H.

Section Handlers.

Variable W : Type.
Variable P : provider W.
Variable Inv : W -> Prop.
Hypothesis Inv_serve : forall w c, Inv w -> Inv (snd (serve P w c)).

Lemma delete_guardrail_disciplined arn service resource :
  disciplined Inv unmarked (delete_guardrail P arn service resource).
Proof. unfold delete_guardrail. discipline Inv_serve. Qed.

Lemma delete_collection_disciplined arn service resource :
  disciplined Inv unmarked (delete_collection P arn service resource).
Proof. unfold delete_collection. discipline Inv_serve. Qed.

Lemma delete_knowledgebase_disciplined arn service resource :
  disciplined Inv unmarked (delete_knowledgebase P arn service resource).
Proof. unfold delete_knowledgebase. discipline Inv_serve. Qed.

Lemma delete_bucket_disciplined arn service resource :
  disciplined Inv unmarked (delete_bucket P arn service resource).
Proof. unfold delete_bucket. discipline Inv_serve. Qed.

Lemma delete_function_disciplined arn service resource :
  disciplined Inv unmarked (delete_function P arn service resource).
Proof. unfold delete_function. discipline Inv_serve. Qed.

Lemma delete_policy_disciplined arn service resource :
  disciplined Inv unmarked (delete_policy P arn service resource).
Proof. unfold delete_policy. discipline Inv_serve. Qed.

Lemma delete_table_disciplined arn service resource :
  disciplined Inv unmarked (delete_table P arn service resource).
Proof. unfold delete_table. discipline Inv_serve. Qed.

Lemma delete_agent_disciplined arn service resource :
  disciplined Inv unmarked (delete_agent P arn service resource).
Proof. unfold delete_agent. discipline Inv_serve. Qed.

Lemma delete_roles_disciplined arn service resource :
  disciplined Inv unmarked (delete_roles P arn service resource).
Proof. unfold delete_roles. discipline Inv_serve. Qed.

End Handlers.

(** ** The sweep: order of the handler invocations, faults, provider state *)

Lemma entered_app t1 t2 : entered (t1 ++ t2) = entered t1 ++ entered t2.
Proof.
  induction t1 as [|ev t1 IH]; simpl; auto.
  destruct ev; simpl; rewrite ?IH; reflexivity.
Qed.

Lemma entered_unmarked t : Forall unmarked t -> entered t = [].
Proof.
  induction 1 as [|ev t Hev _ IH]; simpl; auto.
  destruct ev; simpl in *; tauto.
Qed.

Lemma app_last_split {A} (t before after : list A) (x y : A) :
  t ++ [x] = before ++ y :: after ->
  (before = t /\ y = x /\ after = []) \/ In y t.
Proof.
  revert t. induction before as [|b before IH]; intros [|z t] H; simpl in *.
  - injection H as -> <-. auto.
  - injection H as -> _. auto.
  - injection H as _ H. destruct before; discriminate.
  - injection H as -> H. destruct (IH _ H) as [(-> & -> & ->) | Hin]; auto.
Qed.

Lemma propagated_fault {A} (r : result A) t before c e after :
  propagated r t ->
  t = before ++ Called c (Fault e) :: after ->
  swallowed c e = false ->
  after = [] /\ r = Raised e.
Proof.
  intros Hp Ht Hs. destruct Hp as [r t Hq | t c' e' Hq].
  - subst t. apply Forall_app in Hq. destruct Hq as [_ Hq].
    inversion Hq as [|? ? Hq' _]. simpl in Hq'. congruence.
  - apply app_last_split in Ht. destruct Ht as [(_ & Heq & ->) | Hin].
    + injection Heq as _ ->. auto.
    + rewrite Forall_forall in Hq. apply Hq in Hin. simpl in Hin. congruence.
Qed.

Section Sweep.

Variable W : Type.
Variable P : provider W.
Variable Inv : W -> Prop.
Hypothesis Inv_serve : forall w c, Inv w -> Inv (snd (serve P w c)).

Lemma disciplined_weaken {A} (allowed allowed' : event -> Prop) (m : M W A) :
  (forall ev, allowed ev -> allowed' ev) ->
  disciplined Inv allowed m -> disciplined Inv allowed' m.
Proof.
  intros Hsub Hm st HI. destruct (Hm st HI) as (ext & Hlog & HI' & Ha & Hp).
  exists ext. repeat split; auto. eapply Forall_impl; eauto.
Qed.

Lemma delete_actions_disciplined : handlers_disciplined Inv (delete_actions P).
Proof.
  unfold handlers_disciplined, delete_actions.
  repeat constructor; simpl; intros.
  - now apply delete_guardrail_disciplined.
  - now apply delete_collection_disciplined.
  - now apply delete_knowledgebase_disciplined.
  - now apply delete_bucket_disciplined.
  - now apply delete_function_disciplined.
  - now apply delete_roles_disciplined.
  - now apply delete_policy_disciplined.
  - now apply delete_table_disciplined.
  - now apply delete_agent_disciplined.
Qed.

Lemma sweep_disciplined actions arns :
  handlers_disciplined Inv actions -> disciplined Inv anything (sweep actions arns).
Proof.
  intros Hh. unfold sweep. induction Hh as [|action actions Ha _ IH]; simpl.
  - apply disciplined_ret.
  - apply disciplined_bind; [|intros; exact IH].
    apply disciplined_for_each. intros arn.
    apply disciplined_bind; [apply disciplined_lift|]. intros [service resource].
    apply disciplined_bind; [apply disciplined_emit; exact Logic.I|]. intros _.
    eapply disciplined_weaken; [|apply Ha]. intros; exact Logic.I.
Qed.

Lemma marks_of_disciplined {A} (m : M W A) : disciplined Inv unmarked m -> marks Inv m [].
Proof.
  intros Hm st HI. destruct (Hm st HI) as (ext & Hlog & HI' & Ha & _).
  exists ext, []. rewrite (entered_unmarked Ha). repeat split; auto.
  destruct (fst (m st)); auto.
Qed.

Lemma marks_emit_entered action arn : marks Inv (emit (Entered action arn)) [(action, arn)].
Proof. intros st HI. exists [Entered action arn], []. simpl. auto. Qed.

Lemma marks_bind {A B} (m : M W A) (k : A -> M W B) l1 l2 :
  marks Inv m l1 -> (forall a, marks Inv (k a) l2) -> marks Inv (bind m k) (l1 ++ l2).
Proof.
  intros Hm Hk st HI. unfold bind.
  destruct (Hm st HI) as (ext1 & rest1 & Hlog1 & HI1 & He1 & Hr1).
  destruct (m st) as [[a|e] st1]; simpl in *.
  - subst rest1. rewrite app_nil_r in He1.
    destruct (Hk a st1 HI1) as (ext2 & rest2 & Hlog2 & HI2 & He2 & Hr2).
    exists (ext1 ++ ext2), rest2. rewrite Hlog2, Hlog1, app_assoc, entered_app.
    repeat split; auto. rewrite <- app_assoc. congruence.
  - exists ext1, (rest1 ++ l2). rewrite app_assoc, He1. auto.
Qed.

Lemma marks_for_each {A} (l : list A) (body : A -> M W unit) f :
  (forall x, marks Inv (body x) (f x)) -> marks Inv (for_each l body) (flat_map f l).
Proof.
  intros Hb. induction l as [|x l IH]; simpl.
  - apply (@marks_of_disciplined unit). apply disciplined_ret.
  - apply marks_bind; auto.
Qed.

Lemma sweep_marks actions arns :
  handlers_disciplined Inv actions ->
  marks Inv (sweep actions arns) (list_prod (map fst actions) arns).
Proof.
  intros Hh. unfold sweep. induction Hh as [|action actions Ha _ IH]; simpl.
  - apply (@marks_of_disciplined unit). apply disciplined_ret.
  - apply marks_bind; [|intros; exact IH].
    replace (map (fun y => (fst action, y)) arns)
      with (flat_map (fun arn => [] ++ [(fst action, arn)] ++ []) arns).
    2:{ clear. induction arns as [|arn arns IH]; simpl; [reflexivity|].
        f_equal; try exact IH. }
    apply marks_for_each. intros arn.
    apply marks_bind; [apply marks_of_disciplined, disciplined_lift|].
    intros [service resource].
    apply marks_bind; [apply marks_emit_entered|]. intros _.
    apply marks_of_disciplined, Ha.
Qed.

End Sweep.

Section SweepProperties.

Variable W : Type.
Variable P : provider W.

(** C2 (as the code has it): no handler call is guarded. A fault answered
    to any call of the sweep, other than a [ClientError] inside the
    instance-profile block of role deletion, ends the sweep: the faulted
    call is the last event of the run, and the exception leaves
    [delete_resources]. *)
Theorem delete_resources_fault_escapes (w : W) (arns : list string)
    (before after : list event) (c : api_call) (e : exn) :
  trace_of (delete_resources P arns) w = before ++ Called c (Fault e) :: after ->
  swallowed c e = false ->
  after = [] /\ outcome_of (delete_resources P arns) w = Raised e.
Proof.
  intros Ht Hs.
  assert (Hserve : forall (w' : W) (c : api_call), True -> True) by auto.
  pose proof (@delete_actions_disciplined W P (fun _ => True) Hserve) as Hd.
  destruct (sweep_disciplined arns Hd (start w) Logic.I)
    as (ext & Hlog & _ & _ & Hp).
  unfold trace_of, outcome_of, delete_resources in *.
  rewrite Hlog in Ht. simpl in Ht.
  eapply propagated_fault; eauto.
Qed.

(** C3 (as the code has it): in a state of the provider that no call
    changes (everything is already deleted), a sweep changes nothing, but
    it ends normally only if no call was answered by a fault outside the
    instance-profile block: the handlers do not take a not-found fault for
    success. *)
Theorem delete_resources_second_run (w : W) (arns : list string) :
  (forall c, snd (serve P w c) = w) ->
  world_after (delete_resources P arns) w = w
  /\ (outcome_of (delete_resources P arns) w = Ok tt ->
      forall c e, In (Called c (Fault e)) (trace_of (delete_resources P arns) w) ->
                  swallowed c e = true).
Proof.
  intros Hinert.
  assert (Hserve : forall (w' : W) (c : api_call), w' = w -> snd (serve P w' c) = w)
    by (intros ? ? ->; apply Hinert).
  pose proof (@delete_actions_disciplined W P (fun w' => w' = w) Hserve) as Hd.
  destruct (sweep_disciplined arns Hd (start w) eq_refl)
    as (ext & Hlog & Hw & _ & Hp).
  unfold world_after, trace_of, outcome_of, delete_resources in *.
  split; [exact Hw|].
  intros Hok c e Hin. rewrite Hlog in Hin. simpl in Hin. rewrite Hok in Hp.
  apply propagated_ok in Hp. rewrite Forall_forall in Hp.
  exact (Hp _ Hin).
Qed.

End SweepProperties.

(** On the example of the specification, with nothing refused, the sweep
    enters every handler on every identifier, handler by handler, and
    deletes the three resources. *)
Example sweep_of_the_example :
  outcome_of (delete_resources Cloud.provider Scenario.arns) Scenario.all_three = Ok tt
  /\ entered (trace_of (delete_resources Cloud.provider Scenario.arns) Scenario.all_three)
     = list_prod action_order Scenario.arns
  /\ calls_of (trace_of (delete_resources Cloud.provider Scenario.arns) Scenario.all_three)
     = [ListObjectsV2 "my-bucket"; DeleteBucket "my-bucket";
        ListAttachedRolePolicies "my-role"; ListRolePolicies "my-role";
        ListInstanceProfilesForRole "my-role"; DeleteRole "my-role";
        DeleteAgent "abc123"]
  /\ world_after (delete_resources Cloud.provider Scenario.arns) Scenario.all_three
     = Scenario.nothing_left.
Proof. repeat split. Qed.

(** C2 on the example of the specification: the refused deletion of the
    bucket is the last call of the sweep and its fault is the outcome. *)
Lemma delete_resources_fault_escapes_witness :
  trace_of (delete_resources Cloud.provider Scenario.arns) Scenario.bucket_refused
  = Scenario.before_refusal
    ++ Called (DeleteBucket "my-bucket") (Fault (ClientError "AccessDeniedException")) :: []
  /\ swallowed (DeleteBucket "my-bucket") (ClientError "AccessDeniedException") = false
  /\ ([] = @nil event
      /\ outcome_of (delete_resources Cloud.provider Scenario.arns) Scenario.bucket_refused
         = Raised (ClientError "AccessDeniedException")).
Proof.
  split; [reflexivity|]. split; [reflexivity|].
  apply (@delete_resources_fault_escapes _ Cloud.provider Scenario.bucket_refused
           Scenario.arns Scenario.before_refusal []
           (DeleteBucket "my-bucket") (ClientError "AccessDeniedException"));
    reflexivity.
Defined.

(** C2 fails as stated: with the role, the bucket and the agent of the
    specification's example, the refused deletion of the bucket leaves
    [delete_resources] as an exception; the role and agent handlers are
    never entered and the role and the agent still exist. *)
Lemma sweep_stops_at_refused_bucket :
  outcome_of (delete_resources Cloud.provider Scenario.arns) Scenario.bucket_refused
  = Raised (ClientError "AccessDeniedException")
  /\ map fst (entered (trace_of (delete_resources Cloud.provider Scenario.arns)
                                Scenario.bucket_refused))
     = [Guardrail; Guardrail; Guardrail; Collection; Collection; Collection;
        KnowledgeBaseAction; KnowledgeBaseAction; KnowledgeBaseAction; Bucket; Bucket]
  /\ Cloud.live (world_after (delete_resources Cloud.provider Scenario.arns)
                             Scenario.bucket_refused)
     = ["my-role"; "my-bucket"; "abc123"].
Proof. repeat split. Qed.

(** C3 where nothing exists any more: a sweep over a collection changes
    nothing. *)
Lemma delete_resources_second_run_witness :
  (forall c, snd (serve Cloud.provider Scenario.nothing_left c) = Scenario.nothing_left)
  /\ world_after (delete_resources Cloud.provider [Scenario.collection_arn])
                 Scenario.nothing_left = Scenario.nothing_left
  /\ (outcome_of (delete_resources Cloud.provider [Scenario.collection_arn])
                 Scenario.nothing_left = Ok tt ->
      forall c e,
        In (Called c (Fault e))
           (trace_of (delete_resources Cloud.provider [Scenario.collection_arn])
                     Scenario.nothing_left) ->
        swallowed c e = true).
Proof.
  split; [intros []; reflexivity|].
  apply (@delete_resources_second_run _ Cloud.provider Scenario.nothing_left
           [Scenario.collection_arn]).
  intros []; reflexivity.
Defined.

(** C3 fails as stated: a first sweep deletes the guardrail and ends
    normally; the second sweep over the same identifier is answered by a
    not-found fault, which leaves [delete_resources] as an exception. *)
Lemma second_run_raises_not_found :
  outcome_of (delete_resources Cloud.provider [Scenario.guardrail_arn]) Scenario.one_guardrail
  = Ok tt
  /\ world_after (delete_resources Cloud.provider [Scenario.guardrail_arn])
                 Scenario.one_guardrail = Scenario.nothing_left
  /\ outcome_of (delete_resources Cloud.provider [Scenario.guardrail_arn])
                Scenario.nothing_left
     = Raised (ClientError "ResourceNotFoundException").
Proof. repeat split. Qed.

(** ** Running a program step by step *)

Section Stepping.

Variable W : Type.
Variable P : provider W.

Lemma run_bind {A B} (m : M W A) (k : A -> M W B) st :
  bind m k st = match m st with
                | (Ok a, st') => k a st'
                | (Raised e, st') => (Raised e, st')
                end.
Proof. reflexivity. Qed.

Lemma run_assoc {A B C} (m : M W A) (k1 : A -> M W B) (k2 : B -> M W C) st :
  bind (bind m k1) k2 st = bind m (fun a => bind (k1 a) k2) st.
Proof. unfold bind. destruct (m st) as [[a|e] st']; reflexivity. Qed.

Lemma run_ret {A B} (a : A) (k : A -> M W B) st : bind (ret a) k st = k a st.
Proof. reflexivity. Qed.

Lemma run_print {B} line (k : unit -> M W B) st :
  bind (print line) k st = k tt {| world := world st; log := log st ++ [Printed line] |}.
Proof. reflexivity. Qed.

Lemma run_invoke {B} c (k : response -> M W B) st :
  bind (invoke P c) k st
  = match serve P (world st) c with
    | (Returned r, w') => k r {| world := w'; log := log st ++ [Called c (Returned r)] |}
    | (Fault e, w') => (Raised e, {| world := w'; log := log st ++ [Called c (Fault e)] |})
    end.
Proof.
  unfold bind, invoke. destruct (serve P (world st) c) as [[r|e] w']; reflexivity.
Qed.

Lemma run_call {B} c (k : unit -> M W B) st :
  bind (call P c) k st
  = match serve P (world st) c with
    | (Returned r, w') => k tt {| world := w'; log := log st ++ [Called c (Returned r)] |}
    | (Fault e, w') => (Raised e, {| world := w'; log := log st ++ [Called c (Fault e)] |})
    end.
Proof.
  unfold call. rewrite run_assoc, run_invoke.
  destruct (serve P (world st) c) as [[r|e] w']; reflexivity.
Qed.

Lemma run_last_call c st :
  call P c st
  = match serve P (world st) c with
    | (Returned r, w') => (Ok tt, {| world := w'; log := log st ++ [Called c (Returned r)] |})
    | (Fault e, w') => (Raised e, {| world := w'; log := log st ++ [Called c (Fault e)] |})
    end.
Proof.
  unfold call. rewrite run_invoke.
  destruct (serve P (world st) c) as [[r|e] w']; reflexivity.
Qed.

Lemma run_subscript {T B} key (v : option T) (k : T -> M W B) st :
  bind (subscript key v) k st
  = match v with
    | Some x => k x st
    | None => (Raised (KeyError key), st)
    end.
Proof. destruct v; reflexivity. Qed.

Lemma run_item {T B} key (field : response -> option T) r (k : T -> M W B) st :
  bind (item key field r) k st
  = match field r with
    | Some x => k x st
    | None => (Raised (KeyError key), st)
    end.
Proof. apply run_subscript. Qed.

Lemma for_each_app {X} (l1 l2 : list X) (body : X -> M W unit) (st : state W) :
  for_each (l1 ++ l2) body st = bind (for_each l1 body) (fun _ => for_each l2 body) st.
Proof.
  revert st. induction l1 as [|x l1 IH]; intros st; simpl; [reflexivity|].
  rewrite run_assoc, !run_bind. destruct (body x st) as [[[]|e] st1]; [apply IH | reflexivity].
Qed.

Lemma for_each_cons {X} (x : X) (l : list X) (body : X -> M W unit) (st : state W) :
  for_each (x :: l) body st = bind (body x) (fun _ => for_each l body) st.
Proof. reflexivity. Qed.

Lemma for_each_map {X Y} (g : X -> Y) (l : list X) (body : Y -> M W unit) (st : state W) :
  for_each (map g l) body st = for_each l (fun x => body (g x)) st.
Proof.
  revert st. induction l as [|x l IH]; intros st; simpl; [reflexivity|].
  rewrite !run_bind. destruct (body (g x) st) as [[[]|e] st1]; [apply IH | reflexivity].
Qed.

End Stepping.

(** ** The sweep: handler outer, identifier inner *)

Section SweepOrder.

Variable W : Type.
Variable P : provider W.

(** The two nested loops are one loop over the pairs of a handler and an
    identifier, handler first. *)
Lemma sweep_flat (actions : list (action_name * (string -> string -> string -> M W unit)))
    (arns : list string) (st : state W) :
  sweep actions arns st
  = for_each (list_prod actions arns)
      (fun '((action, handler), arn) =>
         '(service, resource) <- @lift W _ (parse_arn arn) ;;
         emit (Entered action arn) ;;
         handler arn service resource) st.
Proof.
  revert st. induction actions as [|[action handler] actions IH]; intros st; [reflexivity|].
  unfold sweep. rewrite for_each_cons. simpl list_prod.
  rewrite for_each_app, !run_bind, for_each_map.
  match goal with
  | |- match ?x with _ => _ end = match ?y with _ => _ end => change y with x
  end.
  destruct (for_each arns _ st) as [[[]|e] st1]; [apply IH | reflexivity].
Qed.

(** C1: a run of [delete_resources] is the run, one after the other, of
    the nine handlers in the order guardrail, collection, knowledge base,
    bucket, function, role, policy, table, agent, each handler being applied
    to every identifier of the list (to the identifier, its service and its
    resource part, in the order of the list) before the next handler is
    applied to any; an exception ends it there. So the handler invocations
    are an initial part of [list_prod action_order arns], and all of it when
    the sweep ends normally. *)
Theorem delete_resources_handler_outer (w : W) (arns : list string) :
  (forall st,
     delete_resources P arns st
     = for_each
         (list_prod [(Guardrail, delete_guardrail P);
                     (Collection, delete_collection P);
                     (KnowledgeBaseAction, delete_knowledgebase P);
                     (Bucket, delete_bucket P);
                     (Function, delete_function P);
                     (Roles, delete_roles P);
                     (Policy, delete_policy P);
                     (Table, delete_table P);
                     (Agent, delete_agent P)] arns)
         (fun '((action, handler), arn) =>
            '(service, resource) <- @lift W _ (parse_arn arn) ;;
            emit (Entered action arn) ;;
            handler arn service resource) st)
  /\ exists rest,
       entered (trace_of (delete_resources P arns) w) ++ rest = list_prod action_order arns
       /\ match outcome_of (delete_resources P arns) w with
          | Ok _ => rest = []
          | Raised _ => True
          end.
Proof.
  split.
  - intros st. unfold delete_resources. rewrite sweep_flat. reflexivity.
  - assert (Hserve : forall (w' : W) (c : api_call), True -> True) by auto.
    pose proof (@delete_actions_disciplined W P (fun _ => True) Hserve) as Hd.
    destruct (sweep_marks arns Hd (start w) Logic.I)
      as (ext & rest & Hlog & _ & He & Hr).
    exists rest. unfold trace_of, outcome_of, delete_resources.
    rewrite Hlog. simpl. split; auto.
Qed.

End SweepOrder.

(** ** Firing is matching *)

Section FiringIsMatching.

Variable W : Type.
Variable P : provider W.

Lemma fired_after_print {A} line (k : unit -> M W A) (w : W) :
  disciplined (fun _ : W => True) anything (k tt) -> fired (bind (print line) k) w = true.
Proof.
  intros Hk. unfold fired, trace_of. rewrite run_print.
  match goal with |- context [k tt ?s] => destruct (Hk s Logic.I) as (ext & Hlog & _) end.
  rewrite Hlog. reflexivity.
Qed.

(** A handler fires exactly when its match condition holds. *)
Lemma fired_iff_matches (w : W) (arn service resource : string) :
  Forall (fun action => fired (snd action arn service resource) w
                        = matches (fst action) service resource)
         (delete_actions P).
Proof.
  assert (Hserve : forall (w' : W) (c : api_call), True -> True) by auto.
  unfold delete_actions.
  repeat (apply Forall_cons; [|]); [..|apply Forall_nil]; simpl fst; simpl snd;
    unfold matches, pattern_of, delete_guardrail, delete_collection, delete_knowledgebase,
      delete_bucket, delete_function, delete_roles, delete_policy, delete_table, delete_agent;
    simpl fst; simpl snd;
    (destruct (String.eqb service _); [|reflexivity]);
    try (destruct (Py.re_match_group _ resource); [|reflexivity]);
    cbv zeta; simpl andb;
    apply fired_after_print;
    (apply disciplined_weaken with (allowed := unmarked);
     [intros; exact Logic.I | cbv beta; discipline Hserve]).
Qed.

End FiringIsMatching.

(** ** Which handler fires *)

Lemma re_match_group_head c literal s group :
  Py.re_match_group (String c literal) s = Some group -> head s = Some c.
Proof.
  unfold Py.re_match_group. simpl. destruct s as [|b s]; [discriminate|].
  destruct (Ascii.eqb c b) eqn:E; [|discriminate].
  apply Ascii.eqb_eq in E. subst. reflexivity.
Qed.

(** Two handlers whose conditions both hold are the same handler: either
    the services differ, or the literals differ in their first character. *)
Lemma matches_exclusive (a b : action_name) (service resource : string) :
  matches a service resource = true -> matches b service resource = true -> a = b.
Proof.
  unfold matches. intros Ha Hb.
  apply andb_true_iff in Ha, Hb. destruct Ha as [Hsa Hla], Hb as [Hsb Hlb].
  apply String.eqb_eq in Hsa, Hsb.
  destruct a, b; try reflexivity; exfalso; simpl in *;
    try (rewrite Hsa in Hsb; discriminate Hsb);
    repeat match goal with
           | H : match Py.re_match_group ?l resource with _ => _ end = true |- _ =>
               let E := fresh "E" in
               destruct (Py.re_match_group l resource) eqn:E; [clear H|discriminate H];
               apply re_match_group_head in E
           end;
    congruence.
Qed.

Section Exclusive.

Variable W : Type.
Variable P : provider W.

(** C5: whatever the service and the resource path, at most one of the
    nine handlers fires (does anything at all): the match conditions, a
    service name and for all but the bucket handler a literal prefix of the
    resource path, are mutually exclusive. *)
Theorem at_most_one_handler_fires (w : W) (arn service resource : string) :
  length (filter (fun action => fired (snd action arn service resource) w)
                 (delete_actions P)) <= 1.
Proof.
  pose proof (fired_iff_matches P w arn service resource) as H.
  unfold delete_actions in *.
  repeat match type of H with
         | Forall _ (_ :: _) =>
             let Hx := fresh "Hx" in
             apply Forall_cons_iff in H; destruct H as [Hx H]; simpl in Hx
         end.
  simpl filter.
  repeat match goal with
         | Hx : fired ?m w = matches ?a service resource |- _ =>
             rewrite Hx; clear Hx;
             let E := fresh "E" in
             destruct (matches a service resource) eqn:E
         end;
  repeat match goal with
         | E1 : matches ?a service resource = true,
           E2 : matches ?b service resource = true |- _ =>
             discriminate (matches_exclusive _ _ _ _ E1 E2)
         end;
  simpl; lia.
Qed.

End Exclusive.

(** On the bucket of the example exactly the bucket handler fires. *)
Example bucket_handler_fires :
  map fst (filter (fun action => fired (snd action Scenario.bucket_arn "s3" "my-bucket")
                                       Scenario.bucket_refused)
                  (delete_actions Cloud.provider))
  = [Bucket].
Proof. reflexivity. Qed.

Lemma calls_of_app t1 t2 : calls_of (t1 ++ t2) = calls_of t1 ++ calls_of t2.
Proof.
  induction t1 as [|ev t1 IH]; simpl; auto.
  destruct ev; simpl; rewrite ?IH; reflexivity.
Qed.

Lemma no_fault_app t1 t2 : no_fault t1 -> no_fault t2 -> no_fault (t1 ++ t2).
Proof. unfold no_fault. intros H1 H2. rewrite forallb_app, H1, H2. reflexivity. Qed.

Lemma in_calls_of c o t : In (Called c o) t -> In c (calls_of t).
Proof.
  induction t as [|ev t IH]; simpl; [tauto|].
  intros [->|H]; simpl; auto. destruct ev; simpl; auto.
Qed.

Lemma in_middle {A} (x : A) t before after : t = before ++ x :: after -> In x t.
Proof. intros ->. apply in_elt. Qed.

Section CollectionDeletion.

Variable W : Type.
Variable P : provider W.

(** C10: for an [aoss] identifier [collection/<id>], when the lookup
    answers a list of collection details that does not hold exactly one
    detail, [delete_collection] returns normally after the lookup: its
    trace is the announcement and the lookup, nothing is deleted. *)
Theorem delete_collection_not_one_detail (w w' : W) (arn resource id : string)
    (details : list collection_detail) :
  Py.re_match_group "collection/" resource = Some id ->
  serve P w (BatchGetCollection [id]) = (Returned (CollectionDetails details), w') ->
  length details <> 1 ->
  delete_collection P arn "aoss" resource (start w)
  = (Ok tt,
     {| world := w';
        log := [Printed ("Deleting: " ++ arn)%string;
                Called (BatchGetCollection [id]) (Returned (CollectionDetails details))] |}).
Proof.
  intros Hm Hs Hlen. unfold delete_collection. rewrite Hm, String.eqb_refl.
  rewrite run_print, run_assoc, run_invoke. simpl world. rewrite Hs.
  rewrite run_item. simpl.
  destruct details as [|d [|d' details]]; simpl in *; try reflexivity.
  congruence.
Qed.

End CollectionDeletion.

(** C10 in the cloud where nothing exists: the lookup finds no collection. *)
Lemma delete_collection_not_one_detail_witness :
  Py.re_match_group "collection/" "collection/c1" = Some "c1"
  /\ serve Cloud.provider Scenario.nothing_left (BatchGetCollection ["c1"])
     = (Returned (CollectionDetails []), Scenario.nothing_left)
  /\ length (@nil collection_detail) <> 1
  /\ delete_collection Cloud.provider Scenario.collection_arn "aoss" "collection/c1"
       (start Scenario.nothing_left)
     = (Ok tt,
        {| world := Scenario.nothing_left;
           log := [Printed ("Deleting: " ++ Scenario.collection_arn)%string;
                   Called (BatchGetCollection ["c1"]) (Returned (CollectionDetails []))] |}).
Proof.
  split; [reflexivity|]. split; [reflexivity|]. split; [simpl; lia|].
  apply (@delete_collection_not_one_detail _ Cloud.provider Scenario.nothing_left
           Scenario.nothing_left Scenario.collection_arn "collection/c1" "c1" []);
    [reflexivity | reflexivity | simpl; lia].
Defined.

Section DeleteLoops.

Variable W : Type.
Variable P : provider W.

(** A loop that announces and deletes each element of a list: its calls
    are deletions of elements of the list, and all of them, each answered
    without a fault, when the loop ends normally. [kind] is any property
    of the deletion calls. *)
Lemma delete_loop {X} (kind : api_call -> bool) (body : X -> M W unit) (l : list X)
    (st : state W) (msg : X -> string) (c : X -> api_call) :
  (forall x, body x = (print (msg x) ;; call P (c x))) ->
  (forall x, kind (c x) = true) ->
  exists ext,
    log (snd (for_each l body st)) = log st ++ ext
    /\ (forall c' o, In (Called c' o) ext -> kind c' = true)
    /\ (fst (for_each l body st) = Ok tt -> calls_of ext = map c l /\ no_fault ext).
Proof.
  intros Hbody Hkind. revert st. induction l as [|x l IH]; intros st; simpl for_each.
  - exists []. simpl. rewrite app_nil_r. repeat split; auto; try tauto.
  - rewrite Hbody, run_assoc, run_print, run_call. simpl world. simpl log.
    destruct (serve P (world st) (c x)) as [[r|e] w']; rewrite <- !app_assoc; simpl app.
    + match goal with
      | |- context [for_each l body ?s] => destruct (IH s) as (ext & Hlog & Hin & Hok)
      end.
      simpl in Hlog.
      exists ([Printed (msg x); Called (c x) (Returned r)] ++ ext).
      rewrite Hlog, <- !app_assoc. simpl. split; [reflexivity|]. split.
      * intros c' o [H|[H|H]]; [discriminate H | injection H as <- _; apply Hkind | eauto].
      * intros H. destruct (Hok H) as [Hc Hn]. split; [now f_equal | exact Hn].
    + exists [Printed (msg x); Called (c x) (Fault e)].
      simpl. split; [reflexivity|]. split.
      * intros c' o [H|[H|[]]]; [discriminate H | injection H as <- _; apply Hkind].
      * discriminate.
Qed.

End DeleteLoops.

(** ** Collection deletion: the policies go first *)

Ltac refute H :=
  match type of H with
  | _ \/ _ => destruct H as [H|H]; [refute H | refute H]
  | False => exact H
  | _ = _ => discriminate H
  | In _ (_ ++ _) => apply in_app_or in H; refute H
  | In _ (_ :: _) => destruct H as [H|H]; [refute H | refute H]
  | In _ [] => destruct H
  | In _ ?ext =>
      match goal with
      | Hcalls : forall c o, In (Called c o) ext -> _ = true |- _ =>
          apply Hcalls in H; discriminate H
      end
  end.

Ltac absent H :=
  simpl in H; apply in_middle in H; exfalso; refute H.

#[local] Arguments String.append : simpl never.

Ltac step H :=
  cbv beta in H; repeat rewrite run_assoc in H;
  first [ rewrite run_ret in H | rewrite run_print in H | rewrite run_item in H
        | rewrite run_subscript in H | rewrite run_invoke in H | rewrite run_call in H
        | rewrite run_last_call in H ];
  simpl world in H; simpl log in H.

Ltac steps H := repeat step H.

(** [loop] is a lemma about a [for_each], applied to the body, the list
    and the state: the log it adds, what its calls are, and what holds when
    it ends normally. *)
Ltac run_loop H loop :=
  match type of H with
  | context [bind (for_each ?l ?b) _ ?s] =>
      let ext := fresh "ext" in
      let Hlog := fresh "Hlog" in
      let Hcalls := fresh "Hcalls" in
      let Hok := fresh "Hok" in
      let st := fresh "st" in
      let E := fresh "E" in
      edestruct (loop b l s) as (ext & Hlog & Hcalls & Hok);
      [intros; reflexivity | intros; reflexivity |];
      rewrite run_bind in H;
      destruct (for_each l b s) as [[[]|?] st] eqn:E;
      simpl in Hlog, Hok;
      destruct st as [? ?]; simpl in Hlog; subst;
      [specialize (Hok eq_refl)|]
  end.

Section CollectionOrder.

Variable W : Type.
Variable P : provider W.

(** C6: when [delete_collection] calls [delete_collection] of the service,
    that call is the last event of its run, and everything before it went
    without a fault: the lookup of the one collection, the listing of the
    encryption policies and the deletion of each of them, the same for the
    network policies, then the listing of the data access policies and the
    deletion of each of them. *)
Theorem delete_collection_policies_first (w : W) (arn service resource : string)
    (before after : list event) (id : string) (o : outcome) :
  trace_of (delete_collection P arn service resource) w
  = before ++ Called (DeleteCollection id) o :: after ->
  after = []
  /\ exists detail encryption network data,
       let resource_name := ("collection/" ++ cd_name detail)%string in
       In (Called (BatchGetCollection [id]) (Returned (CollectionDetails [detail]))) before
       /\ In (Called (ListSecurityPolicies "encryption" [resource_name])
                     (Returned (SecurityPolicySummaries encryption))) before
       /\ In (Called (ListSecurityPolicies "network" [resource_name])
                     (Returned (SecurityPolicySummaries network))) before
       /\ In (Called (ListAccessPolicies "data" [resource_name])
                     (Returned (AccessPolicySummaries data))) before
       /\ calls_of before
          = [BatchGetCollection [id]; ListSecurityPolicies "encryption" [resource_name]]
            ++ map (fun p => DeleteSecurityPolicy (ps_name p) "encryption") encryption
            ++ [ListSecurityPolicies "network" [resource_name]]
            ++ map (fun p => DeleteSecurityPolicy (ps_name p) "network") network
            ++ [ListAccessPolicies "data" [resource_name]]
            ++ map (fun p => DeleteAccessPolicy (ps_name p) "data") data
       /\ no_fault before.
Proof.
  unfold trace_of, delete_collection, start. intros H.
  destruct (String.eqb service "aoss"); [|absent H].
  destruct (Py.re_match_group "collection/" resource) as [collection_id|]; [|absent H].
  steps H.
  destruct (serve P w _) as [[r|e] w1]; [|absent H].
  steps H.
  destruct r; try absent H. simpl Key.collectionDetails in H. cbv iota in H.
  destruct l as [|detail [|d l]]; try absent H.
  simpl for_each in H. steps H.
  destruct (serve P w1 _) as [[r|e] w2]; [|absent H].
  steps H.
  destruct r; try absent H. simpl Key.securityPolicySummaries in H. cbv iota in H.
  run_loop H (@delete_loop W P policy_summary policy_deletion); [|absent H].
  steps H.
  destruct (serve P _ _) as [[r|e] w3]; [|absent H].
  steps H.
  destruct r; try absent H. simpl Key.securityPolicySummaries in H. cbv iota in H.
  run_loop H (@delete_loop W P policy_summary policy_deletion); [|absent H].
  steps H.
  destruct (serve P _ _) as [[r|e] w4]; [|absent H].
  steps H.
  destruct r; try absent H. simpl Key.accessPolicySummaries in H. cbv iota in H.
  run_loop H (@delete_loop W P policy_summary policy_deletion); [|absent H].
  steps H.
  assert (Hsplit : before = Printed ("Deleting: " ++ arn)%string
                   :: Called (BatchGetCollection [collection_id])
                        (Returned (CollectionDetails [detail]))
                   :: Called (ListSecurityPolicies "encryption"
                                [("collection/" ++ cd_name detail)%string])
                        (Returned (SecurityPolicySummaries l))
                   :: (((((ext ++
                           [Called (ListSecurityPolicies "network"
                                      [("collection/" ++ cd_name detail)%string])
                              (Returned (SecurityPolicySummaries l0))]) ++ ext0) ++
                         [Called (ListAccessPolicies "data"
                                    [("collection/" ++ cd_name detail)%string])
                            (Returned (AccessPolicySummaries l1))]) ++ ext1) ++
                       [Printed ("-> Deleting OpenSearch Serverless collection: "
                                 ++ "collection/" ++ cd_name detail)%string])
                 /\ id = collection_id /\ after = []).
  { destruct (serve P world2 _) as [[r|e] w5]; simpl in H;
      rewrite !app_comm_cons in H; apply app_last_split in H;
      (destruct H as [(Hb & Hx & Ha) | Hin]; [|exfalso; refute Hin]);
      injection Hx as -> _; auto. }
  clear H. destruct Hsplit as (-> & -> & ->).
  split; [reflexivity|].
  exists detail, l, l0, l1. cbv zeta.
  destruct Hok as [Hc Hf], Hok0 as [Hc0 Hf0], Hok1 as [Hc1 Hf1].
  repeat split.
  - simpl; auto.
  - simpl; auto.
  - simpl. do 3 right. rewrite !in_app_iff. simpl. auto 10.
  - simpl. do 3 right. rewrite !in_app_iff. simpl. auto 10.
  - simpl. rewrite !calls_of_app. simpl. rewrite Hc, Hc0, Hc1, app_nil_r.
    rewrite <- !app_assoc. reflexivity.
  - unfold no_fault in *. simpl. rewrite !forallb_app. simpl.
    rewrite Hf, Hf0, Hf1. reflexivity.
Qed.
End CollectionOrder.

Lemma delete_collection_policies_first_witness :
  trace_of (delete_collection Script.provider
              "arn:aws:aoss:us-east-1:123456789012:collection/c1" "aoss" "collection/c1")
           books_collection
  = before_books_deletion ++ Called (DeleteCollection "c1") (Returned NoContent) :: []
  /\ calls_of before_books_deletion
     = [BatchGetCollection ["c1"];
        ListSecurityPolicies "encryption" ["collection/books"];
        DeleteSecurityPolicy "books-encryption" "encryption";
        ListSecurityPolicies "network" ["collection/books"];
        DeleteSecurityPolicy "books-network" "network";
        ListAccessPolicies "data" ["collection/books"];
        DeleteAccessPolicy "books-access" "data"]
  /\ no_fault before_books_deletion.
Proof.
  split; [reflexivity|].
  destruct (@delete_collection_policies_first _ Script.provider books_collection
              "arn:aws:aoss:us-east-1:123456789012:collection/c1" "aoss" "collection/c1"
              before_books_deletion [] "c1" (Returned NoContent) eq_refl)
    as (_ & detail & encryption & network & data & _ & _ & _ & _ & _ & Hf).
  split; [reflexivity | exact Hf].
Defined.

(** ** Knowledge-base deletion: retain, then delete, then the knowledge base *)

Lemma api_events_app t1 t2 : api_events (t1 ++ t2) = api_events t1 ++ api_events t2.
Proof. apply filter_app. Qed.

Lemma retain_checked_app prev t1 t2 :
  retain_checked prev t1 = true ->
  (forall p, retain_checked p t2 = true) ->
  retain_checked prev (t1 ++ t2) = true.
Proof.
  revert prev. induction t1 as [|ev t1 IH]; intros prev H1 H2; simpl in *; auto.
  apply andb_true_iff in H1. destruct H1 as [-> H1]. simpl. auto.
Qed.

Lemma last_cons_default {A} (l : list A) (x d : A) : last (x :: l) d = last l x.
Proof.
  revert x d. induction l as [|a l IH]; intros x d; [reflexivity|].
  change (last (x :: a :: l) d) with (last (a :: l) d). now rewrite !IH.
Qed.

Lemma retain_checked_at prev before ev after :
  retain_checked prev (before ++ ev :: after) = true ->
  retains (last before prev) ev = true.
Proof.
  revert prev. induction before as [|b before IH]; intros prev H; simpl in H.
  - apply andb_true_iff in H. tauto.
  - apply andb_true_iff in H. destruct H as [_ H]. apply IH in H.
    now rewrite last_cons_default.
Qed.

Section KnowledgeBaseDeletion.

Variable W : Type.
Variable P : provider W.

Lemma data_source_loop (kb_id : string) (body : data_source_summary -> M W unit)
    (l : list data_source_summary) :
  (forall ds, body ds =
     (ds_details <- (r <- invoke P (GetDataSource kb_id (dss_dataSourceId ds)) ;;
                     item "dataSource" Key.dataSource r) ;;
      vector_cfg <- subscript "vectorIngestionConfiguration"
                      (ds_vectorIngestionConfiguration ds_details) ;;
      call P (UpdateDataSource kb_id (dss_dataSourceId ds) (ds_name ds_details)
                (ds_dataSourceConfiguration ds_details) vector_cfg "RETAIN") ;;
      print ("-> Deleting data source: " ++ dss_name ds) ;;
      call P (DeleteDataSource kb_id (dss_dataSourceId ds)))) ->
  forall st, exists ext,
    log (snd (for_each l body st)) = log st ++ ext
    /\ (forall c o, In (Called c o) ext -> data_source_call c = true)
    /\ (forall prev, retain_checked prev (api_events ext) = true)
    /\ (fst (for_each l body st) = Ok tt ->
        no_fault ext
        /\ forall ds, In ds l ->
             exists r, In (Called (DeleteDataSource kb_id (dss_dataSourceId ds)) (Returned r)) ext).
Proof.
  intros Hbody. induction l as [|ds l IH]; intros st; simpl for_each.
  - exists []. simpl. rewrite app_nil_r. repeat split; auto; try tauto.
  - rewrite Hbody. rewrite ?run_assoc, run_invoke.
    destruct (serve P (world st) _) as [[r|e] w1].
    2:{ eexists [_]. simpl. split; [reflexivity|]. split; [|split].
        - intros c o [H|[]]. now injection H as <- _.
        - reflexivity.
        - discriminate. }
    rewrite ?run_assoc, run_item.
    destruct (Key.dataSource r) as [details|].
    2:{ eexists [_]. simpl. split; [reflexivity|]. split; [|split].
        - intros c o [H|[]]. now injection H as <- _.
        - reflexivity.
        - discriminate. }
    rewrite ?run_assoc, run_subscript.
    destruct (ds_vectorIngestionConfiguration details) as [vector_cfg|].
    2:{ eexists [_]. simpl. split; [reflexivity|]. split; [|split].
        - intros c o [H|[]]. now injection H as <- _.
        - reflexivity.
        - discriminate. }
    rewrite ?run_assoc, run_call. simpl world. simpl log.
    destruct (serve P w1 _) as [[r1|e] w2].
    2:{ eexists [_; _]. simpl. rewrite <- app_assoc. split; [reflexivity|]. split; [|split].
        - intros c o [H|[H|[]]]; now injection H as <- _.
        - reflexivity.
        - discriminate. }
    rewrite ?run_assoc, run_print, run_call. simpl world. simpl log.
    destruct (serve P w2 _) as [[r2|e] w3].
    2:{ eexists [_; _; _; _]. simpl. rewrite <- !app_assoc. split; [reflexivity|].
        split; [|split].
        - intros c o [H|[H|[H|[H|[]]]]]; try discriminate H; now injection H as <- _.
        - intros prev. simpl. rewrite !String.eqb_refl. reflexivity.
        - discriminate. }
    rewrite <- !app_assoc. simpl app.
    match goal with
    | |- context [for_each l body ?s] => destruct (IH s) as (ext & Hlog & Hcalls & Hret & Hok)
    end.
    simpl in Hlog.
    eexists ([_; _; _; _] ++ ext). rewrite Hlog, <- app_assoc. split; [reflexivity|].
    split; [|split].
    + intros c o Hin. apply in_app_or in Hin. destruct Hin as [Hin|Hin]; [|eauto].
      destruct Hin as [H|[H|[H|[H|[]]]]]; try discriminate H; now injection H as <- _.
    + intros prev. rewrite api_events_app. apply retain_checked_app; auto.
      simpl. rewrite !String.eqb_refl. reflexivity.
    + intros H. destruct (Hok H) as [Hnf Hall]. split.
      * apply no_fault_app; [reflexivity | exact Hnf].
      * intros ds' [<-|Hin].
        -- exists r2. apply in_or_app. left. simpl. auto.
        -- destruct (Hall _ Hin) as [r' Hr']. exists r'. apply in_or_app. now right.
Qed.

(** C7: in the client calls of [delete_knowledgebase], every deletion of a
    data source comes directly after the successful update of that data
    source to the deletion policy ["RETAIN"]; and when the knowledge base
    is deleted, that call is the last event of the run, nothing before it
    faulted, and every data source of the listing has been deleted. *)
Theorem delete_knowledgebase_retains_then_deletes (w : W) (arn service resource : string) :
  (forall before after kb ds o,
     api_events (trace_of (delete_knowledgebase P arn service resource) w)
     = before ++ Called (DeleteDataSource kb ds) o :: after ->
     exists before' name cfg vector_cfg r,
       before = before' ++ [Called (UpdateDataSource kb ds name cfg vector_cfg "RETAIN")
                                   (Returned r)])
  /\ (forall before after kb o,
        trace_of (delete_knowledgebase P arn service resource) w
        = before ++ Called (DeleteKnowledgeBase kb) o :: after ->
        after = []
        /\ no_fault before
        /\ exists sources,
             In (Called (ListDataSources kb) (Returned (DataSourceSummaries sources))) before
             /\ forall ds, In ds sources ->
                  exists r, In (Called (DeleteDataSource kb (dss_dataSourceId ds)) (Returned r))
                               before).
Proof.
  assert (Hgen : forall t, t = trace_of (delete_knowledgebase P arn service resource) w ->
            retain_checked (Printed "") (api_events t) = true
            /\ (forall before after kb o,
                  t = before ++ Called (DeleteKnowledgeBase kb) o :: after ->
                  after = []
                  /\ no_fault before
                  /\ exists sources,
                       In (Called (ListDataSources kb) (Returned (DataSourceSummaries sources)))
                          before
                       /\ forall ds, In ds sources ->
                            exists r, In (Called (DeleteDataSource kb (dss_dataSourceId ds))
                                                 (Returned r)) before)).
  { intros t Ht. unfold trace_of, delete_knowledgebase, start in Ht.
    destruct (String.eqb service "bedrock");
      [|subst t; split; [reflexivity | intros ? ? ? ? H; absent H]].
    destruct (Py.re_match_group "knowledge-base/" resource) as [kb_id|];
      [|subst t; split; [reflexivity | intros ? ? ? ? H; absent H]].
    steps Ht.
    destruct (serve P w _) as [[r|e] w1];
      [|subst t; split; [reflexivity | intros ? ? ? ? H; absent H]].
    steps Ht.
    destruct (Key.knowledgeBase r) as [kb|];
      [|subst t; split; [reflexivity | intros ? ? ? ? H; absent H]].
    steps Ht.
    destruct (serve P w1 _) as [[r0|e] w2];
      [|subst t; split; [reflexivity | intros ? ? ? ? H; absent H]].
    steps Ht.
    destruct r0; simpl Key.dataSourceSummaries in Ht; cbv iota in Ht;
      try (subst t; split; [reflexivity | intros ? ? ? ? H; absent H]).
    match type of Ht with
    | context [bind (for_each ?l ?b) _ ?s] =>
        destruct (@data_source_loop kb_id b l (fun _ => eq_refl) s)
          as (ext & Hlog & Hcalls & Hret & Hok);
        rewrite run_bind in Ht;
        destruct (for_each l b s) as [[[]|e] [w3 lg]] eqn:E;
        simpl in Hlog, Hok; subst lg
    end.
    2:{ subst t. split; [simpl; apply Hret | intros ? ? ? ? H; absent H]. }
    destruct (Hok eq_refl) as [Hnf Hall]. clear Hok.
    steps Ht.
    destruct (serve P w3 _) as [[r1|e] w4]; simpl in Ht; subst t.
    - split.
      + simpl. rewrite !api_events_app. simpl. rewrite app_nil_r.
        apply retain_checked_app; [apply Hret|]. intros p. reflexivity.
      + intros before after kb0 o H. rewrite !app_comm_cons in H.
        apply app_last_split in H. destruct H as [(-> & Hx & ->) | Hin];
          [|exfalso; refute Hin].
        injection Hx as -> _. split; [reflexivity|]. split.
        * unfold no_fault in *. simpl. rewrite !forallb_app, Hnf. reflexivity.
        * exists l. split; [simpl; auto|].
          intros ds Hds. destruct (Hall ds Hds) as [r' Hr']. exists r'.
          simpl. rewrite ?in_app_iff. auto 10.
    - split.
      + simpl. rewrite !api_events_app. simpl. rewrite app_nil_r.
        apply retain_checked_app; [apply Hret|]. intros p. reflexivity.
      + intros before after kb0 o H. rewrite !app_comm_cons in H.
        apply app_last_split in H. destruct H as [(-> & Hx & ->) | Hin];
          [|exfalso; refute Hin].
        injection Hx as -> _. split; [reflexivity|]. split.
        * unfold no_fault in *. simpl. rewrite !forallb_app, Hnf. reflexivity.
        * exists l. split; [simpl; auto|].
          intros ds Hds. destruct (Hall ds Hds) as [r' Hr']. exists r'.
          simpl. rewrite ?in_app_iff. auto 10. }
  destruct (Hgen _ eq_refl) as [Hret Hkb]. split; [|exact Hkb].
  intros before after kb ds o H. rewrite H in Hret.
  apply retain_checked_at in Hret. simpl in Hret.
  destruct before as [|b before] using rev_ind; [discriminate Hret|].
  rewrite last_last in Hret.
  destruct b as [| | |[] []]; try discriminate Hret.
  apply andb_true_iff in Hret. destruct Hret as [Hret Hp].
  apply andb_true_iff in Hret. destruct Hret as [Hk Hd].
  apply String.eqb_eq in Hk, Hd, Hp. subst.
  eauto 10.
Qed.

End KnowledgeBaseDeletion.

Lemma delete_knowledgebase_retains_then_deletes_witness :
  (api_events (trace_of (delete_knowledgebase Script.provider docs_arn "bedrock"
                           "knowledge-base/kb1") docs_knowledge_base)
   = firstn 7 (api_events docs_trace)
     ++ Called (DeleteDataSource "kb1" "ds2") (Returned NoContent)
     :: skipn 8 (api_events docs_trace))
  /\ (exists before' name cfg vector_cfg r,
        firstn 7 (api_events docs_trace)
        = before' ++ [Called (UpdateDataSource "kb1" "ds2" name cfg vector_cfg "RETAIN")
                             (Returned r)])
  /\ (trace_of (delete_knowledgebase Script.provider docs_arn "bedrock" "knowledge-base/kb1")
               docs_knowledge_base
      = removelast docs_trace ++ Called (DeleteKnowledgeBase "kb1") (Returned NoContent) :: [])
  /\ no_fault (removelast docs_trace).
Proof.
  destruct (@delete_knowledgebase_retains_then_deletes _ Script.provider docs_knowledge_base
              docs_arn "bedrock" "knowledge-base/kb1") as [Hretain Hlast].
  split; [reflexivity|]. split.
  - apply (Hretain (firstn 7 (api_events docs_trace)) (skipn 8 (api_events docs_trace))
             "kb1" "ds2" (Returned NoContent)).
    reflexivity.
  - split; [reflexivity|].
    apply (Hlast (removelast docs_trace) [] "kb1" (Returned NoContent)). reflexivity.
Defined.

(** ** Bucket deletion: every page is emptied first *)

Lemma pages_listed_app t1 t2 : pages_listed (t1 ++ t2) = pages_listed t1 ++ pages_listed t2.
Proof.
  induction t1 as [|ev t1 IH]; simpl; auto.
  destruct ev as [| | |[] []]; simpl; rewrite ?IH; reflexivity.
Qed.

Section BucketDeletion.

Variable W : Type.
Variable P : provider W.

Lemma run_emit {B} ev (k : unit -> M W B) st :
  bind (emit ev) k st = k tt {| world := world st; log := log st ++ [ev] |}.
Proof. reflexivity. Qed.

Lemma page_loop (bucket : string) (body : response -> M W unit) :
  (forall page, body page =
     match Key.Contents page with
     | Some contents => call P (DeleteObjects bucket (map obj_Key contents))
     | None => ret tt
     end) ->
  forall pages st, exists ext,
    log (snd (for_pager (ListObjectsV2 bucket) pages body st)) = log st ++ ext
    /\ (forall c o, In (Called c o) ext -> object_call c = true)
    /\ (fst (for_pager (ListObjectsV2 bucket) pages body st) = Ok tt ->
        no_fault ext
        /\ calls_of ext = flat_map (page_calls bucket) (pages_listed ext)
        /\ exhausted P bucket pages (world st) (pages_listed ext)).
Proof.
  intros Hbody. induction pages as [|e|page next IH]; intros st; simpl for_pager.
  - exists []. simpl. rewrite app_nil_r. repeat split; auto; tauto.
  - eexists [_]. rewrite run_emit. simpl. split; [reflexivity|]. split.
    + intros c o [H|[]]. now injection H as <- _.
    + discriminate.
  - rewrite run_emit, Hbody. simpl world. simpl log.
    unfold page_calls.
    destruct (Key.Contents page) as [contents|] eqn:Ec.
    + rewrite run_call. simpl world. simpl log.
      destruct (serve P (world st) _) as [[r|e] w1] eqn:Es; rewrite <- !app_assoc; simpl app.
      * match goal with
        | |- context [for_pager _ (next ?w') body ?s] =>
            destruct (IH w' s) as (ext & Hlog & Hcalls & Hok)
        end.
        simpl in Hlog.
        eexists ([_; _] ++ ext). rewrite Hlog, <- app_assoc. split; [reflexivity|]. split.
        -- intros c o Hin. apply in_app_or in Hin. destruct Hin as [Hin|Hin]; [|eauto].
           destruct Hin as [H|[H|[]]]; now injection H as <- _.
        -- intros H. destruct (Hok H) as (Hnf & Hc & Hex). split; [|split].
           ++ apply no_fault_app; [reflexivity | exact Hnf].
           ++ simpl. rewrite Ec. simpl. now rewrite Hc.
           ++ simpl. rewrite Ec, Es. simpl. split; [reflexivity | exact Hex].
      * eexists [_; _]. simpl. split; [reflexivity|]. split.
        -- intros c o [H|[H|[]]]; now injection H as <- _.
        -- discriminate.
    + rewrite run_ret. cbv beta. simpl world.
      match goal with
      | |- context [for_pager _ (next ?w') body ?s] =>
          destruct (IH w' s) as (ext & Hlog & Hcalls & Hok)
      end.
      simpl in Hlog.
      eexists ([_] ++ ext). rewrite Hlog, <- app_assoc. split; [reflexivity|]. split.
      * intros c o Hin. apply in_app_or in Hin. destruct Hin as [Hin|Hin]; [|eauto].
        destruct Hin as [H|[]]. now injection H as <- _.
      * intros H. destruct (Hok H) as (Hnf & Hc & Hex). split; [|split].
        -- apply no_fault_app; [reflexivity | exact Hnf].
        -- simpl. rewrite Ec. simpl. now rewrite Hc.
        -- simpl. rewrite Ec. simpl. split; [reflexivity | exact Hex].
Qed.

(** C8: when [delete_bucket] calls [delete_bucket] of the service, that
    call is on the bucket swept, it is the last event of its run, and
    everything before it went without a fault. The pages listed before it
    are the pages the paginator delivers for that bucket, all of them up to
    the end of the listing, and the calls before it are, page by page, the
    listing itself followed, when the page has contents, by the batch
    deletion of the keys of that page. *)
Theorem delete_bucket_empties_first (w : W) (arn service resource : string)
    (before after : list event) (bucket : string) (o : outcome) :
  trace_of (delete_bucket P arn service resource) w
  = before ++ Called (DeleteBucket bucket) o :: after ->
  after = []
  /\ no_fault before
  /\ calls_of before = flat_map (page_calls bucket) (pages_listed before)
  /\ bucket = resource
  /\ exhausted P bucket (paginate P w (ListObjectsV2 bucket)) w (pages_listed before).
Proof.
  unfold trace_of, delete_bucket, start. intros H.
  destruct (String.eqb service "s3"); [|absent H].
  steps H. unfold for_each_page in H.
  match type of H with
  | context [bind (fun st => for_pager ?c (paginate P (world st) ?c) ?b st) _ ?s] =>
      destruct (@page_loop resource b (fun _ => eq_refl) (paginate P (world s) c) s)
        as (ext & Hlog & Hcalls & Hok);
      rewrite run_bind in H;
      destruct (for_pager c (paginate P (world s) c) b s) as [[[]|e] [w1 lg]] eqn:E;
      simpl in Hlog, Hok; subst lg
  end.
  2:{ absent H. }
  destruct (Hok eq_refl) as (Hnf & Hc & Hex). clear Hok.
  steps H.
  assert (Hsplit : before = Printed ("Deleting: " ++ arn)%string
                            :: Printed "-> Deleting all contained objects"
                            :: ext ++ [Printed ("-> Deleting S3 bucket: " ++ resource)%string]
                   /\ bucket = resource /\ after = []).
  { destruct (serve P w1 _) as [[r|e] w2]; simpl in H;
      rewrite !app_comm_cons in H; apply app_last_split in H;
      (destruct H as [(Hb & Hx & Ha) | Hin]; [|exfalso; refute Hin]);
      injection Hx as -> _; auto. }
  clear H. destruct Hsplit as (-> & -> & ->).
  split; [reflexivity|]. split; [|split; [|split; [reflexivity|]]].
  - unfold no_fault in *. simpl. rewrite forallb_app, Hnf. reflexivity.
  - simpl. rewrite calls_of_app, pages_listed_app. simpl. now rewrite !app_nil_r.
  - simpl. rewrite pages_listed_app. simpl. rewrite app_nil_r. exact Hex.
Qed.

End BucketDeletion.

Lemma delete_bucket_empties_first_witness :
  trace_of (delete_bucket Script.provider "arn:aws:s3:::my-bucket" "s3" "my-bucket")
           two_page_bucket
  = before_bucket_deletion ++ Called (DeleteBucket "my-bucket") (Returned NoContent) :: []
  /\ ([] = @nil event
      /\ no_fault before_bucket_deletion
      /\ calls_of before_bucket_deletion
         = flat_map (page_calls "my-bucket") (pages_listed before_bucket_deletion)
      /\ "my-bucket" = "my-bucket"
      /\ exhausted Script.provider "my-bucket"
           (paginate Script.provider two_page_bucket (ListObjectsV2 "my-bucket"))
           two_page_bucket (pages_listed before_bucket_deletion)).
Proof.
  split; [reflexivity|].
  apply (@delete_bucket_empties_first _ Script.provider two_page_bucket
           "arn:aws:s3:::my-bucket" "s3" "my-bucket" before_bucket_deletion []
           "my-bucket" (Returned NoContent)).
  reflexivity.
Defined.

Example two_page_bucket_calls :
  calls_of before_bucket_deletion
  = [ListObjectsV2 "my-bucket"; DeleteObjects "my-bucket" ["a.txt"; "b.txt"];
     ListObjectsV2 "my-bucket"; DeleteObjects "my-bucket" ["c.txt"]].
Proof. reflexivity. Qed.


(** ** The create-or-get helpers *)

Section CreateOrGet.

Variable W : Type.
Variable P : provider W.
Variable region_name account_id : string.
Variable standard_tags standard_tags_kv : list (string * string).
Variable json_dumps : json -> string.


End CreateOrGet.



(** * Further properties of the code *)

(** ** [parse_arn]: the grammar of identifiers *)

Lemma split_segments (sep : ascii) (s : string) :
  length (Py.split sep s) = S (occurrences sep s).
Proof.
  induction s as [|a s IH]; simpl; [reflexivity|].
  destruct (Ascii.eqb a sep); simpl; [now rewrite IH|].
  destruct (Py.split sep s); simpl in *; congruence.
Qed.

Lemma split_free (sep : ascii) (a b : string) :
  occurrences sep a = 0 ->
  Py.split sep (a ++ String sep b)%string = a :: Py.split sep b.
Proof.
  induction a as [|c a IH]; simpl; intros H.
  - now rewrite Ascii.eqb_refl.
  - destruct (Ascii.eqb c sep); [discriminate|]. simpl in H. now rewrite IH.
Qed.

Lemma join_split (sep : ascii) (s : string) :
  Py.join (String sep "") (Py.split sep s) = s.
Proof.
  unfold Py.join. induction s as [|a s IH]; simpl; [reflexivity|].
  destruct (Ascii.eqb_spec a sep) as [->|_].
  - destruct (Py.split sep s) eqn:E.
    + pose proof (split_length sep s) as H. rewrite E in H. simpl in H. lia.
    + simpl. simpl in IH. now rewrite IH.
  - destruct (Py.split sep s) as [|seg segs] eqn:E.
    + pose proof (split_length sep s) as H. rewrite E in H. simpl in H. lia.
    + destruct segs; simpl in *; now rewrite <- IH.
Qed.

Lemma join_app_tail (sep : string) (l1 l2 : list string) :
  l2 <> [] ->
  Py.join sep (l1 ++ l2) = Py.join sep (l1 ++ [Py.join sep l2]).
Proof.
  unfold Py.join. intros H2. induction l1 as [|x l1 IH]; simpl.
  - reflexivity.
  - destruct (l1 ++ l2) eqn:E1; [destruct l1, l2; simpl in *; congruence|].
    destruct (l1 ++ [String.concat sep l2]) eqn:E2; [destruct l1; discriminate|].
    now rewrite IH.
Qed.

(** X1: the grammar [prefix:partition:service:region:account:rest]. When
    the five leading fields hold no colon, [parse_arn] returns the service
    field and the whole of [rest], colons included. *)
Theorem parse_arn_fixed_grammar (prefix partition service region account rest : string) :
  occurrences ":" prefix = 0 -> occurrences ":" partition = 0 ->
  occurrences ":" service = 0 -> occurrences ":" region = 0 ->
  occurrences ":" account = 0 ->
  parse_arn (prefix ++ ":" ++ partition ++ ":" ++ service ++ ":" ++ region ++ ":"
             ++ account ++ ":" ++ rest)%string
  = Ok (service, rest).
Proof.
  intros H1 H2 H3 H4 H5. unfold parse_arn.
  change (":" ++ ?x)%string with (String ":" x).
  repeat match goal with
         | |- context [(?a ++ ":" ++ ?b)%string] =>
             change (a ++ ":" ++ b)%string with (a ++ String ":" b)%string
         end.
  rewrite !split_free by assumption. simpl.
  now rewrite (join_split ":" rest).
Qed.

Lemma parse_arn_fixed_grammar_witness :
  parse_arn ("arn" ++ ":" ++ "aws" ++ ":" ++ "lambda" ++ ":" ++ "us-east-1" ++ ":"
             ++ "123456789012" ++ ":" ++ "function:booking:7")%string
  = Ok ("lambda", "function:booking:7").
Proof.
  apply (@parse_arn_fixed_grammar "arn" "aws" "lambda" "us-east-1" "123456789012"
           "function:booking:7"); reflexivity.
Defined.

(** X2: nothing is lost. For an identifier with at least five colons, the
    first five segments and the resource that [parse_arn] returns, joined
    by colons, are the identifier again; the service is the third segment. *)
Theorem parse_arn_reassembles (arn service resource : string) :
  5 <= occurrences ":" arn ->
  parse_arn arn = Ok (service, resource) ->
  arn = Py.join ":" (firstn 5 (Py.split ":" arn) ++ [resource])
  /\ nth_error (Py.split ":" arn) 2 = Some service.
Proof.
  unfold parse_arn. intros Hc H.
  pose proof (split_segments ":" arn) as Hlen.
  destruct (nth_error (Py.split ":" arn) 2) as [s|] eqn:E; [|discriminate].
  injection H as -> <-. split; [|reflexivity].
  rewrite <- join_app_tail.
  - rewrite firstn_skipn. symmetry. apply (join_split ":").
  - intros Hnil.
    assert (Hz : length (skipn 5 (Py.split ":" arn)) = 0)
      by (apply length_zero_iff_nil; exact Hnil).
    rewrite length_skipn in Hz. lia.
Qed.

Lemma parse_arn_reassembles_witness :
  "arn:aws:iam::123456789012:role/my-role"
  = Py.join ":" (firstn 5 (Py.split ":" "arn:aws:iam::123456789012:role/my-role")
                 ++ ["role/my-role"])
  /\ nth_error (Py.split ":" "arn:aws:iam::123456789012:role/my-role") 2 = Some "iam".
Proof.
  apply (@parse_arn_reassembles "arn:aws:iam::123456789012:role/my-role" "iam" "role/my-role");
    [simpl; lia | reflexivity].
Defined.

Lemma parse_arn_few_colons (arn : string) :
  occurrences ":" arn < 2 -> parse_arn arn = Raised IndexError.
Proof.
  unfold parse_arn. pose proof (split_segments ":" arn) as Hlen. intros H.
  destruct (nth_error (Py.split ":" arn) 2) as [s|] eqn:E; [|reflexivity].
  assert (2 < length (Py.split ":" arn)) by (apply nth_error_Some; congruence). lia.
Qed.

(** X3: [parse_arn] raises, and then [IndexError], exactly for the
    identifiers with fewer than two colons; every other string is parsed. *)
Theorem parse_arn_raises_iff (arn : string) :
  (occurrences ":" arn < 2 <-> parse_arn arn = Raised IndexError)
  /\ (2 <= occurrences ":" arn <-> exists service resource, parse_arn arn = Ok (service, resource)).
Proof.
  unfold parse_arn. pose proof (split_segments ":" arn) as Hlen.
  destruct (nth_error (Py.split ":" arn) 2) as [s|] eqn:E.
  - assert (2 < length (Py.split ":" arn)) by (apply nth_error_Some; congruence).
    repeat split; intros; try discriminate; try lia; eauto.
  - apply nth_error_None in E.
    repeat split; intros; try lia; auto.
    destruct H as (? & ? & H). discriminate H.
Qed.


(** ** The sweep on identifiers it cannot use *)

Section SweepEdges.

Variable W : Type.
Variable P : provider W.

Lemma unmatched_handler_skips (arn service resource : string) :
  Forall (fun action =>
            matches (fst action) service resource = false ->
            forall st, snd action arn service resource st = (Ok tt, st))
         (delete_actions P).
Proof.
  unfold delete_actions.
  repeat (apply Forall_cons; [|]); [..|apply Forall_nil]; simpl fst; simpl snd;
    unfold matches, pattern_of, delete_guardrail, delete_collection, delete_knowledgebase,
      delete_bucket, delete_function, delete_roles, delete_policy, delete_table, delete_agent;
    simpl fst; simpl snd;
    (destruct (String.eqb service _); [|reflexivity]);
    try (destruct (Py.re_match_group _ resource); [|reflexivity]);
    simpl; discriminate.
Qed.

Lemma sweep_of_skips (actions : list (action_name * (string -> string -> string -> M W unit)))
    (arns : list string) :
  (forall arn, In arn arns ->
     exists service resource,
       parse_arn arn = Ok (service, resource)
       /\ Forall (fun action => forall st, snd action arn service resource st = (Ok tt, st))
                 actions) ->
  forall st,
    sweep actions arns st
    = (Ok tt, {| world := world st;
                 log := log st ++ map (fun p => Entered (fst p) (snd p))
                                      (list_prod (map fst actions) arns) |}).
Proof.
  intros Hskip. unfold sweep.
  induction actions as [|action actions IH]; intros st; simpl.
  - rewrite app_nil_r. now destruct st.
  - assert (Hinner : forall l st,
              incl l arns ->
              for_each l
                (fun arn =>
                   bind (@lift W _ (parse_arn arn))
                     (fun x => let (service, resource) := x in
                               bind (emit (Entered (fst action) arn))
                                 (fun _ => snd action arn service resource))) st
              = (Ok tt, {| world := world st;
                           log := log st ++ map (fun p => Entered (fst p) (snd p))
                                                (map (fun y => (fst action, y)) l) |})).
    { induction l as [|arn l IHl]; intros st' Hl; simpl.
      - rewrite app_nil_r. now destruct st'.
      - destruct (Hskip arn (Hl arn (or_introl eq_refl))) as (service & resource & Hp & Hs).
        apply Forall_inv in Hs.
        rewrite run_bind, run_bind, Hp. simpl. rewrite run_emit, Hs.
        rewrite IHl by (intros x Hx; apply Hl; now right).
        simpl. now rewrite <- app_assoc. }
    rewrite run_bind, (Hinner arns st (incl_refl _)).
    rewrite IH.
    + simpl. now rewrite map_app, <- app_assoc.
    + intros arn Hin. destruct (Hskip arn Hin) as (service & resource & Hp & Hs).
      exists service, resource. split; [exact Hp|]. now apply Forall_inv_tail in Hs.
Qed.

(** X4: identifiers that parse but match no handler (a service the script
    does not know) are skipped silently: every handler is tried on each of
    them, nothing is printed, no call is made, the provider is left as it
    was and the sweep ends normally. *)
Theorem sweep_skips_unmatched (w : W) (arns : list string) :
  (forall arn, In arn arns ->
     exists service resource,
       parse_arn arn = Ok (service, resource)
       /\ forall action, matches action service resource = false) ->
  delete_resources P arns (start w)
  = (Ok tt, {| world := w;
               log := map (fun p => Entered (fst p) (snd p)) (list_prod action_order arns) |}).
Proof.
  intros H. unfold delete_resources. rewrite sweep_of_skips.
  - reflexivity.
  - intros arn Hin. destruct (H arn Hin) as (service & resource & Hp & Hm).
    exists service, resource. split; [exact Hp|].
    pose proof (unmatched_handler_skips arn service resource) as Hs.
    eapply Forall_impl; [|exact Hs]. intros action Ha. apply Ha, Hm.
Qed.


End SweepEdges.

Lemma sweep_skips_unmatched_witness :
  delete_resources Cloud.provider ["arn:aws:sns:us-east-1:123456789012:my-topic"]
    (start Scenario.all_three)
  = (Ok tt,
     {| world := Scenario.all_three;
        log := map (fun p => Entered (fst p) (snd p))
                   (list_prod action_order ["arn:aws:sns:us-east-1:123456789012:my-topic"]) |}).
Proof.
  apply (@sweep_skips_unmatched _ Cloud.provider Scenario.all_three
           ["arn:aws:sns:us-east-1:123456789012:my-topic"]).
  intros arn [<-|[]]. exists "sns", "my-topic".
  split; [reflexivity | intros []; reflexivity].
Defined.



(** ** Role deletion ([delete_roles]) *)

Lemma no_fault_in t c e : no_fault t -> ~ In (Called c (Fault e)) t.
Proof.
  unfold no_fault. intros H Hin. rewrite forallb_forall in H.
  specialize (H _ Hin). discriminate H.
Qed.

Lemma unique_occurrence {A} (p : A -> bool) (b1 a1 b2 a2 : list A) (x y : A) :
  b1 ++ x :: a1 = b2 ++ y :: a2 ->
  p x = true -> p y = true ->
  forallb (fun z => negb (p z)) b2 = true ->
  forallb (fun z => negb (p z)) a2 = true ->
  b1 = b2 /\ x = y /\ a1 = a2.
Proof.
  revert b2. induction b1 as [|z b1 IH]; intros [|z2 b2] H Hx Hy Hb Ha; simpl in *.
  - injection H as -> ->. auto.
  - injection H as <- _. apply andb_true_iff in Hb. destruct Hb as [Hz _].
    rewrite Hx in Hz. discriminate Hz.
  - injection H as -> H. rewrite forallb_forall in Ha.
    assert (Hin : In x a2) by (rewrite <- H; apply in_elt).
    apply Ha in Hin. rewrite Hx in Hin. discriminate Hin.
  - injection H as -> H. apply andb_true_iff in Hb. destruct Hb as [_ Hb].
    destruct (IH b2 H Hx Hy Hb Ha) as (-> & -> & ->). auto.
Qed.

Section Loops.

Variable W : Type.
Variable P : provider W.

Lemma run_try {A B} (m handler : M W A) catches (k : A -> M W B) st :
  bind (try_except m catches handler) k st
  = match m st with
    | (Ok a, st') => k a st'
    | (Raised e, st') => if catches e then bind handler k st' else (Raised e, st')
    end.
Proof.
  unfold bind, try_except. destruct (m st) as [[a|e] st']; [reflexivity|].
  destruct (catches e); reflexivity.
Qed.

(** The loop that announces and deletes each element, in full: its calls
    are of the given [kind]; it ends normally after a fault-free deletion
    of every element, or with the fault of its last call. *)
Lemma delete_loop_run {X} (kind : api_call -> bool) (body : X -> M W unit) (l : list X)
    (st : state W) (msg : X -> string) (c : X -> api_call) :
  (forall x, body x = (print (msg x) ;; call P (c x))) ->
  (forall x, kind (c x) = true) ->
  exists ext,
    log (snd (for_each l body st)) = log st ++ ext
    /\ (forall c' o, In (Called c' o) ext -> kind c' = true)
    /\ match fst (for_each l body st) with
       | Ok _ => calls_of ext = map c l /\ no_fault ext
       | Raised e =>
           exists pre x, ext = pre ++ [Called (c x) (Fault e)] /\ no_fault pre
                         /\ incl (calls_of pre) (map c l)
       end.
Proof.
  intros Hbody Hkind. revert st. induction l as [|x l IH]; intros st; simpl for_each.
  - exists []. simpl. rewrite app_nil_r. repeat split; auto; try tauto.
  - rewrite Hbody, run_assoc, run_print, run_call. simpl world. simpl log.
    destruct (serve P (world st) (c x)) as [[r|e] w']; rewrite <- !app_assoc; simpl app.
    + match goal with
      | |- context [for_each l body ?s] => destruct (IH s) as (ext & Hlog & Hin & Hres)
      end.
      simpl in Hlog.
      exists ([Printed (msg x); Called (c x) (Returned r)] ++ ext).
      rewrite Hlog, <- !app_assoc. simpl. split; [reflexivity|]. split.
      * intros c' o [H|[H|H]]; [discriminate H | injection H as <- _; apply Hkind | eauto].
      * destruct (fst (for_each l body _)) as [[]|e].
        -- destruct Hres as [Hc Hn]. split; [now f_equal | exact Hn].
        -- destruct Hres as (pre & y & -> & Hn & Hincl).
           exists (Printed (msg x) :: Called (c x) (Returned r) :: pre), y.
           repeat split; auto. simpl. intros a [<-|Ha]; [now left | right; auto].
    + exists [Printed (msg x); Called (c x) (Fault e)].
      simpl. split; [reflexivity|]. split.
      * intros c' o [H|[H|[]]]; [discriminate H | injection H as <- _; apply Hkind].
      * exists [Printed (msg x)], x. repeat split. intros a [].
Qed.

(** The guarded block of [delete_roles]: the listing of the instance
    profiles of the role and the removal of the role from each. A fault is
    the last event of the block and the exception it ends with. *)
Lemma instance_profile_block (role_name : string) (block : M W unit) (st : state W) :
  block =
    (instance_profiles <- (r <- invoke P (ListInstanceProfilesForRole role_name) ;;
                           item "InstanceProfiles" Key.InstanceProfiles r) ;;
     for_each instance_profiles (fun profile =>
       print ("-> Removing role from instance profile: " ++ ip_InstanceProfileName profile) ;;
       call P (RemoveRoleFromInstanceProfile (ip_InstanceProfileName profile) role_name))) ->
  exists ext,
    log (snd (block st)) = log st ++ ext
    /\ (forall c o, In (Called c o) ext -> instance_profile_call c = true)
    /\ (exists rest, calls_of ext = ListInstanceProfilesForRole role_name :: rest
                     /\ forall c, In c rest ->
                          exists p, c = RemoveRoleFromInstanceProfile p role_name)
    /\ (forall c e, In (Called c (Fault e)) ext ->
          fst (block st) = Raised e
          /\ exists pre, ext = pre ++ [Called c (Fault e)] /\ no_fault pre).
Proof.
  intros ->. rewrite run_assoc, run_invoke.
  destruct (serve P (world st) _) as [[r|e] w1].
  2:{ eexists [_]. simpl. split; [reflexivity|]. split; [|split].
      - intros c o [H|[]]. now injection H as <- _.
      - exists []. split; [reflexivity | intros ? []].
      - intros c e' [H|[]]. injection H as <- <-. split; [reflexivity|].
        exists []. split; reflexivity. }
  rewrite run_item.
  destruct (Key.InstanceProfiles r) as [profiles|].
  2:{ eexists [_]. simpl. split; [reflexivity|]. split; [|split].
      - intros c o [H|[]]. now injection H as <- _.
      - exists []. split; [reflexivity | intros ? []].
      - intros c e' [H|[]]. discriminate H. }
  match goal with
  | |- context [for_each profiles ?b ?s] =>
      destruct (@delete_loop_run _ instance_profile_call b profiles s
                  (fun profile => ("-> Removing role from instance profile: "
                                   ++ ip_InstanceProfileName profile)%string)
                  (fun profile => RemoveRoleFromInstanceProfile
                                    (ip_InstanceProfileName profile) role_name)
                  (fun _ => eq_refl) (fun _ => eq_refl))
        as (ext & Hlog & Hkind & Hres);
      destruct (for_each profiles b s) as [res st1]
  end.
  simpl in Hlog, Hres. simpl.
  exists (Called (ListInstanceProfilesForRole role_name) (Returned r) :: ext).
  rewrite Hlog, <- app_assoc. split; [reflexivity|]. split; [|split].
  - intros c o [H|H]; [now injection H as <- _ | eauto].
  - exists (calls_of ext). split; [reflexivity|].
    intros c Hc. destruct res as [[]|e].
    + destruct Hres as [Hcalls _]. rewrite Hcalls in Hc. apply in_map_iff in Hc.
      destruct Hc as (p & <- & _). eauto.
    + destruct Hres as (pre & x & -> & _ & Hincl). rewrite calls_of_app in Hc.
      apply in_app_or in Hc. destruct Hc as [Hc|[<-|[]]]; [|eauto].
      apply Hincl, in_map_iff in Hc. destruct Hc as (p & <- & _). eauto.
  - intros c e' [H|Hin]; [discriminate H|].
    destruct res as [[]|e].
    + destruct Hres as [_ Hnf]. exfalso. exact (no_fault_in _ _ Hnf Hin).
    + destruct Hres as (pre & x & -> & Hnf & _).
      apply in_app_or in Hin. destruct Hin as [Hin|[H|[]]].
      * exfalso. exact (no_fault_in _ _ Hnf Hin).
      * injection H as <- <-. split; [reflexivity|].
        exists (Called (ListInstanceProfilesForRole role_name) (Returned r) :: pre).
        split; [reflexivity | exact Hnf].
Qed.

End Loops.

Section RoleDeletion.

Variable W : Type.
Variable P : provider W.

(** X6: when [delete_roles] calls [delete_role], that call is the last
    event of its run. Before it the managed policies were listed and each
    one detached, the inline policies were listed and each one deleted, the
    instance profiles were asked for (and the role possibly removed from
    some), in that order; the only faults before it are [ClientError]s of
    the instance-profile calls. *)
Theorem delete_roles_detaches_first (w : W) (arn service resource : string)
    (before after : list event) (role : string) (o : outcome) :
  trace_of (delete_roles P arn service resource) w
  = before ++ Called (DeleteRole role) o :: after ->
  after = []
  /\ exists attached inline removals,
       In (Called (ListAttachedRolePolicies role) (Returned (AttachedPolicies attached))) before
       /\ In (Called (ListRolePolicies role) (Returned (PolicyNames inline))) before
       /\ calls_of before
          = [ListAttachedRolePolicies role]
            ++ map (fun p => DetachRolePolicy role (ap_PolicyArn p)) attached
            ++ [ListRolePolicies role]
            ++ map (fun n => DeleteRolePolicy role n) inline
            ++ ListInstanceProfilesForRole role :: removals
       /\ (forall c, In c removals -> exists p, c = RemoveRoleFromInstanceProfile p role)
       /\ (forall c e, In (Called c (Fault e)) before -> swallowed c e = true).
Proof.
  unfold trace_of, delete_roles, start. intros H.
  destruct (String.eqb service "iam"); [|absent H].
  destruct (Py.re_match_group "role/" resource) as [role_name0|]; [|absent H].
  cbv zeta in H.
  remember (if Py.startswith role_name0 "service-role/"
            then Py.remove_all "service-role/" role_name0 else role_name0) as role_name.
  clear Heqrole_name.
  steps H.
  destruct (serve P w _) as [[r|e] w1]; [|absent H].
  steps H.
  destruct r; try absent H. simpl Key.AttachedPolicies in H. cbv iota in H.
  run_loop H (@delete_loop W P attached_policy policy_removal); [|absent H].
  steps H.
  destruct (serve P _ _) as [[r|e] w2]; [|absent H].
  steps H.
  destruct r; try absent H. simpl Key.PolicyNames in H. cbv iota in H.
  run_loop H (@delete_loop W P string policy_removal); [|absent H].
  cbv beta in H. rewrite run_try in H.
  match type of H with
  | context [match ?blk ?s with _ => _ end] =>
      destruct (@instance_profile_block W P role_name blk s eq_refl)
        as (extb & Hlogb & Hkindb & (removals & Hcallsb & Hremovals) & Hfaultb);
      destruct (blk s) as [res [wb lgb]] eqn:Eb; simpl in Hlogb, Hfaultb; subst lgb
  end.
  assert (Hcaught : (res = Ok tt
                     \/ exists e, res = Raised e /\ is_ClientError e = true)
                    \/ exists e, res = Raised e /\ is_ClientError e = false).
  { destruct res as [[]|e]; [auto|]. destruct (is_ClientError e) eqn:Hce; eauto. }
  destruct Hcaught as [Hgo | (e & -> & Hce)].
  2:{ rewrite Hce in H. absent H. }
  assert (Hrun : exists o', before ++ Called (DeleteRole role) o :: after
                 = (Printed ("Deleting: " ++ arn)%string
                    :: Called (ListAttachedRolePolicies role_name) (Returned (AttachedPolicies l))
                    :: (((ext ++ [Called (ListRolePolicies role_name) (Returned (PolicyNames l0))])
                         ++ ext0) ++ extb)
                       ++ [Printed ("-> Deleting role: " ++ role_name)%string])
                   ++ [Called (DeleteRole role_name) o']).
  { destruct Hgo as [-> | (e & -> & Hce)]; [|rewrite Hce in H]; steps H;
      destruct (serve P wb _) as [[r|e'] w3]; simpl in H;
      eexists; symmetry; exact H. }
  clear H. destruct Hrun as [o' H]. symmetry in H.
  apply app_last_split in H. destruct H as [(-> & Hx & ->) | Hin]; [|exfalso; refute Hin].
  injection Hx as -> _. split; [reflexivity|].
  destruct Hok as [Hc Hf], Hok0 as [Hc0 Hf0].
  exists l, l0, removals. repeat split.
  - simpl; auto.
  - simpl. rewrite !in_app_iff. simpl. auto 10.
  - simpl. rewrite !calls_of_app. simpl. rewrite Hc, Hc0, Hcallsb, app_nil_r.
    rewrite <- !app_assoc. reflexivity.
  - exact Hremovals.
  - intros c e Hin. simpl in Hin. rewrite !in_app_iff in Hin. simpl in Hin.
    destruct Hin as [Hin|[Hin|Hin]]; try discriminate Hin.
    destruct Hin as [[[[Hin|[Hin|[]]]|Hin]|Hin]|[Hin|[]]]; try discriminate Hin.
    + exfalso. exact (no_fault_in _ _ Hf Hin).
    + exfalso. exact (no_fault_in _ _ Hf0 Hin).
    + unfold swallowed. rewrite (Hkindb _ _ Hin). simpl.
      destruct (Hfaultb _ _ Hin) as [Hres _].
      destruct Hgo as [-> | (e' & -> & Hce)]; [discriminate Hres|].
      injection Hres as ->. exact Hce.
Qed.

End RoleDeletion.


Lemma delete_roles_detaches_first_witness :
  trace_of (delete_roles Script.provider
              "arn:aws:iam::123456789012:role/my-role" "iam" "role/my-role") busy_role
  = before_role_deletion ++ Called (DeleteRole "my-role") (Returned NoContent) :: []
  /\ calls_of before_role_deletion
     = [ListAttachedRolePolicies "my-role";
        DetachRolePolicy "my-role" "arn:aws:iam::aws:policy/ReadOnlyAccess";
        ListRolePolicies "my-role";
        DeleteRolePolicy "my-role" "inline-logs";
        ListInstanceProfilesForRole "my-role";
        RemoveRoleFromInstanceProfile "web" "my-role"]
  /\ (forall c e, In (Called c (Fault e)) before_role_deletion -> swallowed c e = true).
Proof.
  split; [reflexivity|]. split; [reflexivity|].
  destruct (@delete_roles_detaches_first _ Script.provider busy_role
              "arn:aws:iam::123456789012:role/my-role" "iam" "role/my-role"
              before_role_deletion [] "my-role" (Returned NoContent) eq_refl)
    as (_ & attached & inline & removals & _ & _ & _ & _ & Hf).
  exact Hf.
Defined.

(** ** Role deletion: a refused instance-profile call is passed over *)

Lemma no_refusal_of_removals ext :
  (forall c o, In (Called c o) ext -> policy_removal c = true) ->
  forallb (fun ev => negb (instance_profile_refusal ev)) ext = true.
Proof.
  intros H. apply forallb_forall. intros [| | |c o] Hin; try reflexivity.
  apply H in Hin. destruct c; try discriminate Hin; destruct o as [|[]]; reflexivity.
Qed.

Lemma no_refusal_of_no_fault t :
  no_fault t -> forallb (fun ev => negb (instance_profile_refusal ev)) t = true.
Proof.
  unfold no_fault. rewrite !forallb_forall. intros H ev Hin. specialize (H ev Hin).
  destruct ev as [| | |c [|e]]; try reflexivity. discriminate H.
Qed.

Section RoleTolerance.

Variable W : Type.
Variable P : provider W.

Ltac refusal H Hc :=
  match type of H with
  | _ \/ _ => destruct H as [H|H]; [refusal H Hc | refusal H Hc]
  | False => exact H
  | _ = _ => first [discriminate H | injection H as <- _; discriminate Hc]
  | In _ (_ ++ _) => apply in_app_or in H; refusal H Hc
  | In _ (_ :: _) => destruct H as [H|H]; [refusal H Hc | refusal H Hc]
  | In _ [] => destruct H
  | In (Called ?c _) ?ext =>
      match goal with
      | Hcalls : forall c o, In (Called c o) ext -> _ = true |- _ =>
          apply Hcalls in H; destruct c; discriminate
      end
  end.

Ltac unrefused H Hc := simpl in H; apply in_middle in H; exfalso; refusal H Hc.

(** X7: a [ClientError] answered to one of the instance-profile calls of
    [delete_roles] does not stop the handler: directly after it the role
    deletion is announced and [delete_role] is called, and that call ends
    the run. The failed call is the listing of the role's instance profiles
    or a removal of that role from one of them. *)
Theorem delete_roles_passes_over_refusal (w : W) (arn service resource : string)
    (before after : list event) (c : api_call) (code : string) :
  trace_of (delete_roles P arn service resource) w
  = before ++ Called c (Fault (ClientError code)) :: after ->
  instance_profile_call c = true ->
  exists role o,
    after = [Printed ("-> Deleting role: " ++ role)%string; Called (DeleteRole role) o]
    /\ (c = ListInstanceProfilesForRole role
        \/ exists profile, c = RemoveRoleFromInstanceProfile profile role).
Proof.
  unfold trace_of, delete_roles, start. intros H Hc.
  destruct (String.eqb service "iam"); [|unrefused H Hc].
  destruct (Py.re_match_group "role/" resource) as [role_name0|]; [|unrefused H Hc].
  cbv zeta in H.
  remember (if Py.startswith role_name0 "service-role/"
            then Py.remove_all "service-role/" role_name0 else role_name0) as role_name.
  clear Heqrole_name.
  steps H.
  destruct (serve P w _) as [[r|e] w1]; [|unrefused H Hc].
  steps H.
  destruct r; try unrefused H Hc. simpl Key.AttachedPolicies in H. cbv iota in H.
  run_loop H (@delete_loop W P attached_policy policy_removal); [|unrefused H Hc].
  steps H.
  destruct (serve P _ _) as [[r|e] w2]; [|unrefused H Hc].
  steps H.
  destruct r; try unrefused H Hc. simpl Key.PolicyNames in H. cbv iota in H.
  run_loop H (@delete_loop W P string policy_removal); [|unrefused H Hc].
  cbv beta in H. rewrite run_try in H.
  match type of H with
  | context [match ?blk ?s with _ => _ end] =>
      destruct (@instance_profile_block W P role_name blk s eq_refl)
        as (extb & Hlogb & Hkindb & (removals & Hcallsb & Hremovals) & Hfaultb);
      destruct (blk s) as [res [wb lgb]] eqn:Eb; simpl in Hlogb, Hfaultb; subst lgb
  end.
  assert (Hin : In (Called c (Fault (ClientError code))) extb).
  { destruct res as [[]|e]; [|destruct (is_ClientError e) eqn:Hce]; steps H;
      try (destruct (serve P wb _) as [[r|e'] w3]; simpl in H);
      simpl in H; apply in_middle in H;
      repeat (first [ destruct H as [H|H]; [try discriminate H |]
                    | apply in_app_or in H; destruct H as [H|H] ]);
      try assumption; try (exfalso; refusal H Hc). }
  destruct (Hfaultb _ _ Hin) as (Hres & pre & -> & Hpre). simpl in Hres. subst res.
  simpl is_ClientError in H. cbv iota in H. steps H.
  assert (Hrole : c = ListInstanceProfilesForRole role_name
                  \/ exists profile, c = RemoveRoleFromInstanceProfile profile role_name).
  { rewrite calls_of_app in Hcallsb. simpl in Hcallsb.
    assert (Hcin : In c (ListInstanceProfilesForRole role_name :: removals)).
    { rewrite <- Hcallsb. apply in_or_app. right. left. reflexivity. }
    destruct Hcin as [<-|Hcin]; [left; reflexivity | right; exact (Hremovals _ Hcin)]. }
  destruct Hok as [_ Hf], Hok0 as [_ Hf0].
  assert (Hrun : exists o',
            before ++ Called c (Fault (ClientError code)) :: after
            = (Printed ("Deleting: " ++ arn)%string
               :: Called (ListAttachedRolePolicies role_name) (Returned (AttachedPolicies l))
               :: ext ++ Called (ListRolePolicies role_name) (Returned (PolicyNames l0))
               :: ext0 ++ pre)
              ++ Called c (Fault (ClientError code))
              :: [Printed ("-> Deleting role: " ++ role_name)%string;
                  Called (DeleteRole role_name) o']).
  { destruct (serve P wb _) as [[r|e'] w3]; simpl in H; eexists; rewrite <- H;
      simpl; rewrite <- !app_assoc; simpl; rewrite <- !app_assoc; reflexivity. }
  clear H. destruct Hrun as [o' H].
  apply unique_occurrence with (p := instance_profile_refusal) in H.
  - destruct H as (_ & _ & ->). exists role_name, o'. split; [reflexivity | exact Hrole].
  - simpl. exact Hc.
  - simpl. exact Hc.
  - simpl. rewrite !forallb_app. simpl. rewrite forallb_app.
    rewrite (no_refusal_of_no_fault Hf), (no_refusal_of_no_fault Hf0),
            (no_refusal_of_no_fault Hpre). reflexivity.
  - destruct o' as [|[]]; reflexivity.
Qed.

End RoleTolerance.

Lemma delete_roles_passes_over_refusal_witness :
  trace_of (delete_roles Script.provider
              "arn:aws:iam::123456789012:role/my-role" "iam" "role/my-role") profiles_denied
  = [Printed "Deleting: arn:aws:iam::123456789012:role/my-role";
     Called (ListAttachedRolePolicies "my-role") (Returned (AttachedPolicies []));
     Called (ListRolePolicies "my-role") (Returned (PolicyNames []))]
    ++ Called (ListInstanceProfilesForRole "my-role") (Fault (ClientError "AccessDenied"))
    :: [Printed "-> Deleting role: my-role";
        Called (DeleteRole "my-role") (Returned NoContent)]
  /\ instance_profile_call (ListInstanceProfilesForRole "my-role") = true
  /\ exists role o,
       [Printed "-> Deleting role: my-role";
        Called (DeleteRole "my-role") (Returned NoContent)]
       = [Printed ("-> Deleting role: " ++ role)%string; Called (DeleteRole role) o]
       /\ (ListInstanceProfilesForRole "my-role" = ListInstanceProfilesForRole role
           \/ exists profile,
                ListInstanceProfilesForRole "my-role"
                = RemoveRoleFromInstanceProfile profile role).
Proof.
  split; [reflexivity|]. split; [reflexivity|].
  exact (@delete_roles_passes_over_refusal _ Script.provider profiles_denied
           "arn:aws:iam::123456789012:role/my-role" "iam" "role/my-role"
           [Printed "Deleting: arn:aws:iam::123456789012:role/my-role";
            Called (ListAttachedRolePolicies "my-role") (Returned (AttachedPolicies []));
            Called (ListRolePolicies "my-role") (Returned (PolicyNames []))]
           [Printed "-> Deleting role: my-role";
            Called (DeleteRole "my-role") (Returned NoContent)]
           (ListInstanceProfilesForRole "my-role") "AccessDenied" eq_refl eq_refl).
Defined.


(** ** Role deletion: the [service-role/] path *)

Lemma strip_prefix_app p s r : Py.strip_prefix p s = Some r -> s = (p ++ r)%string.
Proof.
  revert s. induction p as [|a p IH]; intros s H; simpl in H.
  - injection H as ->. reflexivity.
  - destruct s as [|b s]; [discriminate H|].
    destruct (Ascii.eqb a b) eqn:Hab; [|discriminate H].
    apply Ascii.eqb_eq in Hab. subst b. rewrite (IH _ H). reflexivity.
Qed.

Lemma occurrences_app c s t :
  occurrences c (s ++ t)%string = occurrences c s + occurrences c t.
Proof.
  induction s as [|a s IH]; [reflexivity|].
  change (String a s ++ t)%string with (String a (s ++ t)%string).
  simpl occurrences. rewrite IH. lia.
Qed.

Lemma startswith_needs_slash s :
  occurrences "/" s = 0 -> Py.startswith s "service-role/" = false.
Proof.
  intros H. unfold Py.startswith.
  destruct (Py.strip_prefix "service-role/" s) as [r|] eqn:E; [|reflexivity].
  apply strip_prefix_app in E. subst s. rewrite occurrences_app in H.
  change (occurrences "/" "service-role/") with 1 in H. discriminate H.
Qed.

Lemma remove_from_free s :
  occurrences "/" s = 0 -> Py.remove_from "service-role/" 0 s = s.
Proof.
  induction s as [|a s IH]; intros H; [reflexivity|].
  unfold Py.remove_from; fold Py.remove_from.
  rewrite (startswith_needs_slash _ H).
  simpl occurrences in H. rewrite IH by lia. reflexivity.
Qed.

Lemma line_of_free s : occurrences Py.newline s = 0 -> Py.line_of s = s.
Proof.
  induction s as [|a s IH]; intros H; [reflexivity|].
  simpl in *. destruct (Ascii.eqb a Py.newline); [discriminate H|].
  rewrite IH by exact H. reflexivity.
Qed.

Section ServiceRolePath.

Variable W : Type.
Variable P : provider W.

(** X8: for a role name without a slash or a line break, [delete_roles]
    treats the resource [role/service-role/<name>] exactly as
    [role/<name>]: the same prints, the same calls on the role [<name>],
    the same result. *)
Theorem delete_roles_ignores_service_role_path (arn service name : string) (st : state W) :
  name <> EmptyString ->
  occurrences "/" name = 0 ->
  occurrences Py.newline name = 0 ->
  delete_roles P arn service ("role/service-role/" ++ name) st
  = delete_roles P arn service ("role/" ++ name) st.
Proof.
  intros Hne Hslash Hline. unfold delete_roles.
  assert (Hl : Py.re_match_group "role/" ("role/service-role/" ++ name)
               = Some ("service-role/" ++ name)%string).
  { unfold Py.re_match_group. cbv beta iota delta [String.append].
    simpl. rewrite (line_of_free _ Hline). reflexivity. }
  assert (Hr : Py.re_match_group "role/" ("role/" ++ name) = Some name).
  { unfold Py.re_match_group. cbv beta iota delta [String.append].
    simpl. rewrite (line_of_free _ Hline).
    destruct name; [contradiction Hne; reflexivity | reflexivity]. }
  rewrite Hl, Hr. cbv zeta.
  assert (Hs : Py.startswith ("service-role/" ++ name) "service-role/" = true).
  { cbv beta iota delta [String.append]. reflexivity. }
  assert (Hx : Py.remove_all "service-role/" ("service-role/" ++ name) = name).
  { unfold Py.remove_all. cbv beta iota delta [String.append].
    simpl. apply remove_from_free. exact Hslash. }
  rewrite Hs, Hx, (startswith_needs_slash _ Hslash). reflexivity.
Qed.

End ServiceRolePath.

Lemma delete_roles_ignores_service_role_path_witness :
  "AmazonBedrockExecutionRole" <> EmptyString
  /\ occurrences "/" "AmazonBedrockExecutionRole" = 0
  /\ occurrences Py.newline "AmazonBedrockExecutionRole" = 0
  /\ delete_roles Script.provider
       "arn:aws:iam::123456789012:role/service-role/AmazonBedrockExecutionRole" "iam"
       "role/service-role/AmazonBedrockExecutionRole" (start busy_role)
     = delete_roles Script.provider
         "arn:aws:iam::123456789012:role/service-role/AmazonBedrockExecutionRole" "iam"
         "role/AmazonBedrockExecutionRole" (start busy_role).
Proof.
  split; [discriminate|]. split; [reflexivity|]. split; [reflexivity|].
  apply (@delete_roles_ignores_service_role_path _ Script.provider
           "arn:aws:iam::123456789012:role/service-role/AmazonBedrockExecutionRole" "iam"
           "AmazonBedrockExecutionRole" (start busy_role));
    [discriminate | reflexivity | reflexivity].
Defined.


(** ** Policy deletion: the other versions first *)

Section PolicyDeletion.

Variable W : Type.
Variable P : provider W.

(** A loop that acts on the elements passing a test and skips the others
    is the loop over the elements that pass. *)
Lemma for_each_when {X} (p : X -> bool) (body : X -> M W unit) (l : list X) (st : state W) :
  for_each l (fun x => if p x then body x else ret tt) st = for_each (filter p l) body st.
Proof.
  revert st. induction l as [|x l IH]; intros st; [reflexivity|].
  simpl. destruct (p x); simpl.
  - rewrite !run_bind. destruct (body x st) as [[[]|e] st']; [apply IH | reflexivity].
  - rewrite run_bind. simpl. apply IH.
Qed.

Lemma run_when {X B} (p : X -> bool) (body : X -> M W unit) (l : list X)
    (k : unit -> M W B) (st : state W) :
  bind (for_each l (fun x => if p x then body x else ret tt)) k st
  = bind (for_each (filter p l) body) k st.
Proof. rewrite !run_bind, for_each_when. reflexivity. Qed.

(** X9: when [delete_policy] calls [delete_policy] on the provider, the
    call is on the swept identifier and is the last event of the run.
    Before it the versions of the policy were listed and every version
    that is not the default one was deleted, in the order listed and
    without a fault; the default version is never deleted on its own. *)
Theorem delete_policy_versions_first (w : W) (arn service resource : string)
    (before after : list event) (target : string) (o : outcome) :
  trace_of (delete_policy P arn service resource) w
  = before ++ Called (DeletePolicy target) o :: after ->
  after = [] /\ target = arn
  /\ exists versions,
       In (Called (ListPolicyVersions arn) (Returned (Versions versions))) before
       /\ calls_of before
          = ListPolicyVersions arn
            :: map (fun v => DeletePolicyVersion arn (pv_VersionId v))
                   (filter (fun v => negb (pv_IsDefaultVersion v)) versions)
       /\ no_fault before.
Proof.
  unfold trace_of, delete_policy, start. intros H.
  destruct (String.eqb service "iam"); [|absent H].
  destruct (Py.re_match_group "policy/" resource) as [policy_name|]; [|absent H].
  steps H.
  destruct (serve P w _) as [[r|e] w1]; [|absent H].
  steps H.
  destruct r; try absent H. simpl Key.Versions in H. cbv iota in H.
  rewrite (run_when (fun v => negb (pv_IsDefaultVersion v))) in H.
  run_loop H (@delete_loop W P policy_version version_deletion); [|absent H].
  steps H.
  destruct (serve P _ _) as [[r|e] w2]; simpl in H;
    rewrite !app_comm_cons in H;
    apply app_last_split in H;
    (destruct H as [(-> & Hx & ->) | Hin]; [|exfalso; refute Hin]);
    injection Hx as -> _; destruct Hok as [Hc Hf];
    (split; [reflexivity|]); (split; [reflexivity|]);
    exists l; (split; [simpl; auto|]);
    (split; [simpl; rewrite calls_of_app, Hc; simpl; rewrite app_nil_r; reflexivity|]);
    apply (@no_fault_app [_; _]); [reflexivity | |reflexivity|];
    apply no_fault_app; (exact Hf || reflexivity).
Qed.

End PolicyDeletion.

Lemma delete_policy_versions_first_witness :
  trace_of (delete_policy Script.provider
              "arn:aws:iam::123456789012:policy/logs" "iam" "policy/logs") versioned_policy
  = before_policy_deletion
    ++ Called (DeletePolicy "arn:aws:iam::123456789012:policy/logs") (Returned NoContent) :: []
  /\ calls_of before_policy_deletion
     = [ListPolicyVersions "arn:aws:iam::123456789012:policy/logs";
        DeletePolicyVersion "arn:aws:iam::123456789012:policy/logs" "v3";
        DeletePolicyVersion "arn:aws:iam::123456789012:policy/logs" "v1"]
  /\ no_fault before_policy_deletion.
Proof.
  split; [reflexivity|]. split; [reflexivity|].
  destruct (@delete_policy_versions_first _ Script.provider versioned_policy
              "arn:aws:iam::123456789012:policy/logs" "iam" "policy/logs"
              before_policy_deletion [] "arn:aws:iam::123456789012:policy/logs"
              (Returned NoContent) eq_refl)
    as (_ & _ & versions & _ & _ & Hf).
  exact Hf.
Defined.


(** ** Role teardown of the agent notebook ([delete_role_with_all_policies]) *)

Lemma only_no_fault kind t :
  (forall c, kind c = true -> instance_profile_call c = false) ->
  Forall (only kind) t -> Forall quiet t -> no_fault t.
Proof.
  intros Hkind Ha Hq. unfold no_fault. apply forallb_forall. intros ev Hin.
  rewrite Forall_forall in Ha, Hq. specialize (Ha ev Hin). specialize (Hq ev Hin).
  destruct ev as [| | |c [r|e]]; try reflexivity.
  simpl in Ha, Hq. unfold swallowed in Hq. rewrite (Hkind _ Ha) in Hq. discriminate Hq.
Qed.

Section Strict.

Variable W : Type.
Variable P : provider W.

Lemma always_serve (w : W) (c : api_call) : True -> (fun _ : W => True) (snd (serve P w c)).
Proof. auto. Qed.

(** A computation whose calls are of a kind that is not guarded anywhere:
    its run stops at the first fault. *)
Lemma strict_run {A} (kind : api_call -> bool) (m : M W A) (st : state W) :
  disciplined (fun _ => True) (only kind) m ->
  (forall c, kind c = true -> instance_profile_call c = false) ->
  exists ext,
    log (snd (m st)) = log st ++ ext
    /\ (forall c o, In (Called c o) ext -> kind c = true)
    /\ (no_fault ext
        \/ exists pre c e, ext = pre ++ [Called c (Fault e)] /\ no_fault pre
                           /\ fst (m st) = Raised e)
    /\ (forall a, fst (m st) = Ok a -> no_fault ext).
Proof.
  intros Hm Hkind. destruct (Hm st Logic.I) as (ext & Hlog & _ & Ha & Hp).
  exists ext. split; [exact Hlog|]. split.
  { intros c o Hin. rewrite Forall_forall in Ha. exact (Ha _ Hin). }
  split.
  - inversion Hp as [r t Hq | t c e Hq]; subst.
    + left. exact (only_no_fault Hkind Ha Hq).
    + right. exists t, c, e. apply Forall_app in Ha. destruct Ha as [Ha _].
      split; [reflexivity|]. split; [exact (only_no_fault Hkind Ha Hq) | congruence].
  - intros a Hok. rewrite Hok in Hp. apply propagated_ok in Hp.
    exact (only_no_fault Hkind Ha Hp).
Qed.

Lemma try_pass_log {A} (m : M W A) catches (a : A) st :
  log (snd (try_except m catches (ret a) st)) = log (snd (m st)).
Proof. unfold try_except. destruct (m st) as [[x|e] st']; [|destruct (catches e)]; reflexivity. Qed.

(** X10: a provider fault stops [delete_role_with_all_policies] at once:
    the refused call is the last event and no call before it was refused.
    A [NoSuchEntity] fault of any of its calls, not only of the calls on
    the role, makes it return normally at that point; every other fault
    leaves it as an exception. *)
Theorem delete_role_with_all_policies_stops_at_fault (w : W) (role_name : string)
    (before after : list event) (c : api_call) (e : exn) :
  trace_of (delete_role_with_all_policies P role_name) w
  = before ++ Called c (Fault e) :: after ->
  after = [] /\ no_fault before
  /\ outcome_of (delete_role_with_all_policies P role_name) w
     = if is_code "NoSuchEntity" e then Ok tt else Raised e.
Proof.
  unfold trace_of, outcome_of, delete_role_with_all_policies. intros H.
  rewrite try_pass_log in H.
  match type of H with
  | log (snd (?m _)) = _ =>
      assert (Hm : disciplined (fun _ : W => True) (only role_teardown_call) m)
        by discipline always_serve;
      destruct (@strict_run _ role_teardown_call m (start w) Hm)
        as (ext & Hlog & _ & Hfault & _);
        [intros []; simpl; congruence|];
      unfold try_except; destruct (m (start w)) as [res st']
  end.
  simpl in Hlog, Hfault, H. rewrite Hlog in H. subst ext.
  destruct Hfault as [Hnf | (pre & c' & e' & Hext & Hpre & ->)].
  { exfalso. apply (no_fault_in c e Hnf). apply in_elt. }
  symmetry in Hext. apply app_last_split in Hext.
  destruct Hext as [(-> & Hx & ->) | Hin]; [|exfalso; exact (no_fault_in _ _ Hpre Hin)].
  injection Hx as <- <-. split; [reflexivity|]. split; [exact Hpre|].
  destruct (is_code "NoSuchEntity" e); reflexivity.
Qed.

End Strict.

Lemma delete_role_with_all_policies_stops_at_fault_witness :
  trace_of (delete_role_with_all_policies Script.provider "booking-role") policy_gone
  = [Called (ListAttachedRolePolicies "booking-role")
       (Returned (AttachedPolicies
                    [{| ap_PolicyName := "booking-ba";
                        ap_PolicyArn := "arn:aws:iam::123456789012:policy/booking-ba" |}]))]
    ++ Called (DetachRolePolicy "booking-role" "arn:aws:iam::123456789012:policy/booking-ba")
         (Fault (ClientError "NoSuchEntity")) :: []
  /\ outcome_of (delete_role_with_all_policies Script.provider "booking-role") policy_gone
     = Ok tt.
Proof.
  split; [reflexivity|].
  destruct (@delete_role_with_all_policies_stops_at_fault _ Script.provider policy_gone
              "booking-role"
              [Called (ListAttachedRolePolicies "booking-role")
                 (Returned (AttachedPolicies
                    [{| ap_PolicyName := "booking-ba";
                        ap_PolicyArn := "arn:aws:iam::123456789012:policy/booking-ba" |}]))]
              []
              (DetachRolePolicy "booking-role" "arn:aws:iam::123456789012:policy/booking-ba")
              (ClientError "NoSuchEntity") eq_refl)
    as (_ & _ & Hout).
  exact Hout.
Defined.

Lemma no_role_deletion_of_policy_calls ext :
  (forall c o, In (Called c o) ext -> policy_teardown_call c = true) ->
  forallb (fun ev => negb (role_deletion ev)) ext = true.
Proof.
  intros H. apply forallb_forall. intros [| | |c o] Hin; try reflexivity.
  apply H in Hin. destruct c; try discriminate Hin; reflexivity.
Qed.

Section ManagedPolicies.

Variable W : Type.
Variable P : provider W.

Lemma policy_teardown_unguarded c :
  policy_teardown_call c = true -> instance_profile_call c = false.
Proof. destruct c; simpl; congruence. Qed.

(** The loop of [delete_role_with_all_policies] over the managed policies
    of the role. *)
Lemma managed_loop_run (role_name : string) (body : attached_policy -> M W unit)
    (l : list attached_policy) (st : state W) :
  body = (fun policy =>
            let policy_arn := ap_PolicyArn policy in
            call P (DetachRolePolicy role_name policy_arn) ;;
            versions <- invoke P (ListPolicyVersions policy_arn) ;;
            versions <- item "Versions" Key.Versions versions ;;
            for_each versions (fun version =>
              if negb (pv_IsDefaultVersion version) then
                call P (DeletePolicyVersion policy_arn (pv_VersionId version))
              else ret tt) ;;
            call P (DeletePolicy policy_arn) ;;
            let policy_name := ap_PolicyName policy in
            print ("Successfully deleted policy: " ++ policy_name)) ->
  exists ext,
    log (snd (for_each l body st)) = log st ++ ext
    /\ (forall c o, In (Called c o) ext -> policy_teardown_call c = true)
    /\ (fst (for_each l body st) = Ok tt ->
        no_fault ext
        /\ forall p, In p l ->
             In (DetachRolePolicy role_name (ap_PolicyArn p)) (calls_of ext)
             /\ In (DeletePolicy (ap_PolicyArn p)) (calls_of ext)).
Proof.
  intros Hbody.
  assert (Hd : forall l, disciplined (fun _ : W => True) (only policy_teardown_call)
                           (for_each l body)).
  { intros l'. subst body. discipline (@always_serve W P). }
  destruct (@strict_run W unit policy_teardown_call _ st (Hd l) policy_teardown_unguarded)
    as (ext & Hlog & Hcalls & _ & Hnf).
  exists ext. split; [exact Hlog|]. split; [exact Hcalls|].
  intros Hok. split; [exact (Hnf _ Hok)|].
  clear Hcalls Hnf. revert st ext Hlog Hok.
  induction l as [|x l IH]; intros st ext Hlog Hok p Hin; [destruct Hin|].
  simpl for_each in Hlog, Hok. rewrite run_bind in Hlog, Hok.
  assert (Hx : match body x st with
               | (Ok _, st1) =>
                   exists mid, log st1 = log st ++ mid
                     /\ In (DetachRolePolicy role_name (ap_PolicyArn x)) (calls_of mid)
                     /\ In (DeletePolicy (ap_PolicyArn x)) (calls_of mid)
               | (Raised _, _) => True
               end).
  { rewrite Hbody. cbv zeta. rewrite run_call.
    destruct (serve P (world st) _) as [[r|e] w1]; [|exact Logic.I].
    rewrite run_invoke. simpl world. simpl log.
    destruct (serve P w1 _) as [[r2|e] w2]; [|exact Logic.I].
    rewrite run_item. destruct (Key.Versions r2) as [vs|]; [|exact Logic.I].
    rewrite run_bind.
    match goal with
    | |- context [for_each vs ?b ?s] =>
        assert (Hv : disciplined (fun _ : W => True) (only policy_teardown_call)
                       (for_each vs b)) by discipline (@always_serve W P);
        destruct (Hv s Logic.I) as (extv & Hlogv & _);
        destruct (for_each vs b s) as [[[]|e] [wv lv]]; [|exact Logic.I]
    end.
    simpl in Hlogv. subst lv. rewrite run_call. simpl world. simpl log.
    destruct (serve P wv _) as [[r3|e] w3]; [|exact Logic.I].
    simpl. eexists. rewrite <- !app_assoc. split; [reflexivity|].
    simpl. rewrite !calls_of_app. simpl. split; [left; reflexivity|].
    right. right. apply in_or_app. right. left. reflexivity. }
  destruct (body x st) as [[[]|e] st1]; [|discriminate Hok].
  destruct Hx as (mid & Hmid & Hdetach & Hdelete).
  destruct (Hd l st1 Logic.I) as (rest & Hrest & _).
  assert (Hext : ext = mid ++ rest).
  { apply (app_inv_head (log st)). rewrite <- Hlog, Hrest, Hmid, app_assoc. reflexivity. }
  subst ext. rewrite calls_of_app. destruct Hin as [<-|Hin].
  - split; apply in_or_app; left; assumption.
  - destruct (IH st1 rest Hrest Hok p Hin) as [H1 H2].
    split; apply in_or_app; right; assumption.
Qed.

(** The loop over the inline policies of the role. *)
Lemma inline_loop_run (role_name : string) (body : string -> M W unit)
    (l : list string) (st : state W) :
  body = (fun policy_name =>
            call P (DeleteRolePolicy role_name policy_name) ;;
            print ("Successfully deleted policy: " ++ policy_name)) ->
  exists ext,
    log (snd (for_each l body st)) = log st ++ ext
    /\ (forall c o, In (Called c o) ext -> policy_teardown_call c = true)
    /\ (fst (for_each l body st) = Ok tt ->
        no_fault ext
        /\ forall n, In n l -> In (DeleteRolePolicy role_name n) (calls_of ext)).
Proof.
  intros Hbody.
  assert (Hd : forall l, disciplined (fun _ : W => True) (only policy_teardown_call)
                           (for_each l body)).
  { intros l'. subst body. discipline (@always_serve W P). }
  destruct (@strict_run W unit policy_teardown_call _ st (Hd l) policy_teardown_unguarded)
    as (ext & Hlog & Hcalls & _ & Hnf).
  exists ext. split; [exact Hlog|]. split; [exact Hcalls|].
  intros Hok. split; [exact (Hnf _ Hok)|].
  clear Hcalls Hnf. revert st ext Hlog Hok.
  induction l as [|x l IH]; intros st ext Hlog Hok n Hin; [destruct Hin|].
  simpl for_each in Hlog, Hok. rewrite run_bind in Hlog, Hok.
  assert (Hx : match body x st with
               | (Ok _, st1) =>
                   exists mid, log st1 = log st ++ mid
                     /\ In (DeleteRolePolicy role_name x) (calls_of mid)
               | (Raised _, _) => True
               end).
  { rewrite Hbody. rewrite run_call.
    destruct (serve P (world st) _) as [[r|e] w1]; [|exact Logic.I].
    simpl. eexists. rewrite <- !app_assoc. split; [reflexivity|].
    simpl. left; reflexivity. }
  destruct (body x st) as [[[]|e] st1]; [|discriminate Hok].
  destruct Hx as (mid & Hmid & Hdelete).
  destruct (Hd l st1 Logic.I) as (rest & Hrest & _).
  assert (Hext : ext = mid ++ rest).
  { apply (app_inv_head (log st)). rewrite <- Hlog, Hrest, Hmid, app_assoc. reflexivity. }
  subst ext. rewrite calls_of_app. destruct Hin as [<-|Hin].
  - apply in_or_app; left; assumption.
  - apply in_or_app; right. exact (IH st1 rest Hrest Hok n Hin).
Qed.

End ManagedPolicies.

Section RoleTeardown.

Variable W : Type.
Variable P : provider W.

(** X11: when [delete_role_with_all_policies] calls [delete_role], the
    call is on the role given and no call before it was refused. By then
    the managed policies of the role were listed and each one was detached
    from the role and itself deleted, and the inline policies were listed
    and each one deleted. What follows the call is the success line when
    the deletion is answered, nothing when it is refused. *)
Theorem delete_role_with_all_policies_policies_first (w : W) (role_name : string)
    (before after : list event) (target : string) (o : outcome) :
  trace_of (delete_role_with_all_policies P role_name) w
  = before ++ Called (DeleteRole target) o :: after ->
  target = role_name
  /\ no_fault before
  /\ after = match o with
             | Returned _ => [Printed ("Successfully deleted role: " ++ role_name)%string]
             | Fault _ => []
             end
  /\ exists attached inline,
       In (Called (ListAttachedRolePolicies role_name) (Returned (AttachedPolicies attached)))
          before
       /\ In (Called (ListRolePolicies role_name) (Returned (PolicyNames inline))) before
       /\ (forall p, In p attached ->
             In (DetachRolePolicy role_name (ap_PolicyArn p)) (calls_of before)
             /\ In (DeletePolicy (ap_PolicyArn p)) (calls_of before))
       /\ (forall n, In n inline ->
             In (DeleteRolePolicy role_name n) (calls_of before)).
Proof.
  unfold trace_of, delete_role_with_all_policies, start. intros H.
  rewrite try_pass_log in H.
  steps H.
  destruct (serve P w _) as [[r|e] w1]; [|absent H].
  steps H.
  destruct r; try absent H. simpl Key.AttachedPolicies in H. cbv iota in H.
  rewrite run_bind in H.
  match type of H with
  | context [for_each l ?b ?s] =>
      destruct (@managed_loop_run W P role_name b l s eq_refl)
        as (ext & Hlog & Hcalls & Hok);
      destruct (for_each l b s) as [[[]|e] [w2 lg]]; simpl in Hlog, Hok; subst lg;
        [specialize (Hok eq_refl)|absent H]
  end.
  steps H.
  destruct (serve P w2 _) as [[r|e] w3]; [|absent H].
  steps H.
  destruct r; try absent H. simpl Key.PolicyNames in H. cbv iota in H.
  rewrite run_bind in H.
  match type of H with
  | context [for_each l0 ?b ?s] =>
      destruct (@inline_loop_run W P role_name b l0 s eq_refl)
        as (ext0 & Hlog0 & Hcalls0 & Hok0);
      destruct (for_each l0 b s) as [[[]|e] [w4 lg]]; simpl in Hlog0, Hok0; subst lg;
        [specialize (Hok0 eq_refl)|absent H]
  end.
  steps H.
  destruct Hok as [Hf Hmanaged], Hok0 as [Hf0 Hinline].
  assert (Hrun : exists o',
            before ++ Called (DeleteRole target) o :: after
            = (Called (ListAttachedRolePolicies role_name) (Returned (AttachedPolicies l))
               :: ext ++ Called (ListRolePolicies role_name) (Returned (PolicyNames l0))
               :: ext0)
              ++ Called (DeleteRole role_name) o'
              :: match o' with
                 | Returned _ => [Printed ("Successfully deleted role: " ++ role_name)%string]
                 | Fault _ => []
                 end).
  { destruct (serve P w4 _) as [[r|e'] w5]; simpl in H;
      [exists (Returned r) | exists (Fault e')]; rewrite <- H;
      simpl; rewrite <- !app_assoc; simpl; reflexivity. }
  clear H. destruct Hrun as [o' H].
  apply unique_occurrence with (p := role_deletion) in H; try reflexivity.
  - destruct H as (-> & Hx & ->). injection Hx as -> ->.
    split; [reflexivity|]. split.
    { apply (@no_fault_app [_]); [reflexivity|]. apply no_fault_app; [exact Hf|].
      apply (@no_fault_app [_]); [reflexivity | exact Hf0]. }
    split; [reflexivity|].
    exists l, l0. split; [left; reflexivity|]. split.
    { right. apply in_or_app. right. left. reflexivity. }
    simpl. rewrite calls_of_app. simpl. split.
    + intros p Hp. destruct (Hmanaged p Hp) as [H1 H2].
      split; right; apply in_or_app; left; assumption.
    + intros n Hn. right. apply in_or_app. right. right. exact (Hinline n Hn).
  - simpl. rewrite forallb_app. simpl.
    rewrite (no_role_deletion_of_policy_calls _ Hcalls),
            (no_role_deletion_of_policy_calls _ Hcalls0). reflexivity.
  - destruct o'; reflexivity.
Qed.

End RoleTeardown.

Lemma delete_role_with_all_policies_policies_first_witness :
  trace_of (delete_role_with_all_policies Script.provider "booking-role") managed_role
  = before_managed_role_deletion
    ++ Called (DeleteRole "booking-role") (Returned NoContent)
    :: [Printed "Successfully deleted role: booking-role"]
  /\ calls_of before_managed_role_deletion
     = [ListAttachedRolePolicies "booking-role";
        DetachRolePolicy "booking-role" "arn:aws:iam::123456789012:policy/booking-ba";
        ListPolicyVersions "arn:aws:iam::123456789012:policy/booking-ba";
        DeletePolicyVersion "arn:aws:iam::123456789012:policy/booking-ba" "v1";
        DeletePolicy "arn:aws:iam::123456789012:policy/booking-ba";
        ListRolePolicies "booking-role";
        DeleteRolePolicy "booking-role" "inline-logs"]
  /\ no_fault before_managed_role_deletion.
Proof.
  split; [reflexivity|]. split; [reflexivity|].
  destruct (@delete_role_with_all_policies_policies_first _ Script.provider managed_role
              "booking-role" before_managed_role_deletion
              [Printed "Successfully deleted role: booking-role"]
              "booking-role" (Returned NoContent) eq_refl)
    as (_ & Hf & _).
  exact Hf.
Defined.


(** ** Agent role and policy teardown ([delete_agent_roles_and_policies]) *)

Section AgentRoles.

Variable W : Type.
Variable P : provider W.
Variable account_id : string.
Variable exn_text : exn -> string.

(** The events of [try: call except Exception as e: print(line); print(e)]:
    the call, and the two lines when it is refused. *)
Lemma run_reported {B} (c : api_call) (line : string) (k : unit -> M W B) (st : state W) :
  bind (try_catch (call P c) is_Exception
          (fun e => print line ;; print (exn_text e))) k st
  = k tt {| world := snd (serve P (world st) c);
            log := log st ++ reported exn_text c (fst (serve P (world st) c)) line |}.
Proof.
  rewrite run_bind. unfold try_catch. rewrite run_last_call.
  destruct (serve P (world st) c) as [[r|e] w']; simpl; [reflexivity|].
  rewrite <- !app_assoc. reflexivity.
Qed.

Lemma calls_of_reported c o line : calls_of (reported exn_text c o line) = [c].
Proof. destruct o; reflexivity. Qed.

Lemma faults_reported_nil : faults_reported exn_text [].
Proof. intros [|b before] c e after H; discriminate H. Qed.

Lemma faults_reported_call c o line : faults_reported exn_text (reported exn_text c o line).
Proof.
  intros before c' e after H. unfold reported in H.
  destruct o as [r|e0]; destruct before as [|b1 [|b2 [|b3 before]]]; simpl in H;
    try discriminate H;
    try (injection H as _ H; destruct before; discriminate H);
    try (injection H as _ _ H; destruct before; discriminate H);
    try (injection H as _ _ _ H; destruct before; discriminate H).
  injection H as _ <- <-. eauto.
Qed.

Lemma faults_reported_app t1 t2 :
  faults_reported exn_text t1 -> faults_reported exn_text t2 ->
  faults_reported exn_text (t1 ++ t2).
Proof.
  intros H1 H2 before c e after H.
  apply app_eq_app in H. destruct H as (l & [[Ht1 Hl] | [Hb Ht2]]).
  - destruct l as [|x l]; simpl in Hl.
    + apply (H2 [] c e after). symmetry. exact Hl.
    + injection Hl as <- ->. destruct (H1 _ _ _ _ Ht1) as (line & rest & ->).
      exists line, (rest ++ t2). reflexivity.
  - exact (H2 _ _ _ _ Ht2).
Qed.


Lemma always_reports_ret : always_reports exn_text (@ret W unit tt) [].
Proof.
  intros st. exists []. simpl. rewrite app_nil_r.
  repeat split. apply faults_reported_nil.
Qed.

Lemma always_reports_guarded c line :
  always_reports exn_text
    (try_catch (call P c) is_Exception (fun e => print line ;; print (exn_text e))) [c].
Proof.
  intros st. exists (reported exn_text c (fst (serve P (world st) c)) line).
  unfold try_catch. rewrite run_last_call.
  destruct (serve P (world st) c) as [[r|e] w']; simpl;
    (split; [reflexivity|]); (split; [rewrite <- ?app_assoc; reflexivity|]);
    (split; [reflexivity|]).
  - apply (@faults_reported_call c (Returned r) line).
  - apply (@faults_reported_call c (Fault e) line).
Qed.

Lemma always_reports_bind (m : M W unit) (k : unit -> M W unit) calls1 calls2 :
  always_reports exn_text m calls1 -> always_reports exn_text (k tt) calls2 ->
  always_reports exn_text (bind m k) (calls1 ++ calls2).
Proof.
  intros Hm Hk st. destruct (Hm st) as (ext1 & Hok1 & Hlog1 & Hc1 & Hr1).
  rewrite run_bind. destruct (m st) as [[[]|e] st1]; [|discriminate Hok1].
  simpl in Hlog1. destruct (Hk st1) as (ext2 & Hok2 & Hlog2 & Hc2 & Hr2).
  exists (ext1 ++ ext2). split; [exact Hok2|]. split.
  { rewrite Hlog2, Hlog1, app_assoc. reflexivity. }
  split; [rewrite calls_of_app, Hc1, Hc2; reflexivity|].
  apply faults_reported_app; assumption.
Qed.

(** X12: [delete_agent_roles_and_policies] never raises and always makes
    the same nine calls in the same order, whatever is refused: the two
    policies are detached from the agent role, the table policy and the
    basic execution policy from the function role, the two roles are
    deleted, then the three policies. Every refused call is followed at
    once by a line that says so and by the text of the exception. *)
Theorem delete_agent_roles_and_policies_never_raises (w : W)
    (agent_name kb_policy_name : string) :
  let run := delete_agent_roles_and_policies P account_id exn_text agent_name kb_policy_name in
  let agent_role := ("AmazonBedrockExecutionRoleForAgents_" ++ agent_name)%string in
  let function_role := (agent_name ++ "-lambda-role")%string in
  let policy_arn name := ("arn:aws:iam::" ++ account_id ++ ":policy/" ++ name)%string in
  outcome_of run w = Ok tt
  /\ calls_of (trace_of run w)
     = [DetachRolePolicy agent_role (policy_arn (agent_name ++ "-ba")%string);
        DetachRolePolicy agent_role (policy_arn kb_policy_name);
        DetachRolePolicy function_role (policy_arn (agent_name ++ "-dynamodb-policy")%string);
        DetachRolePolicy function_role
          "arn:aws:iam::aws:policy/service-role/AWSLambdaBasicExecutionRole";
        DeleteRole agent_role;
        DeleteRole function_role;
        DeletePolicy (policy_arn (agent_name ++ "-ba")%string);
        DeletePolicy (policy_arn kb_policy_name);
        DeletePolicy (policy_arn (agent_name ++ "-dynamodb-policy")%string)]
  /\ faults_reported exn_text (trace_of run w).
Proof.
  cbv zeta. unfold outcome_of, trace_of.
  match goal with
  | |- fst (?m _) = _ /\ _ = ?l /\ _ =>
      assert (H : exists calls, always_reports exn_text m calls /\ calls = l)
  end.
  { eexists. split.
    - cbv beta iota zeta delta [delete_agent_roles_and_policies for_each].
      repeat first [ apply always_reports_guarded
                   | apply always_reports_ret
                   | eapply always_reports_bind ].
    - reflexivity. }
  destruct H as (calls & H & ->).
  destruct (H (start w)) as (ext & Hok & Hlog & Hcalls & Hreported).
  simpl in Hlog. rewrite Hlog. auto.
Qed.

End AgentRoles.


(** ** Provisioning of the function role ([create_lambda_role]) *)

Section FunctionRole.

Variable W : Type.
Variable P : provider W.
Variable region_name account_id : string.
Variable standard_tags_kv : list (string * string).
Variable json_dumps : json -> string.

Lemma run_last_invoke c (st : state W) :
  invoke P c st
  = match serve P (world st) c with
    | (Returned r, w') => (Ok r, {| world := w'; log := log st ++ [Called c (Returned r)] |})
    | (Fault e, w') => (Raised e, {| world := w'; log := log st ++ [Called c (Fault e)] |})
    end.
Proof. unfold invoke. destruct (serve P (world st) c) as [[r|e] w']; reflexivity. Qed.

Lemma run_last_item {T} key (field : response -> option T) r (st : state W) :
  item key field r st
  = match field r with
    | Some x => (Ok x, st)
    | None => (Raised (KeyError key), st)
    end.
Proof. unfold item, subscript. destruct (field r); reflexivity. Qed.

Ltac advance :=
  cbv beta;
  first [ rewrite run_assoc | rewrite run_ret | rewrite run_try | rewrite run_invoke
        | rewrite run_call | rewrite run_item | rewrite run_emit | rewrite run_last_call
        | rewrite run_last_invoke
        | progress (unfold ret; cbv beta iota) ];
  simpl world; simpl log.


End FunctionRole.


(** ** Provisioning of the function ([create_lambda]) *)

Section FunctionCreation.

Variable W : Type.
Variable P : provider W.
Variable standard_tags : list (string * string).

(** X14: [create_lambda] looks the function up only after
    [create_function] was refused with a resource conflict: a
    [get_function] call in its trace is on the function asked for, it is
    the last event, and before it are the refused creation and the line
    that announces the lookup, nothing else. *)
Theorem create_lambda_lookup_only_after_conflict (w : W) (function_name : string)
    (lambda_iam_role : response) (looked_up : string) (o : outcome) :
  In (Called (GetFunction looked_up) o)
     (trace_of (create_lambda P standard_tags function_name lambda_iam_role) w) ->
  looked_up = function_name
  /\ exists role bytes,
       Key.Role lambda_iam_role = Some role
       /\ zip_file P w "lambda_function.py" = Ok bytes
       /\ trace_of (create_lambda P standard_tags function_name lambda_iam_role) w
          = [Called (CreateFunction function_name "python3.12" 60 (role_Arn role) bytes
                       "lambda_function.lambda_handler" standard_tags)
                    (Fault (ClientError "ResourceConflictException"));
             Printed "Lambda function already exists, retrieving it";
             Called (GetFunction function_name) o].
Proof.
  remember (trace_of (create_lambda P standard_tags function_name lambda_iam_role) w)
    as t eqn:Ht.
  unfold trace_of, create_lambda, start in Ht. rewrite run_bind in Ht.
  unfold package in Ht. simpl world in Ht. cbv beta iota in Ht.
  destruct (zip_file P w "lambda_function.py") as [bytes|e]; [|subst t; intros []].
  unfold try_except in Ht. rewrite run_item in Ht.
  destruct (Key.Role lambda_iam_role) as [role|]; [|subst t; intros []].
  rewrite run_last_invoke in Ht. simpl world in Ht. simpl log in Ht.
  destruct (serve P w _) as [[r|e] w1].
  { subst t. intros [H|[]]. discriminate H. }
  destruct (is_code "ResourceConflictException" e) eqn:Hcode.
  2:{ subst t. intros [H|[]]. discriminate H. }
  assert (He : e = ClientError "ResourceConflictException").
  { destruct e; try discriminate Hcode. simpl in Hcode.
    apply String.eqb_eq in Hcode. subst. reflexivity. }
  subst e. rewrite run_print, run_invoke in Ht. simpl world in Ht. simpl log in Ht.
  destruct (serve P w1 _) as [[r|e] w2].
  - rewrite run_last_item in Ht. destruct (Key.Configuration r); simpl in Ht; subst t;
      (intros [H|[H|[H|[]]]]; try discriminate H); injection H as <- <-;
      (split; [reflexivity|]); exists role, bytes; auto.
  - simpl in Ht. subst t. (intros [H|[H|[H|[]]]]; try discriminate H); injection H as <- <-.
    split; [reflexivity|]. exists role, bytes. auto.
Qed.

End FunctionCreation.

(** X14 where the function exists already. *)
Lemma create_lambda_lookup_only_after_conflict_witness :
  let role := {| role_RoleName := "booking-lambda-role";
                 role_Arn := "arn:aws:iam::123456789012:role/booking-lambda-role" |} in
  let cfg := {| fc_FunctionName := "booking";
                fc_FunctionArn := "arn:aws:lambda:us-east-1:123456789012:function:booking" |} in
  In (Called (GetFunction "booking") (Returned (GetFunctionResponse cfg)))
     (trace_of (create_lambda Script.provider [] "booking" (RoleResponse role))
               (later 6 all_exist))
  /\ trace_of (create_lambda Script.provider [] "booking" (RoleResponse role))
              (later 6 all_exist)
     = [Called (CreateFunction "booking" "python3.12" 60 (role_Arn role) "zip"
                  "lambda_function.lambda_handler" [])
               (Fault (ClientError "ResourceConflictException"));
        Printed "Lambda function already exists, retrieving it";
        Called (GetFunction "booking") (Returned (GetFunctionResponse cfg))].
Proof.
  cbv zeta.
  assert (Hin : In (Called (GetFunction "booking")
                      (Returned (GetFunctionResponse
                         {| fc_FunctionName := "booking";
                            fc_FunctionArn :=
                              "arn:aws:lambda:us-east-1:123456789012:function:booking" |})))
                   (trace_of (create_lambda Script.provider [] "booking"
                                (RoleResponse
                                   {| role_RoleName := "booking-lambda-role";
                                      role_Arn :=
                                        "arn:aws:iam::123456789012:role/booking-lambda-role" |}))
                             (later 6 all_exist))).
  { right. right. left. reflexivity. }
  split; [exact Hin|].
  destruct (@create_lambda_lookup_only_after_conflict _ Script.provider [] (later 6 all_exist)
              "booking" _ "booking" _ Hin) as (_ & role & bytes & Hrole & Hzip & Htrace).
  injection Hrole as <-. injection Hzip as <-. exact Htrace.
Defined.


(** ** The sweep of one identifier *)

Lemma action_order_distinct : NoDup action_order.
Proof.
  unfold action_order.
  repeat (apply NoDup_cons; [simpl; intuition discriminate|]). apply NoDup_nil.
Qed.

Section SweepOne.

Variable W : Type.
Variable P : provider W.

(** X15: the sweep of one well-formed identifier is one run of the handler
    that matches it: the handlers before it in the table are tried and do
    nothing, the matching handler runs on the whole identifier, its service
    and its resource part, and when it ends normally the handlers after it
    are tried and do nothing; when it raises, the sweep ends with that
    exception there. *)
Theorem sweep_one_runs_matching_handler (arn service resource : string)
    (action : action_name) (handler : string -> string -> string -> M W unit) :
  parse_arn arn = Ok (service, resource) ->
  In (action, handler) (delete_actions P) ->
  matches action service resource = true ->
  exists earlier later,
    action_order = earlier ++ action :: later
    /\ forall st,
         delete_resources P [arn] st
         = match handler arn service resource
                   {| world := world st;
                      log := log st ++ map (fun a => Entered a arn) earlier
                                    ++ [Entered action arn] |} with
           | (Ok _, st') =>
               (Ok tt, {| world := world st';
                          log := log st' ++ map (fun a => Entered a arn) later |})
           | (Raised e, st') => (Raised e, st')
           end.
Proof.
  intros Hparse Hin Hmatch.
  destruct (in_split _ _ Hin) as (pre & post & Hsplit).
  assert (Horder : action_order = map fst pre ++ action :: map fst post).
  { change action_order with (map fst (delete_actions P)).
    rewrite Hsplit, map_app. reflexivity. }
  exists (map fst pre), (map fst post). split; [exact Horder|].
  pose proof action_order_distinct as Hnd. rewrite Horder in Hnd.
  pose proof (NoDup_remove_2 _ _ _ Hnd) as Hfresh.
  assert (Hskip : forall x, In x pre \/ In x post ->
                    forall st, snd x arn service resource st = (Ok tt, st)).
  { intros x Hx.
    pose proof (unmatched_handler_skips P arn service resource) as Hs.
    rewrite Forall_forall in Hs. apply Hs.
    - rewrite Hsplit. apply in_or_app. destruct Hx as [Hx|Hx]; [left|right; right]; exact Hx.
    - destruct (matches (fst x) service resource) eqn:Hm; [|exact Hm].
      exfalso. apply Hfresh. rewrite (matches_exclusive _ _ _ _ Hmatch Hm).
      apply in_or_app. destruct Hx as [Hx|Hx]; [left|right]; apply in_map; exact Hx. }
  assert (Hmarks : forall l : list action_name,
            map (fun p => Entered (fst p) (snd p)) (list_prod l [arn])
            = map (fun a => Entered a arn) l).
  { induction l as [|a l IH]; [reflexivity|]. simpl. rewrite IH. reflexivity. }
  assert (Hpart : forall part, (forall x, In x part -> In x pre \/ In x post) ->
            forall st, sweep part [arn] st
                       = (Ok tt, {| world := world st;
                                    log := log st ++ map (fun a => Entered a arn)
                                                         (map fst part) |})).
  { intros part Hsub st. rewrite sweep_of_skips, Hmarks; [reflexivity|].
    intros arn' [<-|[]]. exists service, resource. split; [exact Hparse|].
    apply Forall_forall. intros x Hx. apply Hskip, Hsub, Hx. }
  intros st. unfold delete_resources. rewrite Hsplit.
  unfold sweep at 1. rewrite for_each_app, run_bind.
  fold (sweep pre [arn]). rewrite (Hpart pre) by auto.
  rewrite for_each_cons. fold (sweep post [arn]).
  cbv beta. simpl for_each. rewrite !run_assoc, Hparse. unfold lift.
  rewrite run_ret. cbv beta iota. rewrite !run_assoc, run_emit.
  simpl world. simpl log. simpl fst. simpl snd. rewrite <- app_assoc.
  rewrite !run_bind.
  destruct (handler arn service resource _) as [[[]|e] st1]; [|reflexivity].
  rewrite run_ret. rewrite (Hpart post) by auto. reflexivity.
Qed.

End SweepOne.

(** X15 on the role of the example: the sweep of the role's identifier is
    the run of [delete_roles] after the five handlers before it. *)
Lemma sweep_one_runs_matching_handler_witness :
  parse_arn Scenario.role_arn = Ok ("iam", "role/my-role")
  /\ In (Roles, delete_roles Cloud.provider) (delete_actions Cloud.provider)
  /\ matches Roles "iam" "role/my-role" = true
  /\ exists earlier later,
       action_order = earlier ++ Roles :: later
       /\ forall st,
            delete_resources Cloud.provider [Scenario.role_arn] st
            = match delete_roles Cloud.provider Scenario.role_arn "iam" "role/my-role"
                      {| world := world st;
                         log := log st ++ map (fun a => Entered a Scenario.role_arn) earlier
                                       ++ [Entered Roles Scenario.role_arn] |} with
              | (Ok _, st') =>
                  (Ok tt, {| world := world st';
                             log := log st'
                                    ++ map (fun a => Entered a Scenario.role_arn) later |})
              | (Raised e, st') => (Raised e, st')
              end.
Proof.
  assert (Hin : In (Roles, delete_roles Cloud.provider) (delete_actions Cloud.provider)).
  { unfold delete_actions. simpl. auto 10. }
  split; [reflexivity|]. split; [exact Hin|]. split; [reflexivity|].
  exact (@sweep_one_runs_matching_handler _ Cloud.provider Scenario.role_arn
           "iam" "role/my-role" Roles (delete_roles Cloud.provider) eq_refl Hin eq_refl).
Defined.


(** ** Discovery of the tagged resources ([get_tagged_resources]) *)

Section DiscoveryResult.

Variable W : Type.
Variable T : tagging W.
Variable exn_text : exn -> string.

Lemma tagged_pages_listed (pages : listing W (option (list tag_mapping)))
    (resources : list string) (w : W) :
  snd (tagged_pages pages resources w) = resources ++ listed_arns pages w.
Proof.
  revert resources. induction pages as [|e|[mapping_list|] rest IH]; intros resources; simpl;
    try (rewrite app_nil_r; reflexivity).
  rewrite IH, app_assoc. reflexivity.
Qed.

Lemma role_tags_tagged (name value : string) (roles : list iam_role)
    (resources : list string) (w : W) :
  exists added,
    snd (fst (role_tags T name value roles resources w)) = resources ++ added
    /\ Forall (tagged_role T name value) added.
Proof.
  revert resources w. induction roles as [|role more IH]; intros resources w; simpl.
  - exists []. rewrite app_nil_r. split; [reflexivity | constructor].
  - destruct (list_role_tags T w (role_RoleName role)) as [[[tags|]|e] w'] eqn:E; simpl;
      try (exists []; rewrite app_nil_r; split; [reflexivity | constructor]).
    destruct (has_tag name value tags) eqn:Htag; [|apply IH].
    destruct (IH (resources ++ [role_Arn role]) w') as (added & Hadded & Hall).
    exists (role_Arn role :: added). rewrite Hadded, <- app_assoc.
    split; [reflexivity|]. constructor; [|exact Hall].
    exists role, w, tags. rewrite E. auto.
Qed.

Lemma role_pages_tagged (name value : string) (pages : listing W (option (list iam_role)))
    (resources : list string) (w : W) :
  exists added,
    snd (fst (role_pages T name value pages resources w)) = resources ++ added
    /\ Forall (tagged_role T name value) added.
Proof.
  revert resources w. induction pages as [|e|[roles|] rest IH]; intros resources w; simpl;
    try (exists []; rewrite app_nil_r; split; [reflexivity | constructor]).
  destruct (role_tags_tagged name value roles resources w) as (added & Hadded & Hall).
  destruct (role_tags T name value roles resources w) as [[[[]|e] resources'] w'];
    simpl in Hadded; subst resources'.
  - destruct (IH w' (resources ++ added) w') as (added' & Hadded' & Hall').
    exists (added ++ added'). rewrite Hadded', <- app_assoc.
    split; [reflexivity | apply Forall_app; auto].
  - exists added. simpl. auto.
Qed.


End DiscoveryResult.

